(** * gala: the watershed stage ([gala/watershed.py])

    A shallow embedding of [create_labels], the function that turns a
    boundary-probability volume into a supervoxel volume: threshold and
    label the seeds, drop the small ones, crop the border, flood, and
    paste the flooded crop back into a zeroed volume of the full size.

    Arrays are nested lists, numpy's slices are written out with their
    clamping, Python's exceptions are a sum type, the logger is a list of
    records threaded through the run, and the module's global names are a
    finite map, so that a name the module never binds is a [NameError].

    The driver around it ([gen_watershed], [entrypoint]) runs in a monad
    that also records what it does to the world outside.  Of
    [gala/viz.py], [draw_seg] and [plot_vi] are embedded on raveled
    arrays, and the functions that draw are embedded as the list of the
    calls they make into matplotlib. *)

From Stdlib Require Import ZArith Lia PrimFloat Sorted.
From stdpp Require Import base list strings gmap pretty.
From Stdlib Require Import Ascii.

(** ** Python: exceptions, results, the logger *)

Module Py.

Inductive exn :=
| NameError (name : string)
| AttributeError (attr : string)
| TypeError (what : string)
| ValueError (what : string)
| Exception (msg : string).

Inductive result (A : Type) :=
| Return (a : A)
| Raise (e : exn).
Arguments Return {A} a.
Arguments Raise {A} e.

(** What [master_logger.debug] and [master_logger.info] are given.  A
    message built with [str] of a float or of a shape keeps the value
    instead of its decimal text. *)
Inductive message :=
| Text (s : string)
| TextFloat (s : string) (x : float)
| TextShape (s : string) (shape : list nat).

Inductive level := DEBUG | INFO.

Definition logger := list (level * message).

(** A computation reads and extends the logger and returns or raises. *)
Definition M (A : Type) := logger -> result A * logger.

Definition ret {A} (a : A) : M A := fun lg => (Return a, lg).
Definition raise {A} (e : exn) : M A := fun lg => (Raise e, lg).
Definition bind {A B} (m : M A) (k : A -> M B) : M B :=
  fun lg => match m lg with
            | (Return a, lg') => k a lg'
            | (Raise e, lg') => (Raise e, lg')
            end.
Definition lift {A} (r : result A) : M A := fun lg => (r, lg).

Definition debug (m : message) : M unit := fun lg => (Return tt, lg ++ [(DEBUG, m)]).
Definition info (m : message) : M unit := fun lg => (Return tt, lg ++ [(INFO, m)]).

End Py.
Import Py.

Declare Scope py_scope.
Delimit Scope py_scope with py.
Notation "x <- m ;; k" := (bind m (fun x => k))
  (at level 100, m at next level, right associativity) : py_scope.
Notation "m ;;; k" := (bind m (fun _ => k))
  (at level 100, right associativity) : py_scope.

(** ** numpy: three-dimensional arrays, slices, item assignment *)

Abbreviation array3 A := (list (list (list A))).

Module Numpy.

Section Arrays.
Context {A : Type}.

Definition lookup3 (a : array3 A) (i j k : nat) : option A :=
  pl ← a !! i; row ← pl !! j; row !! k.

Definition flatten (a : array3 A) : list A := mjoin (mjoin a).

(** [a.shape] read off the nested list; an axis behind an empty one
    reads as zero. *)
Definition shape (a : array3 A) : list nat :=
  [length a; length (default [] (head a));
   length (default [] (head (default [] (head a))))].

(** [a] is a rectangular array of shape [(n0, n1, n2)]. *)
Definition has_shapeb (n0 n1 n2 : nat) (a : array3 A) : bool :=
  Nat.eqb (length a) n0 &&
  forallb (fun pl => Nat.eqb (length pl) n1 &&
                     forallb (fun row => Nat.eqb (length row) n2) pl) a.

Definition has_shape (n0 n1 n2 : nat) (a : array3 A) : Prop :=
  has_shapeb n0 n1 n2 a = true.

(** A slice bound [i] on an axis of length [n], as [slice.indices]
    resolves it for step one: a negative bound counts from the end,
    and every bound is clamped to [0..n]. *)
Definition clamp (n i : Z) : Z :=
  if (i <? 0)%Z then Z.max (i + n) 0 else Z.min i n.

Definition slice_start {B} (start : Z) (l : list B) : nat :=
  Z.to_nat (clamp (Z.of_nat (length l)) start).

Definition slice_len {B} (start stop : Z) (l : list B) : nat :=
  let n := Z.of_nat (length l) in
  Z.to_nat (clamp n stop - clamp n start).

(** [l[start:stop]] *)
Definition slice {B} (start stop : Z) (l : list B) : list B :=
  take (slice_len start stop l) (drop (slice_start start l) l).

(** [a[s0:e0, s1:e1, s2:e2]] *)
Definition getitem3 (s0 e0 s1 e1 s2 e2 : Z) (a : array3 A) : array3 A :=
  (fun pl => slice s2 e2 <$> slice s1 e1 pl) <$> slice s0 e0 a.

End Arrays.

(** An elementwise operation. *)
Definition map3 {A B} (f : A -> B) (a : array3 A) : array3 B :=
  fmap (M:=list) (fmap (M:=list) (fmap (M:=list) f)) a.

(** [a[:,:,:] = x]: every cell is overwritten, the shape stays. *)
Definition fill3 {A} (x : A) (a : array3 A) : array3 A :=
  map3 (fun _ => x) a.

(** Writing [src] over the cells of [l] from position [s] on, cell by
    cell with [f]. *)
Definition assign_from {A B} (f : A -> B -> A) (s : nat) (l : list A) (src : list B)
  : list A :=
  take s l ++ zip_with f (take (length src) (drop s l)) src
         ++ drop (s + length src) l.

(** [a[s0:e0, s1:e1, s2:e2] = src] for a source of the shape of the
    slice it is written to.  numpy also stretches a source axis of length
    one over the slice, and raises [ValueError] for any other shape; the
    stretching is not modelled and every source of another shape raises
    here, so what is proved of the paste is proved for a flood that
    returns a volume of the shape of its input. *)
Definition setitem3 {A} (s0 e0 s1 e1 s2 e2 : Z) (a : array3 A) (src : array3 A)
  : result (array3 A) :=
  let pl0 := default [] (head a) in
  let row0 := default [] (head pl0) in
  if has_shapeb (slice_len s0 e0 a) (slice_len s1 e1 pl0) (slice_len s2 e2 row0) src
  then Return
         (assign_from
            (assign_from
               (assign_from (fun _ x => x) (slice_start s2 row0))
               (slice_start s1 pl0))
            (slice_start s0 a) a src)
  else Raise (ValueError "could not broadcast input array").

(** [prediction.transpose((2, 1, 0, 3))] on a four-dimensional array:
    the first and third axes change places. *)
Definition transpose_2103 {A} (p : list (array3 A)) : list (array3 A) :=
  let n0 := length p in
  let n1 := length (default [] (head p)) in
  let n2 := length (default [] (head (default [] (head p)))) in
  (fun k : nat =>
     (fun j : nat =>
        (fun i : nat => default [] (x ← p !! i; y ← x !! j; y !! k)) <$> seq 0 n0)
       <$> seq 0 n1)
    <$> seq 0 n2.

End Numpy.
Import Numpy.

(** ** [gala/watershed.py] *)

Module Watershed.

(** The prediction stack read from the hdf5 file: four axes, the last
    one the channels. *)
Abbreviation stack := (list (array3 float)).

(** The fields of the [OptionNamespace] that [create_labels] reads. *)
Record options := {
  bound_channels : list Z;
  seed_val : float;
  seed_size : Z;
  border_size : Z
}.

(** What a global name can be bound to.  The last four are the objects
    [create_labels] calls or reads an attribute of. *)
Inductive pyobj :=
| PyModule (name : string)
| PyFunction (name : string)
| PyBuiltin (name : string)
| PyStr (s : string)
| PyGrabBoundary (f : stack -> list Z -> M (array3 float))
| PyLabel (f : array3 bool -> result (array3 Z * Z))
| PyMorpho (remove_small_connected_components : array3 Z -> Z -> result (array3 Z))
| PySkmorph (watershed : array3 float -> array3 Z -> result (array3 Z)).

(** The names Python 2.7 resolves when the module's globals have none. *)
Definition builtins : list string :=
  ["abs"; "all"; "any"; "apply"; "basestring"; "bin"; "bool"; "buffer";
   "bytearray"; "bytes"; "callable"; "chr"; "classmethod"; "cmp"; "coerce";
   "compile"; "complex"; "copyright"; "credits"; "delattr"; "dict"; "dir";
   "divmod"; "enumerate"; "eval"; "execfile"; "exit"; "file"; "filter";
   "float"; "format"; "frozenset"; "getattr"; "globals"; "hasattr"; "hash";
   "help"; "hex"; "id"; "input"; "int"; "intern"; "isinstance";
   "issubclass"; "iter"; "len"; "license"; "list"; "locals"; "long"; "map";
   "max"; "memoryview"; "min"; "next"; "object"; "oct"; "open"; "ord";
   "pow"; "print"; "property"; "quit"; "range"; "raw_input"; "reduce";
   "reload"; "repr"; "reversed"; "round"; "set"; "setattr"; "slice";
   "sorted"; "staticmethod"; "str"; "sum"; "super"; "tuple"; "type";
   "unichr"; "unicode"; "vars"; "xrange"; "zip"; "__import__";
   "True"; "False"; "None"; "Ellipsis"; "NotImplemented"; "__debug__";
   "BaseException"; "Exception"; "StandardError"; "ArithmeticError";
   "AssertionError"; "AttributeError"; "EOFError"; "EnvironmentError";
   "IOError"; "ImportError"; "IndexError"; "KeyError"; "KeyboardInterrupt";
   "LookupError"; "MemoryError"; "NameError"; "NotImplementedError";
   "OSError"; "OverflowError"; "RuntimeError"; "StopIteration";
   "SyntaxError"; "SystemError"; "SystemExit"; "TypeError";
   "UnboundLocalError"; "ValueError"; "ZeroDivisionError"; "Warning"].

(** The module's global names once it is imported: lines 1 to 10 bind
    the imported modules, each [def] binds its function. *)
Definition module_globals : gmap string pyobj :=
  list_to_map
    [("os", PyModule "os"); ("sys", PyModule "sys"); ("glob", PyModule "glob");
     ("h5py", PyModule "h5py"); ("numpy", PyModule "numpy");
     ("json", PyModule "json"); ("shutil", PyModule "shutil");
     ("traceback", PyModule "traceback");
     ("imio", PyModule "imio"); ("option_manager", PyModule "option_manager");
     ("app_logger", PyModule "app_logger");
     ("session_manager", PyModule "session_manager"); ("util", PyModule "util");
     ("ilp_file_verify", PyFunction "ilp_file_verify");
     ("temp_dir_verify", PyFunction "temp_dir_verify");
     ("create_watershed_options", PyFunction "create_watershed_options");
     ("create_labels", PyFunction "create_labels");
     ("gen_watershed", PyFunction "gen_watershed");
     ("entrypoint", PyFunction "entrypoint")].

(** The parameters of [create_labels] and the names its body assigns:
    these are its local names, every other name it reads is global. *)
Definition create_labels_locals : list string :=
  ["options"; "master_logger"; "prediction"; "boundary"; "seeds";
   "boundary_cropped"; "seeds_cropped"; "supervoxels_cropped"; "supervoxels"].

(** The names the body of [create_labels] reads besides these, its
    locals and the builtins [str] and [Exception]: lines 67 and 70, 70,
    80, 90 and 103, 94 and 105, 107. *)
Definition create_labels_free_names : list string :=
  ["prediction_file"; "PREDICTIONS_HDF5_GROUP"; "grab_boundary"; "label";
   "morpho"; "skmorph"].

(** Reading a global name: the module's globals, then the builtins,
    then [NameError]. *)
Definition load_global (G : gmap string pyobj) (name : string) : M pyobj :=
  match G !! name with
  | Some o => ret o
  | None => if bool_decide (name ∈ builtins) then ret (PyBuiltin name)
            else raise (NameError name)
  end.

Definition as_str (o : pyobj) : M string :=
  match o with
  | PyStr s => ret s
  | _ => raise (TypeError "expected a string")
  end.

Definition call_grab_boundary (o : pyobj) (p : stack) (ch : list Z) : M (array3 float) :=
  match o with
  | PyGrabBoundary f => f p ch
  | _ => raise (TypeError "object is not callable")
  end.

Definition call_label (o : pyobj) (m : array3 bool) : M (array3 Z * Z) :=
  match o with
  | PyLabel f => lift (f m)
  | _ => raise (TypeError "object is not callable")
  end.

Definition call_remove_small_connected_components (o : pyobj) (a : array3 Z) (n : Z)
  : M (array3 Z) :=
  match o with
  | PyMorpho f => lift (f a n)
  | _ => raise (AttributeError "remove_small_connected_components")
  end.

Definition call_watershed (o : pyobj) (b : array3 float) (s : array3 Z) : M (array3 Z) :=
  match o with
  | PySkmorph f => lift (f b s)
  | _ => raise (AttributeError "watershed")
  end.

(** What the run finds outside the module: the file system behind
    [os.path.isfile], and [imio.read_image_stack]. *)
Record world := {
  isfile : string -> bool;
  read_image_stack : string -> string -> result stack
}.

(** The local variables of [create_labels] when it reaches [return]. *)
Record frame := {
  prediction : stack;
  boundary : array3 float;
  seeds : array3 Z;
  boundary_cropped : array3 float;
  seeds_cropped : array3 Z;
  supervoxels_cropped : array3 Z;
  supervoxels : array3 Z
}.

(** [boundary <= options.seed_val] *)
Definition le_mask (a : array3 float) (t : float) : array3 bool :=
  map3 (fun x => PrimFloat.leb x t) a.

Open Scope py_scope.

(** Lines 66 to 117, statement by statement.  Line 112 gives the copy of
    [seeds] the dtype of the flood's result; labels have one integer type
    here, and line 113 overwrites every cell, so only the shape of
    [seeds] is left of the copy.  Where the labeller and the flood return
    integer types of different width, line 112 changes the last axis of
    the copy; that is not modelled, so what is proved of the paste is
    proved for collaborators with one type of labels. *)
Definition create_labels_frame (G : gmap string pyobj) (W : world) (o : options)
  : M frame :=
  debug (Text "Generating supervoxels") ;;;
  _ <- load_global G "os" ;;
  prediction_file <- load_global G "prediction_file" ;;
  prediction_file <- as_str prediction_file ;;
  (if isfile W prediction_file then ret tt
   else raise (Exception ("Training file not found: " +:+ prediction_file))) ;;;
  _ <- load_global G "imio" ;;
  group <- load_global G "PREDICTIONS_HDF5_GROUP" ;;
  group <- as_str group ;;
  prediction <- lift (read_image_stack W prediction_file group) ;;
  info (Text "Transposed boundary prediction") ;;;
  let prediction := transpose_2103 prediction in
  grab_boundary <- load_global G "grab_boundary" ;;
  boundary <- call_grab_boundary grab_boundary prediction (bound_channels o) ;;
  info (TextShape "Shape of boundary: " (shape boundary)) ;;;
  debug (TextFloat "watershed seed value threshold: " (seed_val o)) ;;;
  label <- load_global G "label" ;;
  labelled <- call_label label (le_mask boundary (seed_val o)) ;;
  let seeds := fst labelled in
  seeds <- (if (0 <? seed_size o)%Z then
              debug (Text "Removing small seeds") ;;;
              morpho <- load_global G "morpho" ;;
              seeds <- call_remove_small_connected_components morpho seeds (seed_size o) ;;
              debug (Text "Finished removing small seeds") ;;;
              ret seeds
            else ret seeds) ;;
  info (Text "Starting watershed") ;;;
  let b := border_size o in
  cropped <- (if (0 <? b)%Z then
                let boundary_cropped := getitem3 b (-b) b (-b) b (-b) boundary in
                label <- load_global G "label" ;;
                labelled <- call_label label (le_mask boundary_cropped (seed_val o)) ;;
                let seeds_cropped := fst labelled in
                seeds_cropped <-
                  (if (0 <? seed_size o)%Z then
                     morpho <- load_global G "morpho" ;;
                     call_remove_small_connected_components morpho seeds_cropped
                                                            (seed_size o)
                   else ret seeds_cropped) ;;
                ret (boundary_cropped, seeds_cropped)
              else ret (boundary, seeds)) ;;
  let boundary_cropped := fst cropped in
  let seeds_cropped := snd cropped in
  skmorph <- load_global G "skmorph" ;;
  supervoxels_cropped <- call_watershed skmorph boundary_cropped seeds_cropped ;;
  supervoxels <- (if (0 <? b)%Z then
                    lift (setitem3 b (-b) b (-b) b (-b) (fill3 0%Z seeds)
                                   supervoxels_cropped)
                  else ret supervoxels_cropped) ;;
  info (Text "Finished watershed") ;;;
  ret {| prediction := prediction; boundary := boundary; seeds := seeds;
         boundary_cropped := boundary_cropped; seeds_cropped := seeds_cropped;
         supervoxels_cropped := supervoxels_cropped; supervoxels := supervoxels |}.

(** [return supervoxels, prediction] *)
Definition create_labels (G : gmap string pyobj) (W : world) (o : options)
  : M (array3 Z * stack) :=
  f <- create_labels_frame G W o ;;
  ret (supervoxels f, prediction f).

(** The globals of a module that, unlike the one in the repository,
    binds the six names [create_labels] reads besides its imports. *)
Definition with_bindings (file group : string)
           (grab : stack -> list Z -> M (array3 float))
           (label : array3 bool -> result (array3 Z * Z))
           (remove_small : array3 Z -> Z -> result (array3 Z))
           (watershed : array3 float -> array3 Z -> result (array3 Z))
  : gmap string pyobj :=
  <["prediction_file" := PyStr file]>
    (<["PREDICTIONS_HDF5_GROUP" := PyStr group]>
       (<["grab_boundary" := PyGrabBoundary grab]>
          (<["label" := PyLabel label]>
             (<["morpho" := PyMorpho remove_small]>
                (<["skmorph" := PySkmorph watershed]> module_globals))))).

Close Scope py_scope.

End Watershed.
Import Watershed.

(** ** The collaborators: labelling, small-component removal, flooding

    [label] is [scipy.ndimage]'s, [morpho] is gala's own module and
    [skmorph] is [skimage.morphology]; none of them is part of
    [watershed.py].  They are written here as the specification describes
    them. *)

Module Lib.

Definition pos : Type := nat * nat * nat.

Definition at3 {A} (a : array3 A) (p : pos) : option A :=
  let '(i, j, k) := p in lookup3 a i j k.

(** [a[i, j, k] = x]; nothing is written outside the array. *)
Definition update3 {A} (a : array3 A) (p : pos) (x : A) : array3 A :=
  let '(i, j, k) := p in alter (alter (<[k := x]>) j) i a.

(** Every index of [a], first axis slowest. *)
Definition indices3 {A} (a : array3 A) : list pos :=
  mjoin (imap (fun i pl =>
    mjoin (imap (fun j row => imap (fun k _ => (i, j, k)) row) pl)) a).

(** The face-adjacent neighbours (6-connectivity); those past the far
    faces are no index of the array and read as [None]. *)
Definition neighbours (p : pos) : list pos :=
  let '(i, j, k) := p in
  match i with S i' => [(i', j, k)] | O => [] end ++ [(S i, j, k)] ++
  match j with S j' => [(i, j', k)] | O => [] end ++ [(i, S j, k)] ++
  match k with S k' => [(i, j, k')] | O => [] end ++ [(i, j, S k)].

(** *** ConnectedComponentLabeler *)

(** One component: the cells of the mask reachable from the cells on
    the stack get [lab]. *)
Fixpoint fill (fuel : nat) (m : array3 bool) (lab : Z) (stack : list pos)
         (L : array3 Z) : array3 Z :=
  match fuel with
  | O => L
  | S fuel =>
      match stack with
      | [] => L
      | p :: stack =>
          match at3 m p, at3 L p with
          | Some true, Some 0%Z =>
              fill fuel m lab (neighbours p ++ stack) (update3 L p lab)
          | _, _ => fill fuel m lab stack L
          end
      end
  end.

Definition label_step (m : array3 bool) (st : array3 Z * Z) (p : pos)
  : array3 Z * Z :=
  let '(L, n) := st in
  match at3 m p, at3 L p with
  | Some true, Some 0%Z =>
      (fill (S (6 * length (flatten m))) m (n + 1)%Z [p] L, (n + 1)%Z)
  | _, _ => st
  end.

(** Modelled from the spec: [label] ([scipy.ndimage.label]) is not part
    of the repository's sources; section 4.1 gives every maximal
    6-connected group of true cells one positive label, zero to every
    false cell, the labels dense and in a deterministic order (here the
    order in which a scan of the array first meets each group).
    Returns the labelled array and the number of labels. *)
Definition label (m : array3 bool) : array3 Z * Z :=
  fold_left (label_step m) (indices3 m) (map3 (fun _ => 0%Z) m, 0%Z).

(** *** SmallComponentFilter *)

(** The number of cells that carry label [l]. *)
Definition component_size (a : array3 Z) (l : Z) : Z :=
  Z.of_nat (length (filter (fun x => x = l) (flatten a))).

(** Modelled from the spec: [morpho.remove_small_connected_components]
    (gala's [morpho] module) is not part of the sources given; section
    4.2 zeroes every component whose cell count is strictly less than
    the threshold and returns the others unchanged, with their labels. *)
Definition remove_small_connected_components (a : array3 Z) (min_size : Z)
  : array3 Z :=
  map3 (fun l => if (component_size a l <? min_size)%Z then 0%Z else l) a.

(** *** WatershedEngine *)

(** A candidate: the boundary value of the target cell, the cell, and
    the label that reaches for it.  The queue is the list of candidates
    in the order they were enqueued. *)
Record entry := { priority : float; target : pos; source : Z }.

(** The candidate of least priority, the first enqueued among equals,
    and the queue without it. *)
Fixpoint pop_min (q : list entry) : option (entry * list entry) :=
  match q with
  | [] => None
  | e :: q' =>
      match pop_min q' with
      | None => Some (e, [])
      | Some (e', rest) =>
          if PrimFloat.ltb (priority e') (priority e)
          then Some (e', e :: rest)
          else Some (e, q')
      end
  end.

(** The unlabelled neighbours of [p], each with its own boundary value
    and the label [lab]. *)
Definition candidates (b : array3 float) (L : array3 Z) (lab : Z) (p : pos)
  : list entry :=
  omap (fun n => match at3 L n, at3 b n with
                 | Some 0%Z, Some v =>
                     Some {| priority := v; target := n; source := lab |}
                 | _, _ => None
                 end) (neighbours p).

(** The queue at the start: around every seeded cell. *)
Definition initial_queue (b : array3 float) (s : array3 Z) : list entry :=
  mjoin ((fun p => match at3 s p with
                    | Some l => if (0 <? l)%Z then candidates b s l p else []
                    | None => []
                    end) <$> indices3 s).

(** Pop the least candidate; label its cell if it has no label yet and
    enqueue the cell's unlabelled neighbours, else drop it. *)
Fixpoint flood (fuel : nat) (b : array3 float) (q : list entry) (L : array3 Z)
  : list entry * array3 Z :=
  match fuel with
  | O => (q, L)
  | S fuel =>
      match pop_min q with
      | None => (q, L)
      | Some (e, rest) =>
          match at3 L (target e) with
          | Some 0%Z =>
              let L' := update3 L (target e) (source e) in
              flood fuel b (rest ++ candidates b L' (source e) (target e)) L'
          | _ => flood fuel b rest L
          end
      end
  end.

Definition unlabelled (L : array3 Z) : nat :=
  length (filter (fun x => x = 0%Z) (flatten L)).

(** Each pop removes a candidate, and a pop that labels a cell adds at
    most six: this many pops empty the queue. *)
Definition flood_fuel (q : list entry) (L : array3 Z) : nat :=
  S (length q + 6 * unlabelled L).

(** Modelled from the spec: [skmorph.watershed]
    ([skimage.morphology.watershed]) is not part of the repository's
    sources; section 4.4 describes the priority flood written here. *)
Definition watershed (b : array3 float) (s : array3 Z) : array3 Z :=
  let q := initial_queue b s in
  snd (flood (flood_fuel q s) b q s).

(** *** SeedGenerator, as section 4.3 words it: the mask of the cells at
    or below the threshold, labelled, and filtered when a positive seed
    size is configured. *)
Definition SeedGenerator (t : float) (size : Z) (b : array3 float) : array3 Z :=
  let s := fst (label (le_mask b t)) in
  if (0 <? size)%Z then remove_small_connected_components s size else s.

(** The globals with the six names bound to these collaborators. *)
Definition globals (file group : string) (grab : stack -> list Z -> M (array3 float))
  : gmap string pyobj :=
  with_bindings file group grab
                (fun m => Return (label m))
                (fun a n => Return (remove_small_connected_components a n))
                (fun b s => Return (watershed b s)).

End Lib.
Import Lib.

(** ** The seed computation of [create_labels]

    Lines 90 to 94 on the full boundary, and lines 103 to 105 again on the
    cropped one: the mask of the cells at or below the threshold is
    labelled, and the small components are removed when [seed_size] is
    positive.  [lbl] and [rs] are whatever [label] and
    [morpho.remove_small_connected_components] are bound to. *)
Definition seeds_from (lbl : array3 bool -> result (array3 Z * Z))
           (rs : array3 Z -> Z -> result (array3 Z))
           (t : float) (size : Z) (b : array3 float) : result (array3 Z) :=
  match lbl (le_mask b t) with
  | Return r => if (0 <? size)%Z then rs (fst r) size else Return (fst r)
  | Raise e => Raise e
  end.

(** ** The labels of a volume *)

(** The distinct positive labels an array carries, and how many. *)
Definition positive_labels (a : array3 Z) : gset Z :=
  list_to_set (filter (fun l => (0 < l)%Z) (flatten a)).

Definition label_count (a : array3 Z) : nat := size (positive_labels a).

(** ** Small volumes to run the stage on *)

Module Examples.

(** A file system in which every path is a file and every stack read
    is [p]. *)
Definition world_with (p : stack) : world :=
  {| isfile := fun _ => true; read_image_stack := fun _ _ => Return p |}.

(** A [grab_boundary] that takes the first of the bound channels. *)
Definition grab_channel (p : stack) (ch : list Z) : M (array3 float) :=
  ret (map3 (fun c => default 0%float (c !! Z.to_nat (default 0%Z (head ch)))) p).

(** The stack with the single channel [b], stored with its first and
    third axes exchanged as in the file. *)
Definition stack_of (b : array3 float) : stack :=
  transpose_2103 (map3 (fun x => [x]) b).

Definition globals : gmap string pyobj :=
  Lib.globals "STACKED_prediction.h5" "/volume/predictions" grab_channel.

Definition opts (t : float) (size b : Z) : options :=
  {| bound_channels := [0%Z]; seed_val := t; seed_size := size; border_size := b |}.

(** 3 x 3 x 5, zero but for the middle cell: the zeros are one component
    through the border, and two once the border is cut off. *)
Definition ring : array3 float :=
  let z := [0; 0; 0; 0; 0]%float in
  [[z; z; z]; [z; [0; 0; 5; 0; 0]%float; z]; [z; z; z]].

(** 2 x 2 x 2, every cell 5. *)
Definition cube2 : array3 float :=
  let r := [5; 5]%float in [[r; r]; [r; r]].

(** 1 x 1 x 5, a ridge between two basins. *)
Definition ridge : array3 float := [[[0; 3; 2; 1; 0]%float]].

(** The frame a run returned, and the empty frame if it raised. *)
Definition frame_of (r : result frame * logger) : frame :=
  match fst r with
  | Return f => f
  | Raise _ =>
      {| prediction := []; boundary := []; seeds := []; boundary_cropped := [];
         seeds_cropped := []; supervoxels_cropped := []; supervoxels := [] |}
  end.

(** The run of the stage on the boundary volume [b]. *)
Definition run (b : array3 float) (o : options) (lg : logger)
  : result frame * logger :=
  create_labels_frame globals (world_with (stack_of b)) o lg.

End Examples.

(** ** [gala/watershed.py]: the driver around [create_labels] *)

Module Driver.

(** The exceptions of the driver: those of [create_labels], and the
    builtin ones its own statements raise. *)
Inductive exn :=
| Base (e : Py.exn)
| KeyError (key : string)
| IndexError (what : string).

Inductive outcome (A : Type) :=
| Done (a : A)
| Raised (e : exn).
Arguments Done {A} a.
Arguments Raised {A} e.

(** What the driver does to the world outside, in the order it does
    it. *)
Inductive event :=
| MakeTempDir (base : string)
| System (command : string)
| Rmtree (path : string)
| WriteImageStack (path : string)
| NewAppLogger (console : bool) (name : string)
| NewSession (name description : string)
| LoggedError (traceback : exn).

(** The logger handed to the function and the events so far. *)
Record state := { log : logger; trace : list event }.

Definition IO (A : Type) := state -> outcome A * state.

Definition ret {A} (a : A) : IO A := fun st => (Done a, st).
Definition raise {A} (e : exn) : IO A := fun st => (Raised e, st).
Definition bind {A B} (m : IO A) (k : A -> IO B) : IO B :=
  fun st => match m st with
            | (Done a, st') => k a st'
            | (Raised e, st') => (Raised e, st')
            end.

(** A computation on the logger alone, run by the driver. *)
Definition of_M {A} (m : M A) : IO A :=
  fun st => match m (log st) with
            | (Return a, lg) => (Done a, {| log := lg; trace := trace st |})
            | (Raise e, lg) => (Raised (Base e), {| log := lg; trace := trace st |})
            end.

Definition emit (e : event) : IO unit :=
  fun st => (Done tt, {| log := log st; trace := trace st ++ [e] |}).

(** [try: body except Exception, e: handler] (and the same handler for
    [KeyboardInterrupt]). *)
Definition try_except {A} (body : IO A) (handler : exn -> IO A) : IO A :=
  fun st => match body st with
            | (Done a, st') => (Done a, st')
            | (Raised e, st') => handler e st'
            end.

(** [l[i]] on a list. *)
Definition getitem {A} (l : list A) (i : nat) : IO A :=
  match l !! i with
  | Some x => ret x
  | None => raise (IndexError "list index out of range")
  end.

(** *** [str.format] *)

Definition is_digit (c : Ascii.ascii) : bool :=
  (48 <=? Ascii.nat_of_ascii c) && (Ascii.nat_of_ascii c <=? 57).

Fixpoint number_of (s : string) (acc : nat) : option nat :=
  match s with
  | EmptyString => Some acc
  | String c s' =>
      if is_digit c then number_of s' (10 * acc + (Ascii.nat_of_ascii c - 48)) else None
  end.

(** Whether the fields so far were numbered by the formatter ([{}]) or
    by the template ([{0}]). *)
Inductive numbering := Unset | Automatic (next : nat) | Manual.

(** The characters that make a field more than a name or a number:
    attribute and item access, conversion, format specification, nested
    field. *)
Definition in_plain_field (c : Ascii.ascii) : bool :=
  negb (bool_decide (c ∈ ["."; "["; "!"; ":"; "{"]%char)).

(** The value of the field [name]. *)
Definition field_value (name : string) (nb : numbering) (args : list string)
           (kw : gmap string string) : outcome (string * numbering) :=
  let positional (i : nat) (nb' : numbering) :=
    match args !! i with
    | Some v => Done (v, nb')
    | None => Raised (IndexError "tuple index out of range")
    end in
  if bool_decide (name = "") then
    match nb with
    | Manual => Raised (Base (ValueError
                  "cannot switch from manual field specification to automatic field numbering"))
    | Unset => positional 0 (Automatic 1)
    | Automatic n => positional n (Automatic (S n))
    end
  else
    match number_of name 0 with
    | Some i =>
        match nb with
        | Automatic _ => Raised (Base (ValueError
                  "cannot switch from automatic field numbering to manual field specification"))
        | _ => positional i Manual
        end
    | None =>
        match kw !! name with
        | Some v => Done (v, nb)
        | None => Raised (KeyError name)
        end
    end.

Definition prepend (s : string) (r : outcome string) : outcome string :=
  match r with
  | Done t => Done (s +:+ t)
  | Raised e => Raised e
  end.

(** [template.format( *args, **kw)] for templates whose fields are empty,
    a number or a name; [field] is the part of a field read so far.  A
    field with attribute or item access, a conversion or a format
    specification is outside the model and raises [ValueError] here. *)
Fixpoint format_from (s : string) (field : option string) (nb : numbering)
         (args : list string) (kw : gmap string string) : outcome string :=
  match s with
  | EmptyString =>
      match field with
      | None => Done ""
      | Some _ => Raised (Base (ValueError "expected '}' before end of string"))
      end
  | String c s' =>
      match field with
      | None =>
          if Ascii.eqb c "{" then
            match s' with
            | String "{" s'' => prepend "{" (format_from s'' None nb args kw)
            | _ => format_from s' (Some "") nb args kw
            end
          else if Ascii.eqb c "}" then
            match s' with
            | String "}" s'' => prepend "}" (format_from s'' None nb args kw)
            | _ => Raised (Base (ValueError "Single '}' encountered in format string"))
            end
          else prepend (String c "") (format_from s' None nb args kw)
      | Some name =>
          if Ascii.eqb c "}" then
            match field_value name nb args kw with
            | Done (v, nb') => prepend v (format_from s' None nb' args kw)
            | Raised e => Raised e
            end
          else if in_plain_field c
               then format_from s' (Some (name +:+ String c "")) nb args kw
               else Raised (Base (ValueError "field outside the model"))
      end
  end.

Definition format (template : string) (args : list string) (kw : gmap string string)
  : outcome string :=
  format_from template None Unset args kw.


(** *** [os.path.join] of two components (posixpath) *)

Fixpoint ends_with_slash (s : string) : bool :=
  match s with
  | EmptyString => false
  | String c EmptyString => Ascii.eqb c "/"
  | String _ s' => ends_with_slash s'
  end.

Definition path_join (a b : string) : string :=
  match b with
  | String "/" _ => b
  | _ => if bool_decide (a = "") || ends_with_slash a then a +:+ b
         else a +:+ "/" +:+ b
  end.

Definition dquote : string := String (ascii_of_nat 34) "".
Definition newline : string := String (ascii_of_nat 10) "".

(** *** [gen_watershed] *)

(** The fields of the [OptionNamespace] that [gen_watershed] reads, and
    those [create_labels] reads of the same object. *)
Record session_options := {
  border : Z;
  bbox1 : list Z;
  bbox2 : list Z;
  classifier : string;
  temp_dir : option string;
  datasrc : string;
  stage : options
}.

(** What the driver calls outside the module: [util.make_temp_dir],
    [os.system], [shutil.rmtree], [imio.write_image_stack],
    [app_logger.AppLogger], [session_manager.Session], and a call of a
    module-level function bound to an object the model knows nothing
    about. *)
Record services := {
  make_temp_dir : string -> outcome string;
  system : string -> Z;
  rmtree : string -> outcome unit;
  write_image_stack : pyobj -> string -> outcome unit;
  AppLogger : bool -> string -> outcome unit;
  Session : string -> string -> pyobj -> outcome (string * session_options);
  call_function : pyobj -> string -> session_options -> outcome unit
}.

Definition lift {A} (r : outcome A) : IO A := fun st => (r, st).

(** The literal of lines 153 to 161: adjacent string literals are one
    literal, and [format] is called on the whole of it. *)
Definition ilastik_template : string :=
  "ilastik_headless" +:+
  " --cutout_subregion={coords}" +:+
  " --preconvert_stacks" +:+
  " --project={project_file}" +:+
  " --output_axis_order=txyzc" +:+
  " --output_format=hdf5" +:+
  " --output_filename_format={pixel_prob_filename}" +:+
  " --output_internal_path=/volume/predictions" +:+
  "".

Declare Scope io_scope.
Delimit Scope io_scope with io.
Notation "x <- m ;; k" := (bind m (fun x => k))
  (at level 100, m at next level, right associativity) : io_scope.
Notation "m ;;; k" := (bind m (fun _ => k))
  (at level 100, right associativity) : io_scope.
Open Scope io_scope.

(** Lines 143 to 180. *)
Definition gen_watershed (G : gmap string pyobj) (W : world) (S : services)
           (session_location : string) (o : session_options) : IO string :=
  of_M (info (Text "Generating Pixel Probabilities")) ;;;
  let border2 := (border o + 10)%Z in
  c02 <- getitem (bbox1 o) 2 ;;
  c01 <- getitem (bbox1 o) 1 ;;
  c00 <- getitem (bbox1 o) 0 ;;
  let coord0 := ((c02 - border2)%Z, (c01 - border2)%Z, (c00 - border2)%Z, 0%Z) in
  c12 <- getitem (bbox2 o) 2 ;;
  c11 <- getitem (bbox2 o) 1 ;;
  c10 <- getitem (bbox2 o) 0 ;;
  let coord1 := ((c12 + border2)%Z, (c11 + border2)%Z, (c10 + border2)%Z, 0%Z) in
  let coords := [coord0; coord1] in
  of_M (info (Text "Running Ilastik in headless mode")) ;;;
  _ <- of_M (load_global G "os") ;;
  let pixel_prob_filename := path_join session_location "STACKED_prediction.h5" in
  ilastik_command <-
    lift (format ilastik_template []
                 (<["project_file" := classifier o]>
                    (<["pixel_prob_filename" := pixel_prob_filename]> ∅))) ;;
  with_tmp <-
    match temp_dir o with
    | Some base =>
        _ <- of_M (load_global G "util") ;;
        emit (MakeTempDir base) ;;;
        tmp <- lift (make_temp_dir S base) ;;
        option_text <- lift (format " --sys_tmp_dir={}" [base] ∅) ;;
        ret (ilastik_command +:+ option_text, Some tmp)
    | None => ret (ilastik_command, None)
    end ;;
  let ilastik_command :=
    fst with_tmp +:+ " " +:+ dquote +:+ "dvid://" +:+ datasrc o +:+ dquote in
  of_M (info (Text ("Executing ilastik headless command for pixel classification:"
                      +:+ newline +:+ ilastik_command))) ;;;
  _ <- of_M (load_global G "os") ;;
  emit (System ilastik_command) ;;;
  match snd with_tmp with
  | Some tmp =>
      _ <- of_M (load_global G "shutil") ;;
      emit (Rmtree tmp) ;;;
      lift (rmtree S tmp)
  | None => ret tt
  end ;;;
  _ <- of_M (load_global G "create_labels") ;;
  labels <- of_M (create_labels G W (stage o)) ;;
  _ <- of_M (load_global G "imio") ;;
  supervoxels <- of_M (load_global G "supervoxels") ;;
  emit (WriteImageStack (session_location +:+ "/" +:+ "supervoxels.h5")) ;;;
  lift (write_image_stack S supervoxels
                          (session_location +:+ "/" +:+ "supervoxels.h5")) ;;;
  ret pixel_prob_filename.

(** *** [entrypoint] *)

(** Lines 183 to 194.  The logger is the one [AppLogger] makes; what
    [master_logger.error] is given is kept as the exception whose
    traceback it is. *)
Definition entrypoint (G : gmap string pyobj) (S : services) (argv : list string)
  : IO unit :=
  _ <- of_M (load_global G "app_logger") ;;
  emit (NewAppLogger false "gen-pixel") ;;;
  lift (AppLogger S false "gen-pixel") ;;;
  try_except
    (_ <- of_M (load_global G "session_manager") ;;
     create_pixel_options <- of_M (load_global G "create_pixel_options") ;;
     emit (NewSession "gen-pixel" "Pixel classification wrapper for Ilastik") ;;;
     session <- lift (Session S "gen-pixel" "Pixel classification wrapper for Ilastik"
                              create_pixel_options) ;;
     gen_watershed_options <- of_M (load_global G "gen_watershed_options") ;;
     lift (call_function S gen_watershed_options (fst session) (snd session)))
    (fun e =>
       _ <- of_M (load_global G "traceback") ;;
       emit (LoggedError e)).

Close Scope io_scope.

(** Services that succeed, and the options of a 50 x 50 x 50 box. *)
Definition services_ok : services :=
  {| make_temp_dir := fun base => Done (base +:+ "/tmp0");
     system := fun _ => 0%Z;
     rmtree := fun _ => Done tt;
     write_image_stack := fun _ _ => Done tt;
     AppLogger := fun _ _ => Done tt;
     Session := fun _ _ _ =>
       Done ("session",
             {| border := 5; bbox1 := [0; 0; 0]%Z; bbox2 := [50; 50; 50]%Z;
                classifier := "pixel.ilp"; temp_dir := Some "/scratch";
                datasrc := "emdata/grayscale";
                stage := {| bound_channels := [0%Z]; seed_val := 0; seed_size := 5;
                            border_size := 5 |} |});
     call_function := fun _ _ _ => Done tt |}.

Definition box_options (b1 b2 : list Z) : session_options :=
  {| border := 5; bbox1 := b1; bbox2 := b2;
     classifier := "pixel.ilp"; temp_dir := Some "/scratch";
     datasrc := "emdata/grayscale";
     stage := {| bound_channels := [0%Z]; seed_val := 0; seed_size := 5;
                 border_size := 5 |} |}.

End Driver.

(** ** [gala/viz.py] *)

Module Viz.

Inductive exn :=
| IndexError (what : string)
| UnboundLocalError (name : string)
| ValueError (what : string).

Inductive res (A : Type) :=
| Ok (a : A)
| Err (e : exn).
Arguments Ok {A} a.
Arguments Err {A} e.

(** *** numpy on raveled arrays

    An array is the list of its cells in C order; a function that pairs
    the cells of two arrays of one shape, as [draw_seg] and [plot_vi] do,
    does the same on the two lists. *)

(** [np.unique]: the distinct values, ascending. *)
Fixpoint insert_unique (x : Z) (l : list Z) : list Z :=
  match l with
  | [] => [x]
  | y :: l' =>
      if (x <? y)%Z then x :: l
      else if (x =? y)%Z then l
           else y :: insert_unique x l'
  end.

Definition unique (l : list Z) : list Z := foldr insert_unique [] l.

(** [m.nonzero()] of a boolean array: the indices of its true cells,
    ascending. *)
Fixpoint nonzero_from (i : nat) (m : list bool) : list nat :=
  match m with
  | [] => []
  | b :: m' => (if b then [i] else []) ++ nonzero_from (S i) m'
  end.

Definition nonzero (m : list bool) : list nat := nonzero_from 0 m.

(** [seg == u] *)
Definition eq_mask (seg : list Z) (u : Z) : list bool :=
  (fun x => (x =? u)%Z) <$> seg.

(** [a[idx]] for an index array: the cells at the indices, in their
    order; an index past the end raises. *)
Definition take_at {V} (a : list V) (idx : list nat) : res (list V) :=
  match mapM (fun i => a !! i) idx with
  | Some vs => Ok vs
  | None => Err (IndexError "index is out of bounds")
  end.

(** [a[idx] = c] *)
Definition put_at {V} (a : list V) (idx : list nat) (c : V) : list V :=
  foldr (fun i a' => <[i := c]> a') a idx.

(** *** [draw_seg] *)

(** The cells of [im] that carry the label [u] in [seg], in the order
    of the array. *)
Definition segment {V} (seg : list Z) (im : list V) (u : Z) : list V :=
  snd <$> filter (fun p => fst p = u) (zip seg im).

(** The labels that get a colour: all of them, but for the least one
    when some cell is labelled zero (lines 147 to 149). *)
Definition coloured_labels (seg : list Z) : list Z :=
  let labels := unique seg in
  if existsb (fun x => (x =? 0)%Z) seg then drop 1 labels else labels.

Section DrawSeg.
(** A cell of the image (a grey value or the vector of its channels),
    the zero of [np.zeros_like] and [mean(axis=0)] over the cells picked
    out of the image, stored back with the image's type. *)
Context {V : Type} (zero : V) (mean : list V -> V).

Definition draw_step (seg : list Z) (im : list V) (out : res (list V)) (u : Z)
  : res (list V) :=
  match out with
  | Err e => Err e
  | Ok out =>
      let mask := nonzero (eq_mask seg u) in
      match take_at im mask with
      | Err e => Err e
      | Ok cells => Ok (put_at out mask (mean cells))
      end
  end.

(** Lines 146 to 154. *)
Definition draw_seg (seg : list Z) (im : list V) : res (list V) :=
  let out := replicate (length im) zero in
  let labels := unique seg in
  let labels := if existsb (fun x => (x =? 0)%Z) seg then drop 1 labels else labels in
  fold_left (draw_step seg im) labels (Ok out).

End DrawSeg.

(** A mean to run [draw_seg] with, for an image of an integer type:
    numpy takes the mean in float64 and the store into [out] drops its
    fraction, rounding toward zero (for grey values whose sum float64
    holds exactly). *)
Definition int_mean (l : list Z) : Z :=
  Z.quot (foldr Z.add 0%Z l) (Z.of_nat (length l)).

(** *** Calls into matplotlib

    What a function draws is the list of the calls it makes into
    matplotlib, in their order; a call into matplotlib is taken to
    return.  An image is kept as it is given ([I]). *)

(** The axes a call draws on: those of the last [plt.subplots()], a
    subplot added to the figure, or axes the caller passed in. *)
Inductive axes (A : Type) :=
| Fresh
| Added (rows cols index : nat)
| Passed (a : A).
Arguments Fresh {A}.
Arguments Added {A} rows cols index.
Arguments Passed {A} a.

Inductive call (I A : Type) :=
| Figure (num : option Z)
| Subplots
| Subplot (rows cols index : nat)
| AddSubplot (rows cols index : nat)
| Imshow (on : axes A) (cmap : option string) (im : I)
| ImshowRandom (on : axes A) (colours : Z) (im : I)
| SetTitle (on : axes A) (title : string)
| Printed (text : string)
| Plot (xs : list nat) (ys : list float)
| Xlabel (text : string)
| Ylabel (text : string).
Arguments Figure {I A} num.
Arguments Subplots {I A}.
Arguments Subplot {I A} rows cols index.
Arguments AddSubplot {I A} rows cols index.
Arguments Imshow {I A} on cmap im.
Arguments ImshowRandom {I A} on colours im.
Arguments SetTitle {I A} on title.
Arguments Printed {I A} text.
Arguments Plot {I A} xs ys.
Arguments Xlabel {I A} text.
Arguments Ylabel {I A} text.

(** A function that draws: the calls it made, and what it returned or
    raised. *)
Definition drawing (I A R : Type) : Type := list (call I A) * res R.

Definition ret {I A R} (x : R) : drawing I A R := ([], Ok x).
Definition raise {I A R} (e : exn) : drawing I A R := ([], Err e).
Definition bind {I A R S} (m : drawing I A R) (k : R -> drawing I A S)
  : drawing I A S :=
  match m with
  | (calls, Err e) => (calls, Err e)
  | (calls, Ok x) => let '(more, r) := k x in (calls ++ more, r)
  end.
Definition lift {I A R} (r : res R) : drawing I A R := ([], r).
Definition do {I A} (c : call I A) : drawing I A unit := ([c], Ok tt).

Declare Scope viz_scope.
Delimit Scope viz_scope with viz.
Notation "x <- m ;; k" := (bind m (fun x => k))
  (at level 100, m at next level, right associativity) : viz_scope.
Notation "m ;;; k" := (bind m (fun _ => k))
  (at level 100, right associativity) : viz_scope.
Open Scope viz_scope.

Section Showing.
(** [ceil(np.max(im))] and [np.rollaxis(a, axis)[z]], or what they
    raise.  For an integer [z] the latter is a slice of the volume, an
    image [imshow] takes; for [z = None], the default, it is the volume
    with one axis more, which [imshow] refuses with a [TypeError] that
    the calls recorded here do not show. *)
Context {I A : Type}
        (ceil_max : I -> res Z)
        (roll_slice : I -> Z -> option Z -> res I).

(** Lines 25 and 26, 43 and 44, 63 and 64. *)
Definition on_axis (axis : option (axes A)) : drawing I A (axes A) :=
  match axis with
  | None => do Subplots ;;; ret Fresh
  | Some ax => ret ax
  end.

Definition imshow_grey (im : I) (axis : option (axes A)) : drawing I A unit :=
  ax <- on_axis axis ;;
  do (Imshow ax (Some "gray") im).

Definition imshow_magma (im : I) (axis : option (axes A)) : drawing I A unit :=
  ax <- on_axis axis ;;
  do (Imshow ax (Some "magma") im).

(** Lines 63 to 75, with [labrandom] left at its default as the callers
    of this file leave it: [np.random.random] is asked for
    [ceil(np.max(im))] colours and refuses a negative number of them; the
    colours themselves are not computed. *)
Definition imshow_rand (im : I) (axis : option (axes A)) : drawing I A unit :=
  ax <- on_axis axis ;;
  n <- lift (ceil_max im) ;;
  if (n <? 0)%Z then raise (ValueError "negative dimensions are not allowed")
  else do (ImshowRandom ax n im).

(** *** [show_multiple_images] *)

(** The body of the loop of lines 100 to 114 for the image [i]: the axes
    it drew on, or [None] where the function returns [None] at line
    113. *)
Definition show_one (number_of_im : nat) (axes_given : option (list A))
           (image_type : string) (i : nat) (im : I) : drawing I A (option (axes A)) :=
  ax <- match axes_given with
        | None =>
            do (AddSubplot 1 number_of_im (i + 1)) ;;;
            ret (Added 1 number_of_im (i + 1))
        | Some given =>
            match given !! i with
            | Some a => ret (Passed a)
            | None => raise (IndexError "list index out of range")
            end
        end ;;
  shown <- (if bool_decide (image_type = "grey") || bool_decide (image_type = "gray")
            then imshow_grey im (Some ax) ;;; ret true
            else if bool_decide (image_type = "magma")
            then imshow_magma im (Some ax) ;;; ret true
            else if bool_decide (image_type = "rand")
            then imshow_rand im (Some ax) ;;; ret true
            else if bool_decide (image_type = "raw")
            then do (Imshow ax None im) ;;; ret true
            else do (Printed "not a valid image type.") ;;; ret false) ;;
  if shown : bool
  then do (SetTitle ax ("Image number " +:+ pretty (i + 1) +:+ " with a "
                          +:+ image_type +:+ " colormap.")) ;;;
       ret (Some ax)
  else ret None.

(** The loop of lines 100 to 115 from the image [i] on; [ax] is the
    local of that name, unbound before the first pass. *)
Fixpoint show_loop (number_of_im : nat) (axes_given : option (list A))
         (image_type : string) (i : nat) (images : list I) (ax : option (axes A))
  : drawing I A (option (axes A)) :=
  match images with
  | [] =>
      match ax with
      | Some a => ret (Some a)
      | None => raise (UnboundLocalError "ax")
      end
  | im :: rest =>
      r <- show_one number_of_im axes_given image_type i im ;;
      match r with
      | None => ret None
      | Some a => show_loop number_of_im axes_given image_type (S i) rest (Some a)
      end
  end.

(** Lines 98 to 115. *)
Definition show_multiple_images (images : list I) (axes_given : option (list A))
           (image_type : string) : drawing I A (option (axes A)) :=
  let number_of_im := length images in
  do (Figure None) ;;;
  show_loop number_of_im axes_given image_type 0 images None.

(** *** [display_3d_segmentations] *)

(** [itertools.combinations_with_replacement(l, 2)] *)
Fixpoint combinations_with_replacement (l : list nat) : list (nat * nat) :=
  match l with
  | [] => []
  | x :: l' => (pair x <$> l) ++ combinations_with_replacement l'
  end.

(** Lines 187 to 192: the first of the candidate arrangements with room
    for the plots; [[...][0]] raises when there is none. *)
Definition plot_arrangement (numplots : nat) : res (nat * nat) :=
  let candidate_plot_arrangements := combinations_with_replacement (seq 1 4) in
  match filter (fun p => numplots <= fst p * snd p) candidate_plot_arrangements with
  | p :: _ => Ok p
  | [] => Err (IndexError "list index out of range")
  end.

(** The loop of lines 203 to 205, over what is left of
    [enumerate(range(current_subplot, numplots + 1))]. *)
Fixpoint show_segmentations (rows cols : nat) (segs : list I) (axis : Z) (z : option Z)
         (i : nat) (js : list nat) : drawing I A unit :=
  match js with
  | [] => ret tt
  | j :: js' =>
      do (Subplot rows cols j) ;;;
      seg <- match segs !! i with
             | Some seg => ret seg
             | None => raise (IndexError "list index out of range")
             end ;;
      slice <- lift (roll_slice seg axis z) ;;
      imshow_rand slice None ;;;
      show_segmentations rows cols segs axis z (S i) js'
  end.

(** Lines 182 to 206. *)
Definition display_3d_segmentations (segs : list I) (image probability_map : option I)
           (axis : Z) (z : option Z) (fignum : option Z) : drawing I A unit :=
  let numplots := length segs in
  let numplots := match image with Some _ => numplots + 1 | None => numplots end in
  let numplots := match probability_map with Some _ => numplots + 1 | None => numplots end in
  plot_arrangement <- lift (plot_arrangement numplots) ;;
  let '(rows, cols) := plot_arrangement : nat * nat in
  do (Figure fignum) ;;;
  let current_subplot := 1 in
  current_subplot <- match image with
                     | Some image =>
                         do (Subplot rows cols current_subplot) ;;;
                         slice <- lift (roll_slice image axis z) ;;
                         imshow_grey slice None ;;;
                         ret (current_subplot + 1)
                     | None => ret current_subplot
                     end ;;
  current_subplot <- match probability_map with
                     | Some probability_map =>
                         do (Subplot rows cols current_subplot) ;;;
                         slice <- lift (roll_slice probability_map axis z) ;;
                         imshow_magma slice None ;;;
                         ret (current_subplot + 1)
                     | None => ret current_subplot
                     end ;;
  show_segmentations rows cols segs axis z 0
                     (seq current_subplot (numplots + 1 - current_subplot)).

End Showing.

(** *** What the calls of a run look like *)

(** The colour map an image of a type other than rand is shown with
    (lines 27, 45 and 110). *)
Definition colormap (image_type : string) : option string :=
  if bool_decide (image_type = "raw") then None
  else if bool_decide (image_type = "magma") then Some "magma"
       else Some "gray".

(** An image of [show_multiple_images] shown on its axes and titled. *)
Definition shown_calls {I A} (ax : axes A) (image_type : string) (i : nat) (im : I)
  : list (call I A) :=
  [Imshow ax (colormap image_type) im;
   SetTitle ax ("Image number " +:+ pretty (i + 1) +:+ " with a "
                  +:+ image_type +:+ " colormap.")].

(** One plot of [display_3d_segmentations]: the subplot asked for, the
    figure [imshow_grey], [imshow_magma] or [imshow_rand] opens for want
    of an axis, and the image shown there. *)
Definition plot_calls {I A} (rows cols : nat) (j : nat) (shown : call I A)
  : list (call I A) :=
  [Subplot rows cols j; Subplots; shown].

(** Line 191 checked for one number of plots: the arrangement has room,
    is a candidate, and no candidate with room has fewer cells. *)
Definition arrangement_checked (numplots : nat) : bool :=
  match plot_arrangement numplots with
  | Err _ => false
  | Ok (rows, cols) =>
      (numplots <=? rows * cols) && (1 <=? rows) && (rows <=? cols) && (cols <=? 4)
      && forallb (fun p => (fst p * snd p <? numplots) || (rows * cols <=? fst p * snd p))
                 (combinations_with_replacement (seq 1 4))
  end.

(** *** [plot_vi] *)

(** [seg[seg == b] = a] *)
Definition relabel (seg : list Z) (a b : Z) : list Z :=
  (fun x => if (x =? b)%Z then a else x) <$> seg.

(** The segmentation after the merges of a history, and the labels a
    segmentation has. *)
Definition merged (seg : list Z) (history : list (Z * Z)) : list Z :=
  fold_left (fun seg i => relabel seg (fst i) (snd i)) history seg.

Definition labels (seg : list Z) : gset Z := list_to_set seg.

Section PlotVi.
(** The ground truth and [evaluate.vi]. *)
Context {G : Type} (vi : list Z -> G -> float).

(** The body of the loop of lines 233 to 236 for the merge [i]; line 236
    takes the length of the labels less one each. *)
Definition plot_vi_step (gt : G) (st : list Z * list float * list nat) (i : Z * Z)
  : list Z * list float * list nat :=
  let '(seg, v, n) := st in
  let seg := relabel seg (fst i) (snd i) in
  (seg, v ++ [vi seg gt], n ++ [length ((fun x => (x - 1)%Z) <$> unique seg)]).

(** Lines 230 to 241, for the array [seg] that [g.get_segmentation()]
    gave and with [fig] telling whether a figure was passed; the array
    is written in place, and is returned here as the merges leave it. *)
Definition plot_vi {I A} (seg : list Z) (history : list (Z * Z)) (gt : G) (fig : bool)
  : drawing I A (list Z) :=
  let '(seg, v, n) := fold_left (plot_vi_step gt) history (seg, [], []) in
  (if fig then ret tt else do (Figure None)) ;;;
  do (Plot n v) ;;;
  do (Xlabel "Number of segments") ;;;
  do (Ylabel "vi") ;;;
  ret seg.

End PlotVi.

(** *** [add_nats_to_plot] *)

(** An argument that is one value or a list of them
    ([type(x) not in [list, tuple]]). *)
Inductive one_or_many (C : Type) :=
| One (c : C)
| Many (l : list C).
Arguments One {C} c.
Arguments Many {C} l.

Definition as_list {C} (x : one_or_many C) : list C :=
  match x with
  | One c => [c]
  | Many l => l
  end.

(** [it.cycle(l)], as far as a [zip] with [n] items reads it. *)
Definition cycle {C} (n : nat) (l : list C) : list C :=
  take n (mjoin (replicate n l)).

(** [if len(l) < len(ars): l = it.cycle(l)] *)
Definition cycled {C} (n : nat) (l : list C) : list C :=
  if length l <? n then cycle n l else l.

(** [np.flatnonzero(ts < stop)] *)
Definition below (ts : list float) (stop : float) : list nat :=
  nonzero ((fun t => PrimFloat.ltb t stop) <$> ts).

(** A point given to [plt.scatter]. *)
Record point (C M : Type) := { x : float; y : float; c : C; marker : M }.
Arguments x {C M} p.
Arguments y {C M} p.
Arguments c {C M} p.
Arguments marker {C M} p.

Section AddNats.
Context {C M : Type}.

(** Line 426 and the arguments of line 427, for an array [ar] given as
    the list of its rows. *)
Definition natural_point (ar : list (list float)) (ts : list float) (stop : float)
           (colour : C) (m : M) : res (point C M) :=
  match last (below ts stop) with
  | None => Err (IndexError "index -1 is out of bounds for axis 0 with size 0")
  | Some k =>
      match mapM (fun row : list float => row !! k) ar with
      | None => Err (IndexError "index is out of bounds for axis 1")
      | Some nat =>
          match nat !! 0, nat !! 1 with
          | Some x, Some y => Ok {| x := x; y := y; c := colour; marker := m |}
          | _, _ => Err (IndexError "index is out of bounds for axis 0")
          end
      end
  end.

(** The loop of lines 425 to 427: the points scattered, and the
    exception that ended it if one did. *)
Fixpoint scatter_all (items : list (list (list float) * list float * float * C * M))
  : list (point C M) * option exn :=
  match items with
  | [] => ([], None)
  | (ar, ts, stop, colour, m) :: rest =>
      match natural_point ar ts stop colour m with
      | Err e => ([], Some e)
      | Ok p => let '(points, e) := scatter_all rest in (p :: points, e)
      end
  end.

(** Lines 418 to 428. *)
Definition add_nats_to_plot (ars : list (list (list float))) (tss : list (list float))
           (stops : one_or_many float) (colors : one_or_many C)
           (markers : one_or_many M) : list (point C M) * option exn :=
  let colors := cycled (length ars) (as_list colors) in
  let markers := cycled (length ars) (as_list markers) in
  let stops := cycled (length ars) (as_list stops) in
  scatter_all (zip (zip (zip (zip ars tss) stops) colors) markers).

End AddNats.

Close Scope viz_scope.

End Viz.

(** * Facts *)

(** ** The monad *)

Section Monad.
Context {A B : Type}.

Lemma bind_Return (m : M A) (k : A -> M B) lg b lg' :
  bind m k lg = (Return b, lg') ->
  exists a lg1, m lg = (Return a, lg1) /\ k a lg1 = (Return b, lg').
Proof.
  unfold bind. destruct (m lg) as [[a|e] lg1]; intros H.
  - exists a, lg1. split; [reflexivity | exact H].
  - discriminate.
Qed.

Lemma bind_step (m : M A) (k : A -> M B) lg a lg1 :
  m lg = (Return a, lg1) -> bind m k lg = k a lg1.
Proof. unfold bind. intros ->. reflexivity. Qed.

Lemma lift_Return (r : result A) lg a lg' :
  lift r lg = (Return a, lg') -> r = Return a /\ lg' = lg.
Proof. unfold lift. intros H. injection H as -> ->. split; reflexivity. Qed.

Lemma ret_Return (x a : A) lg lg' :
  ret x lg = (Return a, lg') -> a = x /\ lg' = lg.
Proof. unfold ret. intros H. injection H as -> ->. split; reflexivity. Qed.
End Monad.

(** ** Global names *)

Section Names.
Variables (file group : string) (grab : stack -> list Z -> M (array3 float)).
Variable lbl : array3 bool -> result (array3 Z * Z).
Variable rs : array3 Z -> Z -> result (array3 Z).
Variable ws : array3 float -> array3 Z -> result (array3 Z).

Let G := with_bindings file group grab lbl rs ws.

Lemma load_os : load_global G "os" = ret (PyModule "os").
Proof. reflexivity. Qed.
Lemma load_imio : load_global G "imio" = ret (PyModule "imio").
Proof. reflexivity. Qed.
Lemma load_prediction_file : load_global G "prediction_file" = ret (PyStr file).
Proof. reflexivity. Qed.
Lemma load_group : load_global G "PREDICTIONS_HDF5_GROUP" = ret (PyStr group).
Proof. reflexivity. Qed.
Lemma load_grab_boundary : load_global G "grab_boundary" = ret (PyGrabBoundary grab).
Proof. reflexivity. Qed.
Lemma load_label : load_global G "label" = ret (PyLabel lbl).
Proof. reflexivity. Qed.
Lemma load_morpho : load_global G "morpho" = ret (PyMorpho rs).
Proof. reflexivity. Qed.
Lemma load_skmorph : load_global G "skmorph" = ret (PySkmorph ws).
Proof. reflexivity. Qed.
End Names.

(** ** Arrays *)

Section ArrayFacts.
Context {A : Type}.
Implicit Types (a : array3 A) (pl : list (list A)) (row : list A).

Lemma has_shape_iff n0 n1 n2 a :
  has_shape n0 n1 n2 a <->
  length a = n0 /\
  Forall (fun pl => length pl = n1 /\ Forall (fun row => length row = n2) pl) a.
Proof.
  unfold has_shape, has_shapeb.
  rewrite andb_true_iff, Nat.eqb_eq, forallb_forall, Forall_forall.
  split; intros [H0 H]; (split; [exact H0|]); intros pl Hpl.
  - apply list_elem_of_In in Hpl. specialize (H pl Hpl).
    rewrite andb_true_iff, Nat.eqb_eq, forallb_forall in H.
    destruct H as [H1 H2]. split; [exact H1|].
    rewrite Forall_forall. intros row Hrow.
    apply Nat.eqb_eq, H2, list_elem_of_In, Hrow.
  - apply list_elem_of_In in Hpl. destruct (H pl Hpl) as [H1 H2].
    rewrite andb_true_iff, Nat.eqb_eq, forallb_forall. split; [exact H1|].
    intros row Hrow. rewrite Forall_forall in H2.
    apply Nat.eqb_eq, H2, list_elem_of_In, Hrow.
Qed.

Lemma has_shape_lookup n0 n1 n2 a i j k :
  has_shape n0 n1 n2 a -> i < n0 -> j < n1 -> k < n2 ->
  is_Some (lookup3 a i j k).
Proof.
  rewrite has_shape_iff. intros [H0 H] Hi Hj Hk. unfold lookup3.
  destruct (lookup_lt_is_Some_2 a i) as [pl Hpl]; [lia|].
  rewrite Hpl. simpl.
  rewrite Forall_forall in H.
  destruct (H pl) as [H1 H2]; [eapply list_elem_of_lookup_2, Hpl|].
  destruct (lookup_lt_is_Some_2 pl j) as [row Hrow]; [lia|].
  rewrite Hrow. simpl. rewrite Forall_forall in H2.
  apply lookup_lt_is_Some_2.
  rewrite (H2 row); [lia|]. eapply list_elem_of_lookup_2, Hrow.
Qed.

Lemma lookup3_elem_of_flatten a i j k x :
  lookup3 a i j k = Some x -> x ∈ flatten a.
Proof.
  unfold lookup3, flatten. intros H.
  destruct (a !! i) as [pl|] eqn:Hpl; [|discriminate]. simpl in H.
  destruct (pl !! j) as [row|] eqn:Hrow; [|discriminate]. simpl in H.
  apply list_elem_of_join. exists row. split.
  - eapply list_elem_of_lookup_2, H.
  - apply list_elem_of_join. exists pl. split.
    + eapply list_elem_of_lookup_2, Hrow.
    + eapply list_elem_of_lookup_2, Hpl.
Qed.

Lemma elem_of_flatten_lookup3 a x :
  x ∈ flatten a -> exists i j k, lookup3 a i j k = Some x.
Proof.
  unfold flatten, lookup3. intros H.
  apply list_elem_of_join in H as (row & Hx & H).
  apply list_elem_of_join in H as (pl & Hrow & Hpl).
  apply list_elem_of_lookup_1 in Hx as [k Hk].
  apply list_elem_of_lookup_1 in Hrow as [j Hj].
  apply list_elem_of_lookup_1 in Hpl as [i Hi].
  exists i, j, k. rewrite Hi. simpl. rewrite Hj. simpl. exact Hk.
Qed.
End ArrayFacts.

Section Map3.
Context {A B : Type} (f : A -> B).

Lemma lookup3_map3 (a : array3 A) i j k :
  lookup3 (map3 f a) i j k = f <$> lookup3 a i j k.
Proof.
  unfold lookup3, map3. rewrite list_lookup_fmap.
  destruct (a !! i) as [pl|]; [|reflexivity]. simpl.
  rewrite list_lookup_fmap.
  destruct (pl !! j) as [row|]; [|reflexivity]. simpl.
  apply list_lookup_fmap.
Qed.

Lemma flatten_map3 (a : array3 A) : flatten (map3 f a) = f <$> flatten a.
Proof.
  assert (Hj : forall X Y (g : X -> Y) (ls : list (list X)),
             mjoin (fmap (M:=list) (fmap (M:=list) g) ls) = g <$> mjoin ls).
  { intros X Y g ls. induction ls as [|l ls IH]; [reflexivity|].
    simpl. rewrite fmap_app. f_equal. exact IH. }
  unfold flatten, map3. rewrite !Hj. reflexivity.
Qed.

Lemma has_shape_map3 n0 n1 n2 (a : array3 A) :
  has_shape n0 n1 n2 a -> has_shape n0 n1 n2 (map3 f a).
Proof.
  rewrite !has_shape_iff. unfold map3. intros [H0 H].
  split; [rewrite length_fmap; exact H0|].
  apply Forall_fmap. eapply Forall_impl; [exact H|].
  intros pl [H1 H2]. simpl. split; [rewrite length_fmap; exact H1|].
  apply Forall_fmap. eapply Forall_impl; [exact H2|].
  intros row Hrow. simpl. rewrite length_fmap. exact Hrow.
Qed.
End Map3.

(** ** Slices *)

Section Slices.
Context {A : Type}.

Lemma slice_start_border (b : Z) (l : list A) :
  (0 < b)%Z -> slice_start b l = Z.to_nat b `min` length l.
Proof. unfold slice_start, clamp. intros Hb. destruct (Z.ltb_spec b 0); lia. Qed.

Lemma slice_len_border (b : Z) (l : list A) :
  (0 < b)%Z -> slice_len b (- b) l = length l - 2 * Z.to_nat b.
Proof.
  unfold slice_len, clamp. intros Hb.
  destruct (Z.ltb_spec (- b) 0), (Z.ltb_spec b 0); lia.
Qed.

Lemma length_slice (s e : Z) (l : list A) : length (slice s e l) = slice_len s e l.
Proof.
  unfold slice. rewrite length_take, length_drop.
  unfold slice_len, slice_start, clamp.
  destruct (Z.ltb_spec e 0), (Z.ltb_spec s 0); lia.
Qed.

Lemma slice_fits (b : Z) (l : list A) :
  (0 < b)%Z -> slice_start b l + slice_len b (- b) l <= length l.
Proof. intros Hb. rewrite slice_start_border, slice_len_border by exact Hb. lia. Qed.
End Slices.

(** ** Item assignment *)

Section Assign.
Context {A B : Type} (f : A -> B -> A).

Lemma length_assign_from s (l : list A) (src : list B) :
  s + length src <= length l -> length (assign_from f s l src) = length l.
Proof.
  intros H. unfold assign_from.
  rewrite !length_app, length_zip_with, !length_take, !length_drop. lia.
Qed.

Lemma lookup_assign_from_out s (l : list A) (src : list B) i :
  s + length src <= length l -> ~ (s <= i < s + length src) ->
  assign_from f s l src !! i = l !! i.
Proof.
  intros Hfit Hi. unfold assign_from.
  destruct (decide (i < s)) as [Hlt|Hge].
  - rewrite lookup_app_l by (rewrite length_take; lia).
    apply lookup_take_lt, Hlt.
  - rewrite lookup_app_r by (rewrite length_take; lia).
    rewrite length_take.
    rewrite lookup_app_r
      by (rewrite length_zip_with, length_take, length_drop; lia).
    rewrite length_zip_with, length_take, length_drop, lookup_drop.
    f_equal. lia.
Qed.

Lemma lookup_assign_from_in s (l : list A) (src : list B) i x y :
  s + length src <= length l ->
  l !! (s + i) = Some x -> src !! i = Some y ->
  assign_from f s l src !! (s + i) = Some (f x y).
Proof.
  intros Hfit Hx Hy. unfold assign_from.
  pose proof (lookup_lt_Some _ _ _ Hy) as Hi.
  rewrite lookup_app_r by (rewrite length_take; lia).
  rewrite length_take.
  replace (s + i - s `min` length l) with i by lia.
  rewrite lookup_app_l
    by (rewrite length_zip_with, length_take, length_drop; lia).
  rewrite lookup_zip_with, lookup_take_lt, lookup_drop, Hx by exact Hi.
  simpl. rewrite Hy. reflexivity.
Qed.

Lemma assign_from_unchanged s (l : list A) (src : list B) :
  (forall x y, x ∈ l -> y ∈ src -> f x y = x) ->
  assign_from f s l src = l.
Proof.
  intros Hf. unfold assign_from.
  assert (Hz : forall (l1 : list A) (l2 : list B),
             (forall x y, x ∈ l1 -> y ∈ l2 -> f x y = x) ->
             zip_with f l1 l2 = take (length l2) l1).
  { induction l1 as [|x l1 IH]; intros [|y l2] H; simpl; try reflexivity.
    rewrite H by (apply list_elem_of_here). f_equal. apply IH.
    intros x' y' Hx' Hy'. apply H; apply list_elem_of_further; assumption. }
  rewrite Hz.
  - rewrite take_take, Nat.min_id, <- drop_drop, take_drop.
    apply take_drop.
  - intros x y Hx Hy. apply Hf; [|exact Hy].
    apply elem_of_take in Hx as (i & Hx & _). rewrite lookup_drop in Hx.
    eapply list_elem_of_lookup_2, Hx.
Qed.
End Assign.

Section AssignForall.
Context {A B : Type} (f : A -> B -> A).

Lemma Forall_assign_from (P : A -> Prop) (Q : B -> Prop) s (l : list A) (src : list B) :
  Forall P l -> Forall Q src -> (forall x y, P x -> Q y -> P (f x y)) ->
  Forall P (assign_from f s l src).
Proof.
  intros Hl Hsrc Hf. unfold assign_from.
  apply Forall_app. split; [apply Forall_take, Hl|].
  apply Forall_app. split; [|apply Forall_drop, Hl].
  apply Forall_lookup. intros i z Hz.
  apply lookup_zip_with_Some in Hz as (x & y & -> & Hx & Hy).
  rewrite Forall_lookup in Hsrc.
  apply Hf; [|eapply Hsrc, Hy].
  apply lookup_take_Some in Hx as [Hx _]. rewrite lookup_drop in Hx.
  rewrite Forall_lookup in Hl. eapply Hl, Hx.
Qed.
End AssignForall.

Section SetItem.
Context {A : Type}.
Implicit Types (a src r : array3 A).

Lemma head_plane_length n0 n1 n2 a :
  has_shape n0 n1 n2 a ->
  length (default [] (head a)) <= n1 /\
  (0 < n0 -> length (default [] (head a)) = n1).
Proof.
  rewrite has_shape_iff. intros [H0 H]. destruct a as [|pl a]; simpl in *.
  - split; lia.
  - apply Forall_cons in H as [[H1 _] _]. split; lia.
Qed.

Lemma head_row_length n0 n1 n2 a :
  has_shape n0 n1 n2 a ->
  length (default [] (head (default [] (head a)))) <= n2 /\
  (0 < n0 -> 0 < n1 -> length (default [] (head (default [] (head a)))) = n2).
Proof.
  rewrite has_shape_iff. intros [H0 H]. destruct a as [|pl a]; simpl in *.
  - split; lia.
  - apply Forall_cons in H as [[H1 H2] _]. destruct pl as [|row pl]; simpl in *.
    + split; lia.
    + apply Forall_cons in H2 as [H2 _]. split; lia.
Qed.

Lemma setitem3_border (b : Z) n0 n1 n2 a src r :
  (0 < b)%Z -> has_shape n0 n1 n2 a ->
  setitem3 b (- b) b (- b) b (- b) a src = Return r ->
  let B := Z.to_nat b in
  has_shape n0 n1 n2 r /\
  has_shape (n0 - 2 * B) (if decide (0 < n0) then n1 - 2 * B else 0)
            (if decide (0 < n0 /\ 0 < n1) then n2 - 2 * B else 0) src /\
  forall i j k, i < n0 -> j < n1 -> k < n2 ->
    lookup3 r i j k =
    if decide ((B <= i /\ i + B < n0) /\ (B <= j /\ j + B < n1) /\
               (B <= k /\ k + B < n2))
    then lookup3 src (i - B) (j - B) (k - B)
    else lookup3 a i j k.
Proof.
  intros Hb Ha Hset B. unfold setitem3 in Hset.
  set (pl0 := default [] (head a)) in *.
  set (row0 := default [] (head pl0)) in *.
  destruct (has_shapeb _ _ _ src) eqn:Hsrc; [|discriminate].
  injection Hset as <-.
  destruct (head_plane_length _ _ _ _ Ha) as [Hp1 Hp2].
  destruct (head_row_length _ _ _ _ Ha) as [Hr1 Hr2].
  fold pl0 in Hp1, Hp2. fold pl0 row0 in Hr1, Hr2.
  pose proof (slice_fits b a Hb) as F0.
  pose proof (slice_fits b pl0 Hb) as F1.
  pose proof (slice_fits b row0 Hb) as F2.
  pose proof (slice_start_border b a Hb) as S0.
  pose proof (slice_start_border b pl0 Hb) as S1.
  pose proof (slice_start_border b row0 Hb) as S2.
  pose proof (slice_len_border b a Hb) as L0.
  pose proof (slice_len_border b pl0 Hb) as L1.
  pose proof (slice_len_border b row0 Hb) as L2.
  fold B in S0, S1, S2, L0, L1, L2.
  set (s0 := slice_start b a) in *. set (s1 := slice_start b pl0) in *.
  set (s2 := slice_start b row0) in *.
  set (m0 := slice_len b (- b) a) in *. set (m1 := slice_len b (- b) pl0) in *.
  set (m2 := slice_len b (- b) row0) in *.
  change (has_shape m0 m1 m2 src) in Hsrc.
  pose proof Ha as Ha'. pose proof Hsrc as Hsrc'.
  apply has_shape_iff in Ha' as [Ha0 HaF].
  apply has_shape_iff in Hsrc' as [Hs0 HsF].
  split; [|split].
  - apply has_shape_iff. split.
    + rewrite length_assign_from; [exact Ha0 | lia].
    + eapply Forall_assign_from; [exact HaF | exact HsF |].
      intros pl spl [Hpl HplF] [Hspl HsplF]. split.
      * rewrite length_assign_from; [exact Hpl | lia].
      * eapply Forall_assign_from; [exact HplF | exact HsplF |].
        intros row srow Hrow Hsrow. simpl in *.
        rewrite length_assign_from; [exact Hrow | lia].
  - apply has_shape_iff. split; [lia|].
    apply Forall_lookup. intros i spl Hspl.
    pose proof (lookup_lt_Some _ _ _ Hspl) as Hi.
    rewrite Forall_lookup in HsF. destruct (HsF _ _ Hspl) as [Hspl1 HsplF].
    assert (0 < n0) as Hn0 by lia.
    rewrite decide_True by exact Hn0. specialize (Hp2 Hn0).
    split; [lia|].
    apply Forall_lookup. intros j srow Hsrow.
    pose proof (lookup_lt_Some _ _ _ Hsrow) as Hj.
    rewrite Forall_lookup in HsplF. pose proof (HsplF _ _ Hsrow) as Hsrow2.
    simpl in Hsrow2.
    assert (0 < n1) as Hn1 by lia.
    rewrite decide_True by (split; assumption).
    specialize (Hr2 Hn0 Hn1). lia.
  - intros i j k Hi Hj Hk.
    specialize (Hp2 ltac:(lia)). specialize (Hr2 ltac:(lia) ltac:(lia)).
    unfold lookup3.
    destruct (lookup_lt_is_Some_2 a i ltac:(lia)) as [pl Hpl].
    rewrite Forall_lookup in HaF. destruct (HaF _ _ Hpl) as [Hpl1 HplF].
    destruct (lookup_lt_is_Some_2 pl j ltac:(lia)) as [row Hrow].
    rewrite Forall_lookup in HplF. pose proof (HplF _ _ Hrow) as Hrow2.
    simpl in Hrow2.
    destruct (decide (B <= i /\ i + B < n0)) as [Hin0|Hout0].
    + replace i with (s0 + (i - B)) at 1 by lia.
      destruct (lookup_lt_is_Some_2 src (i - B) ltac:(lia)) as [spl Hspl].
      rewrite (lookup_assign_from_in _ s0 a src (i - B) pl spl);
        [| lia | rewrite <- Hpl; f_equal; lia | exact Hspl].
      rewrite Hspl. simpl.
      rewrite Forall_lookup in HsF. destruct (HsF _ _ Hspl) as [Hspl1 HsplF].
      destruct (decide (B <= j /\ j + B < n1)) as [Hin1|Hout1].
      * replace j with (s1 + (j - B)) at 1 by lia.
        destruct (lookup_lt_is_Some_2 spl (j - B) ltac:(lia)) as [srow Hsrow].
        rewrite (lookup_assign_from_in _ s1 pl spl (j - B) row srow);
          [| lia | rewrite <- Hrow; f_equal; lia | exact Hsrow].
        rewrite Hsrow. simpl.
        rewrite Forall_lookup in HsplF. pose proof (HsplF _ _ Hsrow) as Hsrow2.
        simpl in Hsrow2.
        destruct (decide (B <= k /\ k + B < n2)) as [Hin2|Hout2].
        -- rewrite decide_True by tauto.
           replace k with (s2 + (k - B)) at 1 by lia.
           destruct (lookup_lt_is_Some_2 row (s2 + (k - B)) ltac:(lia)) as [x Hx].
           destruct (lookup_lt_is_Some_2 srow (k - B) ltac:(lia)) as [y Hy].
           rewrite (lookup_assign_from_in _ s2 row srow (k - B) x y);
             [| lia | exact Hx | exact Hy].
           rewrite Hy. reflexivity.
        -- rewrite decide_False by tauto.
           rewrite lookup_assign_from_out by lia.
           rewrite Hpl. simpl. rewrite Hrow. reflexivity.
      * rewrite decide_False by tauto.
        rewrite lookup_assign_from_out by lia.
        rewrite Hpl. simpl. reflexivity.
    + rewrite decide_False by tauto.
      rewrite lookup_assign_from_out by lia. reflexivity.
Qed.
End SetItem.

(** ** Cells: reading and writing one *)

Section Cells.
Context {A : Type}.
Implicit Types (a : array3 A) (p q : pos).

Lemma at3_update3_ne a p q x : p <> q -> at3 (update3 a p x) q = at3 a q.
Proof.
  destruct p as [[i j] k], q as [[i' j'] k']. intros Hne.
  unfold at3, update3, lookup3.
  destruct (decide (i = i')) as [<-|Hi].
  - rewrite list_lookup_alter_eq. destruct (a !! i) as [pl|]; [|reflexivity]. simpl.
    destruct (decide (j = j')) as [<-|Hj].
    + rewrite list_lookup_alter_eq. destruct (pl !! j) as [row|]; [|reflexivity].
      simpl. apply list_lookup_insert_ne. congruence.
    + rewrite list_lookup_alter_ne by exact Hj. reflexivity.
  - rewrite list_lookup_alter_ne by exact Hi. reflexivity.
Qed.

Lemma at3_update3_eq a p x : is_Some (at3 a p) -> at3 (update3 a p x) p = Some x.
Proof.
  destruct p as [[i j] k]. unfold at3, update3, lookup3. intros [y Hy].
  rewrite list_lookup_alter_eq. destruct (a !! i) as [pl|]; [|discriminate]. simpl in *.
  rewrite list_lookup_alter_eq. destruct (pl !! j) as [row|]; [|discriminate]. simpl in *.
  apply list_lookup_insert_eq. eapply lookup_lt_Some, Hy.
Qed.

Lemma has_shape_update3 n0 n1 n2 a p x :
  has_shape n0 n1 n2 a -> has_shape n0 n1 n2 (update3 a p x).
Proof.
  destruct p as [[i j] k]. rewrite !has_shape_iff. unfold update3. intros [H0 H].
  split; [rewrite length_alter; exact H0|].
  apply Forall_lookup. intros i' pl' Hpl'. rewrite Forall_lookup in H.
  rewrite list_lookup_alter in Hpl'. destruct (decide (i = i')) as [<-|Hi].
  - destruct (a !! i) as [pl|] eqn:Hpl; [|discriminate]. simpl in Hpl'.
    injection Hpl' as <-. destruct (H _ _ Hpl) as [H1 H2].
    split; [rewrite length_alter; exact H1|].
    apply Forall_lookup. intros j' row' Hrow'. rewrite Forall_lookup in H2.
    rewrite list_lookup_alter in Hrow'. destruct (decide (j = j')) as [<-|Hj].
    + destruct (pl !! j) as [row|] eqn:Hrow; [|discriminate]. simpl in Hrow'.
      injection Hrow' as <-. rewrite length_insert. eapply H2, Hrow.
    + eapply H2, Hrow'.
  - eapply H, Hpl'.
Qed.

Lemma alter_middle {X} (f : X -> X) (l : list X) i y :
  l !! i = Some y -> alter f i l = take i l ++ f y :: drop (S i) l.
Proof.
  revert i. induction l as [|x l IH]; intros [|i] H; try discriminate; simpl in *.
  - injection H as ->. rewrite drop_0. reflexivity.
  - f_equal. apply IH, H.
Qed.

(** Writing a cell takes the old value out of the flattened array and
    puts the new one in. *)
Lemma flatten_update3 a p x y :
  at3 a p = Some y ->
  exists l1 l2, flatten a = l1 ++ y :: l2 /\ flatten (update3 a p x) = l1 ++ x :: l2.
Proof.
  destruct p as [[i j] k]. unfold at3, update3, lookup3, flatten. intros H.
  destruct (a !! i) as [pl|] eqn:Hpl; [|discriminate]. simpl in H.
  destruct (pl !! j) as [row|] eqn:Hrow; [|discriminate]. simpl in H.
  rewrite (alter_middle _ _ _ _ Hpl), (alter_middle _ _ _ _ Hrow).
  rewrite insert_take_drop by (eapply lookup_lt_Some, H).
  exists (mjoin (mjoin (take i a)) ++ mjoin (take j pl) ++ take k row),
         (drop (S k) row ++ mjoin (drop (S j) pl) ++ mjoin (mjoin (drop (S i) a))).
  split.
  - transitivity
      (mjoin (mjoin (take i a ++
                     (take j pl ++ (take k row ++ y :: drop (S k) row)
                           :: drop (S j) pl) :: drop (S i) a))).
    + rewrite (take_drop_middle row k y H), (take_drop_middle pl j row Hrow),
        (take_drop_middle a i pl Hpl). reflexivity.
    + rewrite !join_app. simpl. rewrite !join_app. simpl.
      rewrite <- !app_assoc. reflexivity.
  - rewrite !join_app. simpl. rewrite !join_app. simpl.
    rewrite <- !app_assoc. reflexivity.
Qed.
End Cells.

Lemma unlabelled_update3 (L : array3 Z) p x :
  at3 L p = Some 0%Z -> x <> 0%Z -> S (unlabelled (update3 L p x)) = unlabelled L.
Proof.
  intros H Hx. destruct (flatten_update3 L p x 0%Z H) as (l1 & l2 & E1 & E2).
  unfold unlabelled. rewrite E1, E2, !filter_app, !length_app, !filter_cons.
  destruct (decide (0%Z = 0%Z)); [|congruence].
  destruct (decide (x = 0%Z)); [congruence|]. simpl. lia.
Qed.

(** ** The flood *)

Lemma pop_min_length q e rest : pop_min q = Some (e, rest) -> length q = S (length rest).
Proof.
  revert e rest. induction q as [|e0 q IH]; intros e rest H; [discriminate|].
  simpl in H. destruct (pop_min q) as [[e' rest']|] eqn:Hq.
  - specialize (IH _ _ eq_refl).
    destruct (PrimFloat.ltb _ _); injection H as <- <-; simpl; lia.
  - injection H as <- <-. destruct q; [reflexivity|].
    simpl in Hq. destruct (pop_min q) as [[? ?]|]; [destruct (PrimFloat.ltb _ _)|];
      discriminate.
Qed.

Lemma pop_min_Forall (P : entry -> Prop) q e rest :
  Forall P q -> pop_min q = Some (e, rest) -> P e /\ Forall P rest.
Proof.
  revert e rest. induction q as [|e0 q IH]; intros e rest HP H; [discriminate|].
  apply Forall_cons in HP as [HP0 HP]. simpl in H.
  destruct (pop_min q) as [[e' rest']|] eqn:Hq.
  - destruct (IH _ _ HP eq_refl) as [He' Hrest'].
    destruct (PrimFloat.ltb _ _); injection H as <- <-.
    + split; [exact He' | constructor; assumption].
    + split; assumption.
  - injection H as <- <-. split; [exact HP0 | constructor].
Qed.

Lemma pop_min_nil q : pop_min q = None -> q = [].
Proof.
  destruct q as [|e q]; [reflexivity|]. simpl.
  destruct (pop_min q) as [[? ?]|]; [destruct (PrimFloat.ltb _ _)|]; discriminate.
Qed.

Lemma length_neighbours p : length (neighbours p) <= 6.
Proof. destruct p as [[[|i] [|j]] [|k]]; simpl; lia. Qed.

Lemma length_omap_le {X Y} (f : X -> option Y) (l : list X) :
  length (omap f l) <= length l.
Proof.
  induction l as [|x l IH]; [reflexivity|].
  change (omap f (x :: l)) with (match f x with Some y => y :: omap f l | None => omap f l end).
  destruct (f x); simpl; lia.
Qed.

Lemma length_candidates b L lab p : length (candidates b L lab p) <= 6.
Proof.
  unfold candidates. etransitivity; [apply length_omap_le|]. apply length_neighbours.
Qed.

Lemma candidates_source b L lab p :
  Forall (fun e => source e = lab) (candidates b L lab p).
Proof.
  unfold candidates. apply Forall_forall. intros e He.
  apply list_elem_of_omap in He as (n & _ & He).
  destruct (at3 L n) as [[| |]|]; try discriminate.
  destruct (at3 b n); [|discriminate]. injection He as <-. reflexivity.
Qed.

(** A cell that has a label keeps it through the flood. *)
Lemma flood_keeps_labels fuel b q L p l :
  at3 L p = Some l -> l <> 0%Z -> at3 (snd (flood fuel b q L)) p = Some l.
Proof.
  revert q L. induction fuel as [|fuel IH]; intros q L Hp Hl; [exact Hp|].
  simpl. destruct (pop_min q) as [[e rest]|]; [|exact Hp].
  destruct (at3 L (target e)) as [[| |]|] eqn:Ht; try (apply IH; assumption).
  apply IH; [|exact Hl]. rewrite at3_update3_ne; [exact Hp|].
  intros E. rewrite E in Ht. congruence.
Qed.

Lemma flood_shape fuel b q L n0 n1 n2 :
  has_shape n0 n1 n2 L -> has_shape n0 n1 n2 (snd (flood fuel b q L)).
Proof.
  revert q L. induction fuel as [|fuel IH]; intros q L H; [exact H|].
  simpl. destruct (pop_min q) as [[e rest]|]; [|exact H].
  destruct (at3 L (target e)) as [[| |]|]; try (apply IH; assumption).
  apply IH, has_shape_update3, H.
Qed.

(** With [flood_fuel] the loop stops on the empty queue, not on the
    fuel. *)
Lemma flood_drains fuel b q L :
  Forall (fun e => source e <> 0%Z) q ->
  length q + 6 * unlabelled L < fuel ->
  fst (flood fuel b q L) = [].
Proof.
  revert q L. induction fuel as [|fuel IH]; intros q L Hq Hfuel; [lia|].
  simpl. destruct (pop_min q) as [[e rest]|] eqn:Hpop.
  - pose proof (pop_min_length _ _ _ Hpop) as Hlen.
    destruct (pop_min_Forall _ _ _ _ Hq Hpop) as [He Hrest].
    destruct (at3 L (target e)) as [[| |]|] eqn:Ht; try (apply IH; [assumption|lia]).
    pose proof (unlabelled_update3 L (target e) (source e) Ht He) as Hu.
    apply IH.
    + apply Forall_app. split; [exact Hrest|].
      eapply Forall_impl; [apply candidates_source|].
      intros e' ->. exact He.
    + rewrite length_app.
      pose proof (length_candidates b (update3 L (target e) (source e))
                                    (source e) (target e)). lia.
  - simpl. apply pop_min_nil, Hpop.
Qed.

Lemma initial_queue_source b s : Forall (fun e => source e <> 0%Z) (initial_queue b s).
Proof.
  unfold initial_queue. apply Forall_join, Forall_fmap, Forall_forall.
  intros p _. simpl. destruct (at3 s p) as [l|]; [|constructor].
  destruct (Z.ltb_spec 0 l); [|constructor].
  eapply Forall_impl; [apply candidates_source|]. intros e ->. lia.
Qed.

Lemma watershed_queue_empty b s :
  fst (flood (flood_fuel (initial_queue b s) s) b (initial_queue b s) s) = [].
Proof.
  apply flood_drains; [apply initial_queue_source | unfold flood_fuel; lia].
Qed.

Lemma watershed_shape b s n0 n1 n2 :
  has_shape n0 n1 n2 s -> has_shape n0 n1 n2 (watershed b s).
Proof. apply flood_shape. Qed.

Lemma watershed_keeps_seeds b s p l :
  at3 s p = Some l -> l <> 0%Z -> at3 (watershed b s) p = Some l.
Proof. apply flood_keeps_labels. Qed.

Lemma initial_queue_no_seed b s :
  Forall (fun l => l = 0%Z) (flatten s) -> initial_queue b s = [].
Proof.
  intros H. unfold initial_queue. apply join_nil_2, Forall_fmap, Forall_forall.
  intros [[i j] k] _. simpl. destruct (lookup3 s i j k) as [l|] eqn:Hl; [|reflexivity].
  rewrite Forall_forall in H. rewrite (H l); [reflexivity|].
  eapply lookup3_elem_of_flatten, Hl.
Qed.

Lemma watershed_no_seed b s :
  Forall (fun l => l = 0%Z) (flatten s) -> watershed b s = s.
Proof.
  intros H. unfold watershed. rewrite initial_queue_no_seed by exact H. reflexivity.
Qed.

(** ** Labelling *)

Lemma fill_shape fuel m lab stack L n0 n1 n2 :
  has_shape n0 n1 n2 L -> has_shape n0 n1 n2 (fill fuel m lab stack L).
Proof.
  revert stack L. induction fuel as [|fuel IH]; intros stack L H; [exact H|].
  simpl. destruct stack as [|p stack]; [exact H|].
  destruct (at3 m p) as [[|]|]; try (apply IH, H).
  destruct (at3 L p) as [[| |]|]; try (apply IH, H).
  apply IH, has_shape_update3, H.
Qed.

Lemma fold_left_invariant {X Y} (P : X -> Prop) (f : X -> Y -> X) (l : list Y) (x : X) :
  (forall x y, P x -> P (f x y)) -> P x -> P (fold_left f l x).
Proof.
  intros Hf. revert x. induction l as [|y l IH]; intros x Hx; [exact Hx|].
  simpl. apply IH, Hf, Hx.
Qed.

Lemma label_shape m n0 n1 n2 :
  has_shape n0 n1 n2 m -> has_shape n0 n1 n2 (fst (label m)).
Proof.
  intros H. unfold label.
  apply (fold_left_invariant (fun st => has_shape n0 n1 n2 (fst st))).
  - intros [L n] p HL. unfold label_step. cbn [fst] in HL.
    destruct (at3 m p) as [[|]|]; try exact HL.
    destruct (at3 L p) as [[| |]|]; try exact HL.
    cbn [fst]. apply fill_shape, HL.
  - simpl. apply has_shape_map3, H.
Qed.

(** A mask with no true cell has no component. *)
Lemma label_empty_mask m :
  Forall (fun x => x = false) (flatten m) -> label m = (map3 (fun _ => 0%Z) m, 0%Z).
Proof.
  intros H. unfold label.
  apply (fold_left_invariant (fun st => st = (map3 (fun _ => 0%Z) m, 0%Z)));
    [|reflexivity].
  intros st [[i j] k] ->. unfold label_step. simpl.
  destruct (lookup3 m i j k) as [[|]|] eqn:Hm; try reflexivity.
  rewrite Forall_forall in H.
  pose proof (H _ (lookup3_elem_of_flatten _ _ _ _ _ Hm)). discriminate.
Qed.

Lemma le_mask_none b t :
  Forall (fun x => PrimFloat.leb x t = false) (flatten b) ->
  Forall (fun x => x = false) (flatten (le_mask b t)).
Proof. intros H. unfold le_mask. rewrite flatten_map3. apply Forall_fmap, H. Qed.

Lemma flatten_zeros {X} (a : array3 X) :
  Forall (fun l => l = 0%Z) (flatten (map3 (fun _ => 0%Z) a)).
Proof. rewrite flatten_map3. apply Forall_fmap, Forall_forall. reflexivity. Qed.

(** The fuel of [label_step] is enough: once the fuel covers the stack and
    six pushes for every cell that may still be labelled, more fuel gives
    the same array. *)
Lemma fill_fuel_enough fuel fuel' m lab stack L :
  lab <> 0%Z ->
  length stack + 6 * unlabelled L <= fuel -> fuel <= fuel' ->
  fill fuel' m lab stack L = fill fuel m lab stack L.
Proof.
  intros Hlab. revert fuel' stack L.
  induction fuel as [|fuel IH]; intros fuel' stack L Hm Hle.
  - destruct stack; [|simpl in Hm; lia]. destruct fuel'; reflexivity.
  - destruct fuel' as [|fuel']; [lia|]. simpl.
    destruct stack as [|p stack]; [reflexivity|]. simpl in Hm.
    destruct (at3 m p) as [[|]|]; try (apply IH; lia).
    destruct (at3 L p) as [[| |]|] eqn:HL; try (apply IH; lia).
    pose proof (unlabelled_update3 L p lab HL Hlab).
    pose proof (length_neighbours p).
    apply IH; [rewrite length_app|]; lia.
Qed.

Lemma unlabelled_le (L : array3 Z) : unlabelled L <= length (flatten L).
Proof. apply length_filter. Qed.

Lemma length_flatten_shape {A B} n0 n1 n2 (a : array3 A) (a' : array3 B) :
  has_shape n0 n1 n2 a -> has_shape n0 n1 n2 a' ->
  length (flatten a) = length (flatten a').
Proof.
  assert (Hlen : forall X (x : array3 X), has_shape n0 n1 n2 x ->
                                          length (flatten x) = n0 * (n1 * n2)).
  { intros X x Hx. apply has_shape_iff in Hx as [H0 HF]. subst n0.
    unfold flatten. induction x as [|pl x IH]; [reflexivity|].
    apply Forall_cons in HF as [[H1 H2] HF]. simpl.
    rewrite join_app, length_app, (IH HF). f_equal.
    subst n1. clear -H2. induction pl as [|row pl IH]; [reflexivity|].
    apply Forall_cons in H2 as [H2 HF]. simpl.
    rewrite length_app, (IH HF), H2. reflexivity. }
  intros Ha Ha'. rewrite (Hlen _ _ Ha), (Hlen _ _ Ha'). reflexivity.
Qed.

Lemma label_step_fuel_enough m n0 n1 n2 (L : array3 Z) (n : Z) p fuel' :
  has_shape n0 n1 n2 m -> has_shape n0 n1 n2 L -> (0 <= n)%Z ->
  S (6 * length (flatten m)) <= fuel' ->
  fill fuel' m (n + 1)%Z [p] L = fill (S (6 * length (flatten m))) m (n + 1)%Z [p] L.
Proof.
  intros Hm HL Hn Hfuel. apply fill_fuel_enough; [lia| |exact Hfuel].
  pose proof (unlabelled_le L).
  rewrite (length_flatten_shape _ _ _ _ _ Hm HL). simpl. lia.
Qed.

(** ** Small-component removal *)





Lemma remove_small_shape a t n0 n1 n2 :
  has_shape n0 n1 n2 a -> has_shape n0 n1 n2 (remove_small_connected_components a t).
Proof. apply has_shape_map3. Qed.

Lemma remove_small_zeros a t :
  Forall (fun l => l = 0%Z) (flatten a) ->
  Forall (fun l => l = 0%Z) (flatten (remove_small_connected_components a t)).
Proof.
  intros H. unfold remove_small_connected_components. rewrite flatten_map3.
  apply Forall_fmap. eapply Forall_impl; [exact H|]. intros l ->. simpl.
  destruct (_ <? _)%Z; reflexivity.
Qed.

(** ** What a returning run of [create_labels] went through *)

Ltac bind_inv H :=
  let a := fresh "a" in let lg := fresh "lg" in let Hm := fresh "Hm" in
  apply bind_Return in H; destruct H as (a & lg & Hm & H).

Section Run.
Variables (file group : string) (grab : stack -> list Z -> M (array3 float)).
Variable lbl : array3 bool -> result (array3 Z * Z).
Variable rs : array3 Z -> Z -> result (array3 Z).
Variable ws : array3 float -> array3 Z -> result (array3 Z).
Let G := with_bindings file group grab lbl rs ws.

Lemma create_labels_frame_inv W o lg f lg' :
  create_labels_frame G W o lg = (Return f, lg') ->
  let b := border_size o in
  exists p lgA lgB,
    isfile W file = true /\
    read_image_stack W file group = Return p /\
    prediction f = transpose_2103 p /\
    grab (transpose_2103 p) (bound_channels o) lgA = (Return (boundary f), lgB) /\
    seeds_from lbl rs (seed_val o) (seed_size o) (boundary f) = Return (seeds f) /\
    (if (0 <? b)%Z
     then boundary_cropped f = getitem3 b (-b) b (-b) b (-b) (boundary f) /\
          seeds_from lbl rs (seed_val o) (seed_size o) (boundary_cropped f)
          = Return (seeds_cropped f)
     else boundary_cropped f = boundary f /\ seeds_cropped f = seeds f) /\
    ws (boundary_cropped f) (seeds_cropped f) = Return (supervoxels_cropped f) /\
    (if (0 <? b)%Z
     then setitem3 b (-b) b (-b) b (-b) (fill3 0%Z (seeds f)) (supervoxels_cropped f)
          = Return (supervoxels f)
     else supervoxels f = supervoxels_cropped f).
Proof.
  intros H b. unfold create_labels_frame in H.
  bind_inv H. clear Hm.
  bind_inv H. clear Hm.
  bind_inv H. unfold G in Hm. rewrite load_prediction_file in Hm.
  apply ret_Return in Hm as [-> ->].
  bind_inv H. apply ret_Return in Hm as [-> ->].
  bind_inv H. destruct (isfile W file) eqn:Hfile; [|discriminate]. clear Hm.
  bind_inv H. clear Hm.
  bind_inv H. unfold G in Hm. rewrite load_group in Hm. apply ret_Return in Hm as [-> ->].
  bind_inv H. apply ret_Return in Hm as [-> ->].
  bind_inv H. apply lift_Return in Hm as [Hread ->].
  bind_inv H. clear Hm.
  bind_inv H. unfold G in Hm. rewrite load_grab_boundary in Hm. apply ret_Return in Hm as [-> ->].
  bind_inv H. simpl in Hm. rename Hm into Hgrab.
  bind_inv H. clear Hm.
  bind_inv H. clear Hm.
  bind_inv H. unfold G in Hm. rewrite load_label in Hm. apply ret_Return in Hm as [-> ->].
  bind_inv H. simpl in Hm. apply lift_Return in Hm as [Hlbl ->].
  bind_inv H. rename Hm into Hseeds.
  bind_inv H. clear Hm.
  bind_inv H. rename Hm into Hcrop.
  bind_inv H. unfold G in Hm. rewrite load_skmorph in Hm. apply ret_Return in Hm as [-> ->].
  bind_inv H. simpl in Hm. apply lift_Return in Hm as [Hws ->].
  bind_inv H. rename Hm into Hsv.
  bind_inv H. clear Hm.
  apply ret_Return in H as [-> ->]. simpl.
  assert (Hs : seeds_from lbl rs (seed_val o) (seed_size o) a5 = Return a9).
  { unfold seeds_from. rewrite Hlbl. destruct (0 <? seed_size o)%Z.
    - bind_inv Hseeds. clear Hm.
      bind_inv Hseeds. unfold G in Hm. rewrite load_morpho in Hm.
      apply ret_Return in Hm as [-> ->].
      bind_inv Hseeds. simpl in Hm. apply lift_Return in Hm as [Hrs ->].
      bind_inv Hseeds. clear Hm.
      apply ret_Return in Hseeds as [-> ->]. exact Hrs.
    - apply ret_Return in Hseeds as [-> ->]. reflexivity. }
  exists a3, lg4, lg5. repeat split; try assumption.
  - subst b. destruct (0 <? border_size o)%Z.
    + bind_inv Hcrop. unfold G in Hm. rewrite load_label in Hm.
      apply ret_Return in Hm as [-> ->].
      bind_inv Hcrop. simpl in Hm. apply lift_Return in Hm as [Hlbl' ->].
      bind_inv Hcrop. apply ret_Return in Hcrop as [-> ->]. simpl.
      split; [reflexivity|].
      unfold seeds_from. rewrite Hlbl'. destruct (0 <? seed_size o)%Z.
      * bind_inv Hm. unfold G in Hm0. rewrite load_morpho in Hm0.
        apply ret_Return in Hm0 as [-> ->].
        simpl in Hm. apply lift_Return in Hm as [Hrs _]. exact Hrs.
      * apply ret_Return in Hm as [-> _]. reflexivity.
    + apply ret_Return in Hcrop as [-> _]. split; reflexivity.
  - subst b. destruct (0 <? border_size o)%Z.
    + apply lift_Return in Hsv as [Hsv _]. exact Hsv.
    + apply ret_Return in Hsv as [-> _]. reflexivity.
Qed.
End Run.

(** ** Cells of an array of a given shape *)

Lemma lookup3_bounds {A} n0 n1 n2 (a : array3 A) i j k x :
  has_shape n0 n1 n2 a -> lookup3 a i j k = Some x -> i < n0 /\ j < n1 /\ k < n2.
Proof.
  rewrite has_shape_iff. intros [H0 H] Hx. unfold lookup3 in Hx.
  destruct (a !! i) as [pl|] eqn:Hpl; [|discriminate]. simpl in Hx.
  destruct (pl !! j) as [row|] eqn:Hrow; [|discriminate]. simpl in Hx.
  rewrite Forall_lookup in H. destruct (H _ _ Hpl) as [H1 H2].
  rewrite Forall_lookup in H2. pose proof (H2 _ _ Hrow) as H3. simpl in H3.
  apply lookup_lt_Some in Hpl, Hrow, Hx. lia.
Qed.

Lemma has_shape_no_cells {A} n0 n1 n2 (a : array3 A) :
  has_shape n0 n1 n2 a -> n0 = 0 \/ n1 = 0 \/ n2 = 0 -> flatten a = [].
Proof.
  intros Ha Hn.
  destruct (flatten a) as [|x l] eqn:E; [reflexivity|]. exfalso.
  assert (x ∈ flatten a) as Hx by (rewrite E; apply list_elem_of_here).
  apply elem_of_flatten_lookup3 in Hx as (i & j & k & Hx).
  pose proof (lookup3_bounds _ _ _ _ _ _ _ _ Ha Hx). lia.
Qed.

(** ** Counting labels *)

Lemma elem_of_positive_labels (a : array3 Z) l :
  l ∈ positive_labels a <-> (0 < l)%Z /\ l ∈ flatten a.
Proof.
  unfold positive_labels. rewrite elem_of_list_to_set, list_elem_of_filter.
  reflexivity.
Qed.

Lemma positive_labels_remove_small a t :
  positive_labels (remove_small_connected_components a t) ⊆ positive_labels a.
Proof.
  intros l. rewrite !elem_of_positive_labels. intros [Hl H]. split; [exact Hl|].
  unfold remove_small_connected_components in H. rewrite flatten_map3 in H.
  apply list_elem_of_fmap in H as (x & -> & Hx).
  destruct (_ <? _)%Z; [lia | exact Hx].
Qed.

Lemma positive_labels_remove_small_mono a t1 t2 :
  (t1 <= t2)%Z ->
  positive_labels (remove_small_connected_components a t2)
  ⊆ positive_labels (remove_small_connected_components a t1).
Proof.
  intros Ht l. rewrite !elem_of_positive_labels. intros [Hl H]. split; [exact Hl|].
  unfold remove_small_connected_components in *. rewrite flatten_map3 in *.
  apply list_elem_of_fmap in H as (x & E & Hx).
  apply list_elem_of_fmap. exists x. split; [|exact Hx].
  destruct (Z.ltb_spec (component_size a x) t2); [lia|].
  destruct (Z.ltb_spec (component_size a x) t1); [lia|]. exact E.
Qed.

Lemma SeedGenerator_labels_mono t s1 s2 b :
  (s1 <= s2)%Z ->
  positive_labels (SeedGenerator t s2 b) ⊆ positive_labels (SeedGenerator t s1 b).
Proof.
  intros Hs. unfold SeedGenerator.
  destruct (Z.ltb_spec 0 s1), (Z.ltb_spec 0 s2); try lia.
  - apply positive_labels_remove_small_mono, Hs.
  - apply positive_labels_remove_small.
  - reflexivity.
Qed.

Lemma SeedGenerator_count_mono t s1 s2 b :
  (s1 <= s2)%Z ->
  label_count (SeedGenerator t s2 b) <= label_count (SeedGenerator t s1 b).
Proof.
  intros Hs. unfold label_count. apply subseteq_size, SeedGenerator_labels_mono, Hs.
Qed.

(** ** Cropping *)

Section Crop.

Lemma slice_len_length {X Y} (s e : Z) (l : list X) (l' : list Y) :
  length l = length l' -> slice_len s e l = slice_len s e l'.
Proof. unfold slice_len. intros ->. reflexivity. Qed.

Lemma elem_of_slice {X} (s e : Z) (l : list X) x : x ∈ slice s e l -> x ∈ l.
Proof.
  unfold slice. intros H. apply elem_of_take in H as (i & H & _).
  rewrite lookup_drop in H. eapply list_elem_of_lookup_2, H.
Qed.

Lemma getitem3_shape {A} s0 e0 s1 e1 s2 e2 n0 n1 n2 (a : array3 A) :
  has_shape n0 n1 n2 a ->
  has_shape (slice_len s0 e0 a)
            (slice_len s1 e1 (default [] (head a)))
            (slice_len s2 e2 (default [] (head (default [] (head a)))))
            (getitem3 s0 e0 s1 e1 s2 e2 a).
Proof.
  intros Ha.
  destruct (head_plane_length _ _ _ _ Ha) as [_ Hp].
  destruct (head_row_length _ _ _ _ Ha) as [_ Hr].
  apply has_shape_iff in Ha as [Ha0 HaF].
  apply has_shape_iff. unfold getitem3. split.
  - rewrite length_fmap. apply length_slice.
  - apply Forall_fmap, Forall_forall. intros pl Hpl. apply elem_of_slice in Hpl.
    assert (0 < n0) as Hn0.
    { destruct a; [inversion Hpl | simpl in Ha0; lia]. }
    rewrite Forall_forall in HaF. destruct (HaF _ Hpl) as [Hpl1 HplF].
    simpl. split.
    + rewrite length_fmap, length_slice. apply slice_len_length.
      rewrite Hp by exact Hn0. exact Hpl1.
    + apply Forall_fmap, Forall_forall. intros row Hrow. apply elem_of_slice in Hrow.
      assert (0 < n1) as Hn1.
      { destruct pl; [inversion Hrow | simpl in Hpl1; lia]. }
      rewrite Forall_forall in HplF. simpl.
      rewrite length_slice. apply slice_len_length.
      rewrite Hr by assumption. apply HplF, Hrow.
Qed.

Lemma head_lengths_agree {X Y} n0 n1 n2 (a : array3 X) (a' : array3 Y) :
  has_shape n0 n1 n2 a -> has_shape n0 n1 n2 a' ->
  length a = length a' /\
  length (default [] (head a)) = length (default [] (head a')) /\
  length (default [] (head (default [] (head a)))) =
  length (default [] (head (default [] (head a')))).
Proof.
  intros H H'. apply has_shape_iff in H as [H0 HF], H' as [H0' HF'].
  destruct a as [|pl a], a' as [|pl' a']; simpl in *; try lia.
  apply Forall_cons in HF as [[H1 H2] _], HF' as [[H1' H2'] _].
  destruct pl as [|row pl], pl' as [|row' pl']; simpl in *; try lia.
  apply Forall_cons in H2 as [H2 _], H2' as [H2' _]. lia.
Qed.

(** The crop of an array can be written back into any array of the
    array's shape. *)
Lemma setitem3_getitem3_fits {X Y} s0 e0 s1 e1 s2 e2 n0 n1 n2
      (a : array3 X) (target src : array3 Y) :
  has_shape n0 n1 n2 a -> has_shape n0 n1 n2 target ->
  (forall m0 m1 m2, has_shape m0 m1 m2 (getitem3 s0 e0 s1 e1 s2 e2 a) ->
                    has_shape m0 m1 m2 src) ->
  exists r, setitem3 s0 e0 s1 e1 s2 e2 target src = Return r.
Proof.
  intros Ha Ht Hsrc. unfold setitem3.
  destruct (head_lengths_agree _ _ _ _ _ Ha Ht) as (E0 & E1 & E2).
  pose proof (getitem3_shape s0 e0 s1 e1 s2 e2 _ _ _ _ Ha) as Hg.
  apply Hsrc in Hg.
  rewrite (slice_len_length _ _ _ _ E0), (slice_len_length _ _ _ _ E1),
    (slice_len_length _ _ _ _ E2) in Hg.
  unfold has_shape in Hg. rewrite Hg. eexists. reflexivity.
Qed.
End Crop.

(** ** Runs with the collaborators of the specification *)

Lemma seeds_from_lib t size b :
  seeds_from (fun m => Return (label m))
             (fun a n => Return (remove_small_connected_components a n)) t size b
  = Return (SeedGenerator t size b).
Proof. unfold seeds_from, SeedGenerator. destruct (0 <? size)%Z; reflexivity. Qed.

Lemma SeedGenerator_shape t size b n0 n1 n2 :
  has_shape n0 n1 n2 b -> has_shape n0 n1 n2 (SeedGenerator t size b).
Proof.
  intros H. unfold SeedGenerator.
  assert (has_shape n0 n1 n2 (fst (label (le_mask b t)))) as HL
      by (apply label_shape, has_shape_map3, H).
  destruct (0 <? size)%Z; [apply remove_small_shape, HL | exact HL].
Qed.

Lemma SeedGenerator_none t size b :
  Forall (fun x => PrimFloat.leb x t = false) (flatten b) ->
  Forall (fun l => l = 0%Z) (flatten (SeedGenerator t size b)).
Proof.
  intros H. unfold SeedGenerator.
  rewrite (label_empty_mask _ (le_mask_none _ _ H)). simpl.
  destruct (0 <? size)%Z; [apply remove_small_zeros|]; apply flatten_zeros.
Qed.

Section LibRun.
Variables (file group : string) (grab : stack -> list Z -> M (array3 float)).
Let G := Lib.globals file group grab.

Lemma lib_run_inv W o lg f lg' :
  create_labels_frame G W o lg = (Return f, lg') ->
  let b := border_size o in
  seeds f = SeedGenerator (seed_val o) (seed_size o) (boundary f) /\
  (if (0 <? b)%Z
   then boundary_cropped f = getitem3 b (-b) b (-b) b (-b) (boundary f) /\
        seeds_cropped f = SeedGenerator (seed_val o) (seed_size o) (boundary_cropped f)
   else boundary_cropped f = boundary f /\ seeds_cropped f = seeds f) /\
  supervoxels_cropped f = watershed (boundary_cropped f) (seeds_cropped f) /\
  (if (0 <? b)%Z
   then setitem3 b (-b) b (-b) b (-b) (fill3 0%Z (seeds f)) (supervoxels_cropped f)
        = Return (supervoxels f)
   else supervoxels f = supervoxels_cropped f).
Proof.
  intros H b. apply create_labels_frame_inv in H.
  destruct H as (p & lgA & lgB & _ & _ & _ & _ & Hs & Hc & Hw & Hsv).
  rewrite seeds_from_lib in Hs. injection Hs as Hs.
  injection Hw as Hw. fold b in Hc, Hsv.
  split; [congruence|]. split; [|split; [congruence|exact Hsv]].
  - destruct (0 <? b)%Z; [|exact Hc].
    destruct Hc as [Hc1 Hc2]. rewrite seeds_from_lib in Hc2. split; congruence.
Qed.

Lemma lib_run_shapes W o lg f lg' n0 n1 n2 :
  create_labels_frame G W o lg = (Return f, lg') ->
  has_shape n0 n1 n2 (boundary f) ->
  has_shape n0 n1 n2 (seeds f) /\
  (forall m0 m1 m2, has_shape m0 m1 m2 (boundary_cropped f) ->
                    has_shape m0 m1 m2 (supervoxels_cropped f)).
Proof.
  intros H Hb. apply lib_run_inv in H as (Hs & Hc & Hw & _).
  split.
  - rewrite Hs. apply SeedGenerator_shape, Hb.
  - intros m0 m1 m2 Hm. rewrite Hw. apply watershed_shape.
    destruct (0 <? border_size o)%Z; destruct Hc as [Hc1 Hc2].
    + rewrite Hc2. apply SeedGenerator_shape, Hm.
    + rewrite Hc2, Hs. apply SeedGenerator_shape. rewrite <- Hc1. exact Hm.
Qed.

(** With these collaborators [create_labels] returns whenever the file is
    there, the stack is read and the boundary channel is extracted. *)
Lemma lib_run_returns W o lg p bnd n0 n1 n2 :
  isfile W file = true ->
  read_image_stack W file group = Return p ->
  (forall lgA, exists lgB,
      grab (transpose_2103 p) (bound_channels o) lgA = (Return bnd, lgB)) ->
  has_shape n0 n1 n2 bnd ->
  exists f lg', create_labels_frame G W o lg = (Return f, lg') /\ boundary f = bnd.
Proof.
  intros Hfile Hread Hgrab Hshape. unfold create_labels_frame.
  erewrite bind_step by reflexivity.
  erewrite bind_step by (unfold G, Lib.globals; rewrite load_os; reflexivity).
  erewrite bind_step
    by (unfold G, Lib.globals; rewrite load_prediction_file; reflexivity).
  erewrite bind_step by reflexivity.
  rewrite Hfile.
  erewrite bind_step by reflexivity.
  erewrite bind_step by (unfold G, Lib.globals; rewrite load_imio; reflexivity).
  erewrite bind_step by (unfold G, Lib.globals; rewrite load_group; reflexivity).
  erewrite bind_step by reflexivity.
  rewrite Hread.
  erewrite bind_step by reflexivity.
  erewrite bind_step by reflexivity.
  erewrite bind_step
    by (unfold G, Lib.globals; rewrite load_grab_boundary; reflexivity).
  destruct (Hgrab (lg ++ [(DEBUG, Text "Generating supervoxels")]
                      ++ [(INFO, Text "Transposed boundary prediction")])) as [lgB HlgB].
  rewrite <- app_assoc.
  erewrite bind_step by (simpl; exact HlgB).
  erewrite bind_step by reflexivity.
  erewrite bind_step by reflexivity.
  erewrite bind_step by (unfold G, Lib.globals; rewrite load_label; reflexivity).
  erewrite bind_step by reflexivity.
  set (t := seed_val o). set (size := seed_size o). set (b := border_size o).
  set (L := fst (label (le_mask bnd t))).
  assert (exists lgS,
    (if (0 <? size)%Z
     then bind (debug (Text "Removing small seeds")) (fun _ =>
          bind (load_global G "morpho") (fun morpho =>
          bind (call_remove_small_connected_components morpho L size) (fun seeds =>
          bind (debug (Text "Finished removing small seeds")) (fun _ => ret seeds))))
     else ret L) (((lgB ++ [(INFO, TextShape "Shape of boundary: " (shape bnd))])
                     ++ [(DEBUG, TextFloat "watershed seed value threshold: " t)]))
    = (Return (SeedGenerator t size bnd), lgS)) as [lgS HS].
  { unfold SeedGenerator. fold L. destruct (0 <? size)%Z.
    - erewrite bind_step by reflexivity.
      erewrite bind_step by (unfold G, Lib.globals; rewrite load_morpho; reflexivity).
      erewrite bind_step by reflexivity.
      erewrite bind_step by reflexivity.
      eexists. reflexivity.
    - eexists. reflexivity. }
  erewrite bind_step by exact HS.
  erewrite bind_step by reflexivity.
  set (seeds := SeedGenerator t size bnd) in *.
  assert (has_shape n0 n1 n2 seeds) as Hseeds by (apply SeedGenerator_shape, Hshape).
  destruct (0 <? b)%Z eqn:Hb.
  - erewrite bind_step; cycle 1.
    { erewrite bind_step by (unfold G, Lib.globals; rewrite load_label; reflexivity).
      erewrite bind_step by reflexivity.
      set (Lc := fst (label (le_mask (getitem3 b (- b) b (- b) b (- b) bnd) t))).
      instantiate (1 := lgS ++ [(INFO, Text "Starting watershed")]).
      instantiate (1 := (getitem3 b (- b) b (- b) b (- b) bnd,
                         SeedGenerator t size (getitem3 b (- b) b (- b) b (- b) bnd))).
      unfold SeedGenerator. fold Lc. destruct (0 <? size)%Z.
      - erewrite bind_step; cycle 1.
        { erewrite bind_step
            by (unfold G, Lib.globals; rewrite load_morpho; reflexivity).
          reflexivity. }
        reflexivity.
      - reflexivity. }
    erewrite bind_step by (unfold G, Lib.globals; rewrite load_skmorph; reflexivity).
    erewrite bind_step by reflexivity.
    cbn [fst snd].
    set (bc := getitem3 b (- b) b (- b) b (- b) bnd).
    destruct (setitem3_getitem3_fits b (- b) b (- b) b (- b) n0 n1 n2 bnd
                (fill3 0%Z seeds) (watershed bc (SeedGenerator t size bc)))
      as [r Hr]; [exact Hshape | apply has_shape_map3, Hseeds | |].
    { intros m0 m1 m2 Hm. apply watershed_shape, SeedGenerator_shape, Hm. }
    fold bc in Hr. rewrite Hr.
    erewrite bind_step by reflexivity.
    erewrite bind_step by reflexivity.
    eexists _, _. split; reflexivity.
  - erewrite bind_step by reflexivity.
    erewrite bind_step by (unfold G, Lib.globals; rewrite load_skmorph; reflexivity).
    erewrite bind_step by reflexivity.
    erewrite bind_step by reflexivity.
    erewrite bind_step by reflexivity.
    eexists _, _. split; reflexivity.
Qed.
End LibRun.

Import Examples.

(** ** The examples of the specification *)

(** Example 1: on a plateau the seed enqueued first wins every tie. *)
Example flood_tie_break :
  let b := [[[0; 0; 0]; [1; 1; 1]; [0; 0; 0]]]%float in
  SeedGenerator 0 0 b = [[[1; 1; 1]; [0; 0; 0]; [2; 2; 2]]]%Z /\
  watershed b (SeedGenerator 0 0 b) = [[[1; 1; 1]; [1; 1; 1]; [2; 2; 2]]]%Z.
Proof. split; vm_compute; reflexivity. Qed.

(** Example 2: a boundary volume of zeros is one seed, and stays so. *)
Example flood_single_seed :
  let b := [[[0; 0]; [0; 0]]; [[0; 0]; [0; 0]]]%float in
  watershed b (SeedGenerator 0 0 b) = [[[1; 1]; [1; 1]]; [[1; 1]; [1; 1]]]%Z.
Proof. vm_compute. reflexivity. Qed.

(** Example 3: no cell at or below the threshold, no label anywhere. *)
Example flood_no_seed :
  supervoxels (frame_of (run cube2 (opts (-1) 0 0) []))
  = [[[0; 0]; [0; 0]]; [[0; 0]; [0; 0]]]%Z.
Proof. vm_compute. reflexivity. Qed.

(** A ridge between two basins: each side of the crest goes to its
    basin. *)
Example flood_ridge :
  supervoxels (frame_of (run ridge (opts 0 0 0) [])) = [[[1; 1; 2; 2; 2]]]%Z.
Proof. vm_compute. reflexivity. Qed.

(** * The properties of the specification *)

(** C2.  In the module as it stands [create_labels] raises [NameError]
    for every options record, file system and logger: after the first
    debug record it reads [prediction_file], and neither that name nor
    any of the other five free names of the body is a local of the
    function, a global of the module or a builtin.  No call returns a
    supervoxel volume. *)
Theorem create_labels_raises_NameError (W : world) (o : options) (lg : logger) :
  create_labels module_globals W o lg
  = (Raise (NameError "prediction_file"),
     lg ++ [(DEBUG, Text "Generating supervoxels")]) /\
  Forall (fun name => module_globals !! name = None /\
                      (name ∉ builtins) /\ (name ∉ create_labels_locals) /\
                      forall lg', load_global module_globals name lg'
                                  = (Raise (NameError name), lg'))
         create_labels_free_names.
Proof.
  split; [reflexivity|].
  unfold create_labels_free_names.
  repeat (apply Forall_cons; split;
          [split; [reflexivity|
                   split; [apply (bool_decide_unpack _); vm_compute; exact I|
                           split; [apply (bool_decide_unpack _); vm_compute; exact I|
                                   intros lg'; reflexivity]]]|]).
  apply Forall_nil. exact I.
Qed.

(** C1.  With a positive border the seeds handed to the flood are those
    of the seed generator run on the cropped boundary volume: threshold
    mask, labelling, and removal of the small seeds when [seed_size] is
    positive.  They are not the crop of the seeds of the full volume: on
    the volume [ring] with border 1 the two differ. *)
Theorem seeds_recomputed_on_crop file group grab (W : world) (o : options)
        (lg lg' : logger) (f : frame) :
  (0 < border_size o)%Z ->
  create_labels_frame (Lib.globals file group grab) W o lg = (Return f, lg') ->
  let b := border_size o in
  (seeds f = SeedGenerator (seed_val o) (seed_size o) (boundary f) /\
   boundary_cropped f = getitem3 b (- b) b (- b) b (- b) (boundary f) /\
   seeds_cropped f
   = SeedGenerator (seed_val o) (seed_size o)
                   (getitem3 b (- b) b (- b) b (- b) (boundary f)) /\
   supervoxels_cropped f = watershed (boundary_cropped f) (seeds_cropped f)) /\
  exists (bnd : array3 float) (o0 : options) (f0 : frame) (lg0 : logger),
    (0 < border_size o0)%Z /\
    run bnd o0 [] = (Return f0, lg0) /\
    let b0 := border_size o0 in
    seeds_cropped f0 <> getitem3 b0 (- b0) b0 (- b0) b0 (- b0) (seeds f0).
Proof.
  intros Hb H b. split.
  - apply lib_run_inv in H as (Hs & Hc & Hw & _). fold b in Hc.
    destruct (Z.ltb_spec 0 b); [|lia]. destruct Hc as [Hc1 Hc2].
    rewrite Hc1 in Hc2. auto.
  - exists ring, (opts 0 0 1), (frame_of (run ring (opts 0 0 1) [])),
      (snd (run ring (opts 0 0 1) [])).
    split; [reflexivity|]. split; [vm_compute; reflexivity|].
    vm_compute. discriminate.
Qed.

Lemma seeds_recomputed_on_crop_witness :
  let f := frame_of (run ring (opts 0 0 1) []) in
  seeds_cropped f = [[[1; 0; 2]]]%Z /\
  getitem3 1 (-1) 1 (-1) 1 (-1) (seeds f) = [[[1; 0; 1]]]%Z /\
  seeds_cropped f = SeedGenerator 0 0 (getitem3 1 (-1) 1 (-1) 1 (-1) (boundary f)).
Proof.
  split; [vm_compute; reflexivity|]. split; [vm_compute; reflexivity|].
  destruct (seeds_recomputed_on_crop
              "STACKED_prediction.h5" "/volume/predictions" grab_channel
              (world_with (stack_of ring)) (opts 0 0 1) []
              (snd (run ring (opts 0 0 1) []))
              (frame_of (run ring (opts 0 0 1) []))
              ltac:(reflexivity) ltac:(vm_compute; reflexivity))
    as [(_ & _ & H & _) _].
  exact H.
Defined.

(** ** The border *)

(** The cells of a volume pasted by [setitem3] into the zeroed copy of
    the seeds: zero in the margin, the source inside. *)
Lemma pasted_cells (b : Z) n0 n1 n2 (sd svc sv : array3 Z) :
  (0 < b)%Z -> has_shape n0 n1 n2 sd ->
  setitem3 b (- b) b (- b) b (- b) (fill3 0%Z sd) svc = Return sv ->
  let B := Z.to_nat b in
  has_shape n0 n1 n2 sv /\
  forall i j k, i < n0 -> j < n1 -> k < n2 ->
    lookup3 sv i j k =
    if decide ((B <= i /\ i + B < n0) /\ (B <= j /\ j + B < n1) /\
               (B <= k /\ k + B < n2))
    then lookup3 svc (i - B) (j - B) (k - B)
    else Some 0%Z.
Proof.
  intros Hb Hsd Hset B.
  assert (has_shape n0 n1 n2 (fill3 0%Z sd)) as Hfill by (apply has_shape_map3, Hsd).
  destruct (setitem3_border b n0 n1 n2 _ _ _ Hb Hfill Hset) as (Hsv & _ & Hcells).
  split; [exact Hsv|]. intros i j k Hi Hj Hk.
  rewrite (Hcells i j k Hi Hj Hk). fold B.
  destruct (decide _); [reflexivity|].
  unfold fill3. rewrite lookup3_map3.
  destruct (has_shape_lookup _ _ _ _ i j k Hsd Hi Hj Hk) as [x ->]. reflexivity.
Qed.

(** C4.  With the collaborators of the specification, whose labels have
    one integer type and whose flood returns a volume of the shape of its
    input, and with a positive border: the run returns a volume of the
    shape of the boundary volume that is zero in every cell within the
    border of a face and holds in every other cell the label that the
    flood of the cropped boundary and its seeds gave the cell at the same
    offset from the border. *)
Theorem border_is_zero_interior_is_flood
        file group grab (W : world) (o : options) (lg : logger)
        (p : stack) (bnd : array3 float) (n0 n1 n2 : nat) :
  isfile W file = true ->
  read_image_stack W file group = Return p ->
  (forall lgA, exists lgB,
      grab (transpose_2103 p) (bound_channels o) lgA = (Return bnd, lgB)) ->
  has_shape n0 n1 n2 bnd ->
  (0 < border_size o)%Z ->
  let b := border_size o in
  let B := Z.to_nat b in
  exists f lg',
    create_labels_frame (Lib.globals file group grab) W o lg = (Return f, lg') /\
    boundary f = bnd /\
    boundary_cropped f = getitem3 b (- b) b (- b) b (- b) bnd /\
    supervoxels_cropped f = watershed (boundary_cropped f) (seeds_cropped f) /\
    has_shape n0 n1 n2 (supervoxels f) /\
    forall i j k, i < n0 -> j < n1 -> k < n2 ->
      lookup3 (supervoxels f) i j k =
      if decide ((B <= i /\ i + B < n0) /\ (B <= j /\ j + B < n1) /\
                 (B <= k /\ k + B < n2))
      then lookup3 (supervoxels_cropped f) (i - B) (j - B) (k - B)
      else Some 0%Z.
Proof.
  intros Hfile Hread Hgrab Hshape Hb b B.
  destruct (lib_run_returns file group grab W o lg p bnd n0 n1 n2
              Hfile Hread Hgrab Hshape) as (f & lg' & Hrun & Hbnd).
  exists f, lg'. split; [exact Hrun|]. split; [exact Hbnd|].
  rewrite <- Hbnd in Hshape.
  destruct (lib_run_shapes _ _ _ _ _ _ _ _ _ _ _ Hrun Hshape) as [Hsd _].
  apply lib_run_inv in Hrun as (_ & Hc & Hw & Hsv).
  fold b in Hc, Hsv. destruct (Z.ltb_spec 0 b); [|lia]. destruct Hc as [Hc _].
  split; [rewrite <- Hbnd; exact Hc|]. split; [exact Hw|].
  apply (pasted_cells b n0 n1 n2 (seeds f) (supervoxels_cropped f)); assumption.
Qed.

Lemma border_is_zero_interior_is_flood_witness :
  exists f lg',
    run ring (opts 0 0 1) [] = (Return f, lg') /\
    supervoxels_cropped f = [[[1; 1; 2]]]%Z /\
    lookup3 (supervoxels f) 1 1 3 = Some 2%Z /\ lookup3 (supervoxels f) 1 1 4 = Some 0%Z.
Proof.
  destruct (border_is_zero_interior_is_flood
              "STACKED_prediction.h5" "/volume/predictions" grab_channel
              (world_with (stack_of ring)) (opts 0 0 1) [] (stack_of ring) ring 3 3 5
              ltac:(reflexivity) ltac:(reflexivity)
              ltac:(intros lgA; exists lgA; vm_compute; reflexivity)
              ltac:(vm_compute; reflexivity) ltac:(reflexivity))
    as (f & lg' & Hrun & _ & _ & _ & _ & Hcells).
  change (run ring (opts 0 0 1) [] = (Return f, lg')) in Hrun.
  assert (f = frame_of (run ring (opts 0 0 1) [])) as Hf
      by (rewrite Hrun; reflexivity).
  exists f, lg'. split; [exact Hrun|].
  split; [rewrite Hf; vm_compute; reflexivity|]. split.
  - rewrite (Hcells 1 1 3) by lia. rewrite Hf. vm_compute. reflexivity.
  - rewrite (Hcells 1 1 4) by lia. vm_compute. reflexivity.
Defined.

(** C5.  With the collaborators of the specification, a boundary volume
    of shape [(n0, n1, n2)] gives a run that returns, and the returned
    supervoxel volume has the shape [(n0, n1, n2)], for every border. *)
Theorem supervoxels_have_input_shape
        file group grab (W : world) (o : options) (lg : logger)
        (p : stack) (bnd : array3 float) (n0 n1 n2 : nat) :
  isfile W file = true ->
  read_image_stack W file group = Return p ->
  (forall lgA, exists lgB,
      grab (transpose_2103 p) (bound_channels o) lgA = (Return bnd, lgB)) ->
  has_shape n0 n1 n2 bnd ->
  exists f lg',
    create_labels_frame (Lib.globals file group grab) W o lg = (Return f, lg') /\
    boundary f = bnd /\
    has_shape n0 n1 n2 (supervoxels f).
Proof.
  intros Hfile Hread Hgrab Hshape.
  destruct (lib_run_returns file group grab W o lg p bnd n0 n1 n2
              Hfile Hread Hgrab Hshape) as (f & lg' & Hrun & Hbnd).
  exists f, lg'. split; [exact Hrun|]. split; [exact Hbnd|].
  rewrite <- Hbnd in Hshape.
  destruct (lib_run_shapes _ _ _ _ _ _ _ _ _ _ _ Hrun Hshape) as [Hsd Hsvc].
  apply lib_run_inv in Hrun as (_ & Hc & _ & Hsv).
  destruct (Z.ltb_spec 0 (border_size o)) as [Hb|Hb].
  - apply (pasted_cells _ n0 n1 n2 _ _ _ Hb Hsd Hsv).
  - rewrite Hsv. apply Hsvc. destruct Hc as [-> _]. exact Hshape.
Qed.

Lemma supervoxels_have_input_shape_witness :
  exists f lg',
    run ring (opts 0 2 1) [] = (Return f, lg') /\ boundary f = ring /\
    has_shape 3 3 5 (supervoxels f).
Proof.
  apply (supervoxels_have_input_shape
           "STACKED_prediction.h5" "/volume/predictions" grab_channel
           (world_with (stack_of ring)) (opts 0 2 1) [] (stack_of ring) ring 3 3 5).
  - reflexivity.
  - reflexivity.
  - intros lgA. exists lgA. vm_compute. reflexivity.
  - vm_compute. reflexivity.
Defined.

(** C3, as the code has it.  A border so wide that some axis has no cell
    left raises nothing: the crop is an array without cells, the run
    returns, and the returned volume has the shape of the boundary volume
    and is zero in every cell. *)
Theorem margin_too_large_is_silent
        file group grab (W : world) (o : options) (lg : logger)
        (p : stack) (bnd : array3 float) (n0 n1 n2 : nat) :
  isfile W file = true ->
  read_image_stack W file group = Return p ->
  (forall lgA, exists lgB,
      grab (transpose_2103 p) (bound_channels o) lgA = (Return bnd, lgB)) ->
  has_shape n0 n1 n2 bnd ->
  (0 < border_size o)%Z ->
  (Z.of_nat n0 - 2 * border_size o <= 0 \/
   Z.of_nat n1 - 2 * border_size o <= 0 \/
   Z.of_nat n2 - 2 * border_size o <= 0)%Z ->
  exists f lg',
    create_labels_frame (Lib.globals file group grab) W o lg = (Return f, lg') /\
    boundary f = bnd /\
    flatten (boundary_cropped f) = [] /\
    has_shape n0 n1 n2 (supervoxels f) /\
    Forall (fun l => l = 0%Z) (flatten (supervoxels f)).
Proof.
  intros Hfile Hread Hgrab Hshape Hb Hwide.
  destruct (lib_run_returns file group grab W o lg p bnd n0 n1 n2
              Hfile Hread Hgrab Hshape) as (f & lg' & Hrun & Hbnd).
  exists f, lg'. split; [exact Hrun|]. split; [exact Hbnd|].
  rewrite <- Hbnd in Hshape.
  destruct (lib_run_shapes _ _ _ _ _ _ _ _ _ _ _ Hrun Hshape) as [Hsd _].
  apply lib_run_inv in Hrun as (_ & Hc & _ & Hsv).
  set (b := border_size o) in *.
  destruct (Z.ltb_spec 0 b); [|lia]. destruct Hc as [Hc _].
  split.
  - rewrite Hc.
    eapply has_shape_no_cells;
      [apply (getitem3_shape _ _ _ _ _ _ _ _ _ _ Hshape)|].
    rewrite !slice_len_border by exact Hb.
    destruct (head_plane_length _ _ _ _ Hshape) as [Hp _].
    destruct (head_row_length _ _ _ _ Hshape) as [Hr _].
    apply has_shape_iff in Hshape as [H0 _]. lia.
  - destruct (pasted_cells b n0 n1 n2 _ _ _ Hb Hsd Hsv) as [Hs Hcells].
    split; [exact Hs|]. apply Forall_forall. intros l Hl.
    apply elem_of_flatten_lookup3 in Hl as (i & j & k & Hl).
    destruct (lookup3_bounds _ _ _ _ _ _ _ _ Hs Hl) as (Hi & Hj & Hk).
    rewrite (Hcells i j k Hi Hj Hk) in Hl.
    rewrite decide_False in Hl by lia. congruence.
Qed.

Lemma margin_too_large_is_silent_witness :
  exists f lg',
    run cube2 (opts 5 0 1) [] = (Return f, lg') /\ boundary f = cube2 /\
    flatten (boundary_cropped f) = [] /\
    has_shape 2 2 2 (supervoxels f) /\
    Forall (fun l => l = 0%Z) (flatten (supervoxels f)).
Proof.
  apply (margin_too_large_is_silent
           "STACKED_prediction.h5" "/volume/predictions" grab_channel
           (world_with (stack_of cube2)) (opts 5 0 1) [] (stack_of cube2) cube2 2 2 2).
  - reflexivity.
  - reflexivity.
  - intros lgA. exists lgA. vm_compute. reflexivity.
  - vm_compute. reflexivity.
  - reflexivity.
  - left. vm_compute. discriminate.
Defined.

(** C3, as the specification has it, fails: on the 2 x 2 x 2 volume [cube2] the
    border 1 leaves no cell on any axis, every cell is a seed at threshold
    5, and [create_labels] returns the zero volume instead of raising. *)
Lemma margin_too_large_returns :
  has_shape 2 2 2 cube2 /\
  (Z.of_nat 2 - 2 * border_size (opts 5 0 1) <= 0)%Z /\
  seeds (frame_of (run cube2 (opts 5 0 1) [])) = [[[1; 1]; [1; 1]]; [[1; 1]; [1; 1]]]%Z /\
  boundary_cropped (frame_of (run cube2 (opts 5 0 1) [])) = [] /\
  fst (create_labels Examples.globals (world_with (stack_of cube2)) (opts 5 0 1) [])
  = Return ([[[0; 0]; [0; 0]]; [[0; 0]; [0; 0]]]%Z,
            transpose_2103 (stack_of cube2)).
Proof. repeat split; vm_compute; (reflexivity || discriminate). Qed.

(** ** The collaborators *)

(** C6.  The flood of a seed volume that is zero in every cell enqueues
    nothing and returns the seed volume as it is: zero in every cell.
    Nothing is raised, the binding of [skmorph.watershed] returns; and
    the seed generator gives such a volume when no cell of the boundary
    is at or below the threshold. *)
Theorem watershed_of_no_seed (b : array3 float) (s : array3 Z) :
  Forall (fun l => l = 0%Z) (flatten s) ->
  initial_queue b s = [] /\
  watershed b s = s /\
  Forall (fun l => l = 0%Z) (flatten (watershed b s)) /\
  (forall lg, call_watershed (PySkmorph (fun b s => Return (watershed b s))) b s lg
              = (Return s, lg)) /\
  (forall t size,
      Forall (fun x => PrimFloat.leb x t = false) (flatten b) ->
      Forall (fun l => l = 0%Z) (flatten (SeedGenerator t size b)) /\
      watershed b (SeedGenerator t size b) = SeedGenerator t size b).
Proof.
  intros H. pose proof (watershed_no_seed b s H) as E.
  split; [apply initial_queue_no_seed, H|]. split; [exact E|].
  split; [rewrite E; exact H|]. split.
  - intros lg. unfold call_watershed, lift. rewrite E. reflexivity.
  - intros t size Hnone. pose proof (SeedGenerator_none t size b Hnone) as Hz.
    split; [exact Hz | apply watershed_no_seed, Hz].
Qed.

Lemma watershed_of_no_seed_witness :
  watershed cube2 (SeedGenerator (-1) 0 cube2) = [[[0; 0]; [0; 0]]; [[0; 0]; [0; 0]]]%Z.
Proof.
  assert (Forall (fun l => l = 0%Z) (flatten (SeedGenerator (-1) 0 cube2))) as H
      by (vm_compute; repeat constructor).
  destruct (watershed_of_no_seed cube2 (SeedGenerator (-1) 0 cube2) H)
    as (_ & E & _).
  rewrite E. vm_compute. reflexivity.
Defined.

(** C7.  A cell with a positive label in the seed volume has that label
    in the flooded volume; and from any state of the flood on, a cell
    that has a label keeps it, however long the flood goes on. *)
Theorem watershed_preserves_seeds (b : array3 float) (s : array3 Z)
        (i j k : nat) (l : Z) :
  lookup3 s i j k = Some l -> (0 < l)%Z ->
  lookup3 (watershed b s) i j k = Some l /\
  forall (fuel : nat) (q : list entry) (L : array3 Z) (i' j' k' : nat) (l' : Z),
    lookup3 L i' j' k' = Some l' -> l' <> 0%Z ->
    lookup3 (snd (flood fuel b q L)) i' j' k' = Some l'.
Proof.
  intros Hs Hl. split.
  - apply (watershed_keeps_seeds b s (i, j, k) l); [exact Hs | lia].
  - intros fuel q L i' j' k' l' HL Hl'.
    apply (flood_keeps_labels fuel b q L (i', j', k') l' HL Hl').
Qed.

Lemma watershed_preserves_seeds_witness :
  lookup3 (watershed ridge [[[1; 0; 0; 0; 2]]]%Z) 0 0 4 = Some 2%Z /\
  watershed ridge [[[1; 0; 0; 0; 2]]]%Z = [[[1; 1; 2; 2; 2]]]%Z.
Proof.
  split; [|vm_compute; reflexivity].
  destruct (watershed_preserves_seeds ridge [[[1; 0; 0; 0; 2]]]%Z 0 0 4 2%Z
              ltac:(reflexivity) ltac:(reflexivity)) as [H _].
  exact H.
Defined.

(** C8.  Two returning runs on the same boundary volume with the same
    threshold: the one with the larger [seed_size] has no more distinct
    positive labels in its seed volume. *)
Theorem seed_count_antitone_in_seed_size
        file group grab (W1 W2 : world) (o1 o2 : options)
        (lg1 lg2 lg1' lg2' : logger) (f1 f2 : frame) :
  create_labels_frame (Lib.globals file group grab) W1 o1 lg1 = (Return f1, lg1') ->
  create_labels_frame (Lib.globals file group grab) W2 o2 lg2 = (Return f2, lg2') ->
  boundary f1 = boundary f2 ->
  seed_val o1 = seed_val o2 ->
  (seed_size o1 <= seed_size o2)%Z ->
  positive_labels (seeds f2) ⊆ positive_labels (seeds f1) /\
  label_count (seeds f2) <= label_count (seeds f1).
Proof.
  intros H1 H2 Hb Ht Hs.
  apply lib_run_inv in H1 as (E1 & _), H2 as (E2 & _).
  rewrite E1, E2, Hb, Ht. split.
  - apply SeedGenerator_labels_mono, Hs.
  - apply SeedGenerator_count_mono, Hs.
Qed.

Lemma seed_count_antitone_in_seed_size_witness :
  label_count (seeds (frame_of (run ridge (opts 0 2 0) []))) = 0 /\
  label_count (seeds (frame_of (run ridge (opts 0 1 0) []))) = 2 /\
  label_count (seeds (frame_of (run ridge (opts 0 2 0) [])))
  <= label_count (seeds (frame_of (run ridge (opts 0 1 0) []))).
Proof.
  split; [vm_compute; reflexivity|]. split; [vm_compute; reflexivity|].
  destruct (seed_count_antitone_in_seed_size
              "STACKED_prediction.h5" "/volume/predictions" grab_channel
              (world_with (stack_of ridge)) (world_with (stack_of ridge))
              (opts 0 1 0) (opts 0 2 0) [] []
              (snd (run ridge (opts 0 1 0) [])) (snd (run ridge (opts 0 2 0) []))
              (frame_of (run ridge (opts 0 1 0) []))
              (frame_of (run ridge (opts 0 2 0) []))
              ltac:(vm_compute; reflexivity) ltac:(vm_compute; reflexivity)
              ltac:(vm_compute; reflexivity) ltac:(reflexivity)
              ltac:(vm_compute; discriminate)) as [_ H].
  exact H.
Defined.



(** * Further properties of the code *)

(** ** More on the crop and the paste *)

Lemma lookup_slice {A} (s e : Z) (l : list A) i :
  slice s e l !! i =
  if decide (i < slice_len s e l) then l !! (slice_start s l + i) else None.
Proof.
  unfold slice. rewrite lookup_take. destruct (decide _); [|reflexivity].
  apply lookup_drop.
Qed.

Lemma array3_ext {A} m0 m1 m2 (a a' : array3 A) :
  has_shape m0 m1 m2 a -> has_shape m0 m1 m2 a' ->
  (forall i j k, i < m0 -> j < m1 -> k < m2 -> lookup3 a i j k = lookup3 a' i j k) ->
  a = a'.
Proof.
  intros Ha Ha' H.
  apply has_shape_iff in Ha as [H0 HF], Ha' as [H0' HF'].
  rewrite Forall_lookup in HF, HF'.
  apply (list_eq_same_length _ _ m0 H0' H0). intros i pl pl' Hi Hpl Hpl'.
  destruct (HF _ _ Hpl) as [H1 HG], (HF' _ _ Hpl') as [H1' HG'].
  rewrite Forall_lookup in HG, HG'.
  apply (list_eq_same_length _ _ m1 H1' H1). intros j row row' Hj Hrow Hrow'.
  pose proof (HG _ _ Hrow) as H2. pose proof (HG' _ _ Hrow') as H2'. simpl in H2, H2'.
  apply (list_eq_same_length _ _ m2 H2' H2). intros k x y Hk Hx Hy.
  specialize (H i j k Hi Hj Hk). unfold lookup3 in H.
  rewrite Hpl, Hpl' in H. simpl in H. rewrite Hrow, Hrow' in H. simpl in H.
  congruence.
Qed.

(** The cells of the crop by a border [b]. *)
Lemma lookup3_crop {A} (b : Z) n0 n1 n2 (a : array3 A) i j k :
  (0 < b)%Z -> has_shape n0 n1 n2 a ->
  let B := Z.to_nat b in
  i + 2 * B < n0 -> j + 2 * B < n1 -> k + 2 * B < n2 ->
  lookup3 (getitem3 b (- b) b (- b) b (- b) a) i j k
  = lookup3 a (i + B) (j + B) (k + B).
Proof.
  intros Hb Ha B Hi Hj Hk.
  apply has_shape_iff in Ha as [H0 HF]. rewrite Forall_lookup in HF.
  unfold lookup3, getitem3. rewrite list_lookup_fmap, lookup_slice.
  rewrite slice_len_border, slice_start_border by exact Hb. fold B.
  rewrite decide_True by lia.
  replace (B `min` length a + i) with (i + B) by lia.
  destruct (lookup_lt_is_Some_2 a (i + B) ltac:(lia)) as [pl Hpl].
  rewrite Hpl. simpl. destruct (HF _ _ Hpl) as [H1 HG].
  rewrite Forall_lookup in HG.
  rewrite list_lookup_fmap, lookup_slice.
  rewrite slice_len_border, slice_start_border by exact Hb. fold B.
  rewrite decide_True by lia.
  replace (B `min` length pl + j) with (j + B) by lia.
  destruct (lookup_lt_is_Some_2 pl (j + B) ltac:(lia)) as [row Hrow].
  rewrite Hrow. simpl. pose proof (HG _ _ Hrow) as H2. simpl in H2.
  rewrite lookup_slice.
  rewrite slice_len_border, slice_start_border by exact Hb. fold B.
  rewrite decide_True by lia. f_equal. lia.
Qed.

Lemma crop_shape {A} (b : Z) n0 n1 n2 (a : array3 A) :
  (0 < b)%Z -> has_shape n0 n1 n2 a ->
  let B := Z.to_nat b in
  has_shape (n0 - 2 * B) (if decide (0 < n0) then n1 - 2 * B else 0)
            (if decide (0 < n0 /\ 0 < n1) then n2 - 2 * B else 0)
            (getitem3 b (- b) b (- b) b (- b) a).
Proof.
  intros Hb Ha B.
  pose proof (getitem3_shape b (- b) b (- b) b (- b) _ _ _ _ Ha) as Hg.
  rewrite !slice_len_border in Hg by exact Hb. fold B in Hg.
  destruct (head_plane_length _ _ _ _ Ha) as [Hp1 Hp2].
  destruct (head_row_length _ _ _ _ Ha) as [Hr1 Hr2].
  pose proof Ha as Ha'. apply has_shape_iff in Ha' as [H0 _].
  rewrite H0 in Hg.
  destruct (decide (0 < n0)) as [Hn0|Hn0].
  - rewrite (Hp2 Hn0) in Hg. destruct (decide (0 < n1)) as [Hn1|Hn1].
    + rewrite (Hr2 Hn0 Hn1) in Hg. rewrite decide_True by tauto. exact Hg.
    + rewrite decide_False by tauto.
      replace (n1 - 2 * B) with 0 in * by lia.
      apply has_shape_iff in Hg as [Hg0 HgF]. apply has_shape_iff.
      split; [exact Hg0|]. eapply Forall_impl; [exact HgF|].
      intros pl [Hpl _]. split; [exact Hpl|].
      destruct pl; [constructor | simpl in Hpl; lia].
  - rewrite decide_False by tauto.
    replace (n0 - 2 * B) with 0 in * by lia.
    apply has_shape_iff in Hg as [Hg0 _]. apply has_shape_iff.
    split; [exact Hg0|]. destruct (getitem3 _ _ _ _ _ _ a); [constructor|].
    simpl in Hg0. lia.
Qed.

(** ** More on [create_labels] *)

(** X4.  With a border of zero, or a negative one, nothing is cropped
    and nothing is pasted: the flood is run on the full boundary volume
    and the seeds of lines 90 to 94, and its result is returned as it
    is. *)
Theorem no_border_returns_the_flood
        file group grab lbl rs ws (W : world) (o : options) (lg lg' : logger)
        (f : frame) :
  create_labels_frame (with_bindings file group grab lbl rs ws) W o lg
  = (Return f, lg') ->
  (border_size o <= 0)%Z ->
  boundary_cropped f = boundary f /\
  seeds_cropped f = seeds f /\
  ws (boundary f) (seeds f) = Return (supervoxels f).
Proof.
  intros H Hb. apply create_labels_frame_inv in H.
  destruct H as (_ & _ & _ & _ & _ & _ & _ & _ & Hc & Hw & Hsv).
  destruct (Z.ltb_spec 0 (border_size o)); [lia|].
  destruct Hc as [-> ->] in Hw |- *. rewrite Hsv. auto.
Qed.

Lemma no_border_returns_the_flood_witness :
  let f := frame_of (run ridge (opts 0 0 (-3)) []) in
  boundary_cropped f = ridge /\ supervoxels f = [[[1; 1; 2; 2; 2]]]%Z.
Proof.
  destruct (no_border_returns_the_flood
              "STACKED_prediction.h5" "/volume/predictions" grab_channel
              (fun m => Return (label m))
              (fun a n => Return (remove_small_connected_components a n))
              (fun b s => Return (watershed b s))
              (world_with (stack_of ridge)) (opts 0 0 (-3)) []
              (snd (run ridge (opts 0 0 (-3)) []))
              (frame_of (run ridge (opts 0 0 (-3)) []))
              ltac:(vm_compute; reflexivity) ltac:(vm_compute; discriminate))
    as (H1 & _ & _).
  split; [rewrite H1|]; vm_compute; reflexivity.
Defined.

(** X5.  When the prediction file is not there, [create_labels] raises
    the exception of line 68, with the file's name in the message, after
    its first debug record; the stack is not read, no collaborator is
    called. *)
Theorem missing_prediction_file
        file group grab lbl rs ws (W : world) (o : options) (lg : logger) :
  isfile W file = false ->
  create_labels (with_bindings file group grab lbl rs ws) W o lg
  = (Raise (Exception ("Training file not found: " +:+ file)),
     lg ++ [(DEBUG, Text "Generating supervoxels")]).
Proof.
  intros H. unfold create_labels, create_labels_frame, Py.bind.
  rewrite load_os, load_prediction_file. cbn [debug Py.ret as_str].
  rewrite H. reflexivity.
Qed.

Lemma missing_prediction_file_witness :
  fst (create_labels Examples.globals
                     {| isfile := fun _ => false;
                        read_image_stack := fun _ _ => Return [] |}
                     (opts 0 0 1) [])
  = Raise (Exception "Training file not found: STACKED_prediction.h5").
Proof.
  unfold Examples.globals, Lib.globals.
  rewrite (missing_prediction_file
             "STACKED_prediction.h5" "/volume/predictions" grab_channel
             (fun m => Return (label m))
             (fun a n => Return (remove_small_connected_components a n))
             (fun b s => Return (watershed b s))
             {| isfile := fun _ => false; read_image_stack := fun _ _ => Return [] |}
             (opts 0 0 1) []).
  - reflexivity.
  - reflexivity.
Defined.

(** X6.  A border that leaves cells on every axis: the cropped boundary
    volume of line 102 has the border taken off both ends of every axis,
    and its cell [(i, j, k)] is the cell [(i + b, j + b, k + b)] of the
    boundary volume. *)
Theorem cropped_boundary_cells
        file group grab lbl rs ws (W : world) (o : options) (lg lg' : logger)
        (f : frame) (n0 n1 n2 : nat) :
  create_labels_frame (with_bindings file group grab lbl rs ws) W o lg
  = (Return f, lg') ->
  (0 < border_size o)%Z ->
  has_shape n0 n1 n2 (boundary f) ->
  let B := Z.to_nat (border_size o) in
  2 * B < n0 -> 2 * B < n1 -> 2 * B < n2 ->
  has_shape (n0 - 2 * B) (n1 - 2 * B) (n2 - 2 * B) (boundary_cropped f) /\
  forall i j k, i < n0 - 2 * B -> j < n1 - 2 * B -> k < n2 - 2 * B ->
    lookup3 (boundary_cropped f) i j k = lookup3 (boundary f) (i + B) (j + B) (k + B).
Proof.
  intros H Hb Hshape B H0 H1 H2. apply create_labels_frame_inv in H.
  destruct H as (_ & _ & _ & _ & _ & _ & _ & _ & Hc & _).
  destruct (Z.ltb_spec 0 (border_size o)); [|lia]. destruct Hc as [-> _].
  split.
  - pose proof (crop_shape _ _ _ _ _ Hb Hshape) as Hs. cbv zeta in Hs. fold B in Hs.
    rewrite !decide_True in Hs by lia. exact Hs.
  - intros i j k Hi Hj Hk. apply (lookup3_crop _ n0 n1 n2); (assumption || lia).
Qed.

Lemma cropped_boundary_cells_witness :
  let f := frame_of (run ring (opts 0 0 1) []) in
  has_shape 1 1 3 (boundary_cropped f) /\
  lookup3 (boundary_cropped f) 0 0 1 = Some 5%float.
Proof.
  destruct (cropped_boundary_cells
              "STACKED_prediction.h5" "/volume/predictions" grab_channel
              (fun m => Return (label m))
              (fun a n => Return (remove_small_connected_components a n))
              (fun b s => Return (watershed b s))
              (world_with (stack_of ring)) (opts 0 0 1) []
              (snd (run ring (opts 0 0 1) []))
              (frame_of (run ring (opts 0 0 1) [])) 3 3 5
              ltac:(vm_compute; reflexivity) ltac:(reflexivity)
              ltac:(vm_compute; reflexivity)
              ltac:(vm_compute; lia) ltac:(vm_compute; lia) ltac:(vm_compute; lia))
    as [Hs Hc].
  split; [exact Hs|].
  rewrite (Hc 0 0 1) by (vm_compute; lia). vm_compute. reflexivity.
Defined.

(** X7.  With the collaborators of the specification, cropping the
    returned volume by the border gives back the flood's result: the
    paste of lines 114 and 115 and the crop of line 102 are inverse on the
    interior, for every positive border. *)
Theorem crop_of_supervoxels_is_the_flood
        file group grab (W : world) (o : options) (lg lg' : logger)
        (f : frame) (n0 n1 n2 : nat) :
  create_labels_frame (Lib.globals file group grab) W o lg = (Return f, lg') ->
  (0 < border_size o)%Z ->
  has_shape n0 n1 n2 (boundary f) ->
  let b := border_size o in
  getitem3 b (- b) b (- b) b (- b) (supervoxels f) = supervoxels_cropped f /\
  supervoxels_cropped f = watershed (boundary_cropped f) (seeds_cropped f).
Proof.
  intros H Hb Hbd b.
  destruct (lib_run_shapes _ _ _ _ _ _ _ _ _ _ _ H Hbd) as [Hsd _].
  apply lib_run_inv in H as (_ & _ & Hw & Hsv).
  split; [|exact Hw].
  fold b in Hsv. destruct (Z.ltb_spec 0 b); [|lia].
  assert (has_shape n0 n1 n2 (fill3 0%Z (seeds f))) as Hfill
      by (apply has_shape_map3, Hsd).
  destruct (setitem3_border b n0 n1 n2 _ _ _ Hb Hfill Hsv) as (Hs & Hsrc & _).
  destruct (pasted_cells b n0 n1 n2 _ _ _ Hb Hsd Hsv) as [_ Hcells].
  pose proof (crop_shape b n0 n1 n2 _ Hb Hs) as Hcrop. cbv zeta in Hcrop.
  eapply array3_ext; [exact Hcrop | exact Hsrc |].
  intros i j k Hi Hj Hk.
  destruct (decide (0 < n0)) as [Hn0|]; [|lia].
  rewrite decide_True in Hk by (split; [exact Hn0 | destruct (decide (0 < n1)); lia]).
  rewrite (lookup3_crop b n0 n1 n2) by (assumption || lia).
  rewrite Hcells by lia. rewrite decide_True by lia.
  f_equal; lia.
Qed.

Lemma crop_of_supervoxels_is_the_flood_witness :
  let f := frame_of (run ring (opts 0 0 1) []) in
  getitem3 1 (-1) 1 (-1) 1 (-1) (supervoxels f) = [[[1; 1; 2]]]%Z.
Proof.
  intros f. subst f.
  destruct (crop_of_supervoxels_is_the_flood
              "STACKED_prediction.h5" "/volume/predictions" grab_channel
              (world_with (stack_of ring)) (opts 0 0 1) []
              (snd (run ring (opts 0 0 1) []))
              (frame_of (run ring (opts 0 0 1) [])) 3 3 5
              ltac:(vm_compute; reflexivity) ltac:(reflexivity)
              ltac:(vm_compute; reflexivity)) as [Hcrop _].
  etransitivity; [exact Hcrop|].
  vm_compute. reflexivity.
Defined.

(** ** The driver *)

Import Driver.

Lemma bind_Done {A B} (m : IO A) (k : A -> IO B) st a st' :
  m st = (Done a, st') -> Driver.bind m k st = k a st'.
Proof. unfold Driver.bind. intros ->. reflexivity. Qed.

Lemma bind_Raised {A B} (m : IO A) (k : A -> IO B) st e st' :
  m st = (Raised e, st') -> Driver.bind m k st = (Raised e, st').
Proof. unfold Driver.bind. intros ->. reflexivity. Qed.

Lemma try_except_Raised {A} (body : IO A) (h : exn -> IO A) st e st' :
  body st = (Raised e, st') -> try_except body h st = h e st'.
Proof. unfold try_except. intros ->. reflexivity. Qed.

Lemma getitem_Some {A} (l : list A) i x st :
  l !! i = Some x -> getitem l i st = (Done x, st).
Proof. unfold getitem. intros ->. reflexivity. Qed.

Lemma three_entries {A} (l : list A) :
  3 <= length l -> exists x y z, l !! 0 = Some x /\ l !! 1 = Some y /\ l !! 2 = Some z.
Proof.
  destruct l as [|x [|y [|z l]]]; simpl; try lia. intros _.
  exists x, y, z. repeat split.
Qed.

(** The template names a field the call gives no value for. *)
Lemma ilastik_template_KeyError (c p : string) :
  format ilastik_template []
         (<["project_file" := c]> (<["pixel_prob_filename" := p]> ∅))
  = Raised (KeyError "coords").
Proof. reflexivity. Qed.

(** X1.  [gen_watershed] never gets to run ilastik: with bounding boxes
    of three entries or more it logs two records and raises
    [KeyError('coords')] from the [format] call of lines 153 to 163, with
    no temporary directory made, no command run and [create_labels] not
    called. *)
Theorem gen_watershed_raises_KeyError
        (G : gmap string pyobj) (W : world) (S : services)
        (session_location : string) (o : session_options) (st : state) :
  is_Some (G !! "os") ->
  3 <= length (bbox1 o) -> 3 <= length (bbox2 o) ->
  gen_watershed G W S session_location o st
  = (Raised (KeyError "coords"),
     {| log := log st ++ [(INFO, Text "Generating Pixel Probabilities");
                          (INFO, Text "Running Ilastik in headless mode")];
        trace := trace st |}).
Proof.
  intros [os Hos] H1 H2.
  destruct (three_entries _ H1) as (x0 & x1 & x2 & E0 & E1 & E2).
  destruct (three_entries _ H2) as (y0 & y1 & y2 & F0 & F1 & F2).
  unfold gen_watershed, bind. destruct st as [lg tr]. cbn [of_M info log trace].
  rewrite (getitem_Some _ _ _ _ E2), (getitem_Some _ _ _ _ E1),
    (getitem_Some _ _ _ _ E0), (getitem_Some _ _ _ _ F2),
    (getitem_Some _ _ _ _ F1), (getitem_Some _ _ _ _ F0).
  cbn [of_M info log trace]. unfold load_global. rewrite Hos.
  cbn [Py.ret log trace]. unfold lift. rewrite ilastik_template_KeyError.
  rewrite <- app_assoc. reflexivity.
Qed.

Lemma gen_watershed_raises_KeyError_witness :
  fst (gen_watershed module_globals (Examples.world_with []) services_ok "session"
                     (box_options [0; 0; 0]%Z [50; 50; 50]%Z)
                     {| log := []; trace := [] |})
  = Raised (KeyError "coords").
Proof.
  rewrite (gen_watershed_raises_KeyError
             module_globals (Examples.world_with []) services_ok "session"
             (box_options [0; 0; 0]%Z [50; 50; 50]%Z) {| log := []; trace := [] |}).
  - reflexivity.
  - vm_compute. eexists. reflexivity.
  - vm_compute. lia.
  - vm_compute. lia.
Defined.

(** X2.  A bounding box with fewer than three entries: [gen_watershed]
    raises [IndexError] at line 147 or 148, after its first log record
    and before anything else. *)
Theorem gen_watershed_short_bbox
        (G : gmap string pyobj) (W : world) (S : services)
        (session_location : string) (o : session_options) (st : state) :
  length (bbox1 o) < 3 \/ length (bbox2 o) < 3 ->
  gen_watershed G W S session_location o st
  = (Raised (IndexError "list index out of range"),
     {| log := log st ++ [(INFO, Text "Generating Pixel Probabilities")];
        trace := trace st |}).
Proof.
  intros H. unfold gen_watershed, bind. destruct st as [lg tr].
  cbn [of_M info log trace].
  destruct (decide (length (bbox1 o) < 3)) as [H1|H1].
  - unfold getitem at 1. rewrite (lookup_ge_None_2 (bbox1 o) 2) by lia. reflexivity.
  - destruct (three_entries (bbox1 o) ltac:(lia)) as (x0 & x1 & x2 & E0 & E1 & E2).
    rewrite (getitem_Some _ _ _ _ E2), (getitem_Some _ _ _ _ E1),
      (getitem_Some _ _ _ _ E0).
    unfold getitem at 1. rewrite (lookup_ge_None_2 (bbox2 o) 2) by lia. reflexivity.
Qed.

Lemma gen_watershed_short_bbox_witness :
  fst (gen_watershed module_globals (Examples.world_with []) services_ok "session"
                     (box_options [0; 0; 0]%Z [50; 50]%Z)
                     {| log := []; trace := [] |})
  = Raised (IndexError "list index out of range").
Proof.
  rewrite (gen_watershed_short_bbox
             module_globals (Examples.world_with []) services_ok "session"
             (box_options [0; 0; 0]%Z [50; 50]%Z) {| log := []; trace := [] |}).
  - reflexivity.
  - right. vm_compute. lia.
Defined.

(** X3.  [entrypoint] swallows its own failure: once the logger is made,
    reading [create_pixel_options], a name the module binds nowhere,
    raises [NameError] inside the [try]; the handler logs it and the call
    returns.  No session is made and nothing else is called. *)
Theorem entrypoint_logs_NameError_and_returns
        (S : services) (argv : list string) (st : state) :
  AppLogger S false "gen-pixel" = Done tt ->
  entrypoint module_globals S argv st
  = (Done tt,
     {| log := log st;
        trace := trace st ++ [NewAppLogger false "gen-pixel";
                              LoggedError (Base (NameError "create_pixel_options"))] |}).
Proof.
  intros H. unfold entrypoint. destruct st as [lg tr].
  erewrite bind_Done by reflexivity.
  erewrite bind_Done by reflexivity.
  erewrite bind_Done by (unfold lift; rewrite H; reflexivity).
  erewrite try_except_Raised; cycle 1.
  { erewrite bind_Done by reflexivity.
    erewrite bind_Raised by reflexivity. reflexivity. }
  erewrite bind_Done by reflexivity.
  unfold emit. cbn [log trace]. rewrite <- app_assoc. reflexivity.
Qed.

Lemma entrypoint_logs_NameError_and_returns_witness :
  trace (snd (entrypoint module_globals services_ok ["gala-watershed"]
                         {| log := []; trace := [] |}))
  = [NewAppLogger false "gen-pixel";
     LoggedError (Base (NameError "create_pixel_options"))].
Proof.
  rewrite (entrypoint_logs_NameError_and_returns
             services_ok ["gala-watershed"] {| log := []; trace := [] |}).
  - reflexivity.
  - reflexivity.
Defined.

(** * [gala/viz.py] *)

Import Viz.

(** ** [np.unique] *)

Lemma elem_of_insert_unique x l z : z ∈ insert_unique x l <-> z = x \/ z ∈ l.
Proof.
  induction l as [|y l IH]; simpl.
  - rewrite list_elem_of_singleton, elem_of_nil. tauto.
  - destruct (Z.ltb_spec x y); [rewrite elem_of_cons; tauto|].
    destruct (Z.eqb_spec x y) as [->|].
    + rewrite elem_of_cons. tauto.
    + rewrite !elem_of_cons, IH. tauto.
Qed.

Lemma elem_of_unique l z : z ∈ unique l <-> z ∈ l.
Proof.
  induction l as [|x l IH]; simpl; [reflexivity|].
  rewrite elem_of_insert_unique, elem_of_cons, IH. reflexivity.
Qed.

Lemma insert_unique_sorted x l :
  StronglySorted Z.lt l -> StronglySorted Z.lt (insert_unique x l).
Proof.
  induction 1 as [|y l Hl IH Hy]; simpl.
  - repeat constructor.
  - destruct (Z.ltb_spec x y).
    + constructor; [constructor; assumption|].
      constructor; [assumption|]. eapply Forall_impl; [exact Hy|]. simpl. lia.
    + destruct (Z.eqb_spec x y); [constructor; assumption|].
      constructor; [exact IH|]. apply Forall_forall. intros z Hz.
      apply elem_of_insert_unique in Hz as [->|Hz]; [lia|].
      rewrite Forall_forall in Hy. apply Hy, Hz.
Qed.

Lemma unique_sorted l : StronglySorted Z.lt (unique l).
Proof.
  induction l as [|x l IH]; simpl; [constructor | apply insert_unique_sorted, IH].
Qed.

Lemma sorted_NoDup l : StronglySorted Z.lt l -> NoDup l.
Proof.
  induction 1 as [|y l Hl IH Hy]; constructor; [|exact IH].
  intros Hin. rewrite Forall_forall in Hy. specialize (Hy _ Hin). lia.
Qed.

(** ** Masks, picking and writing cells *)

Lemma elem_of_nonzero_from off m i :
  i ∈ nonzero_from off m <-> off <= i /\ m !! (i - off) = Some true.
Proof.
  revert off. induction m as [|b m IH]; intros off; simpl.
  - rewrite elem_of_nil. split; [tauto | intros [_ H]; discriminate].
  - rewrite elem_of_app, IH. destruct (decide (i = off)) as [->|Hne].
    + rewrite Nat.sub_diag. simpl. destruct b.
      * rewrite list_elem_of_singleton. split; [intros _; split; [lia|reflexivity]|tauto].
      * rewrite elem_of_nil. split; [intros [[]|[? _]]; lia | intros [_ H]; discriminate].
    + assert (Hb : i ∈ (if b then [off] else []) -> False).
      { destruct b; [rewrite list_elem_of_singleton | rewrite elem_of_nil]; tauto. }
      split.
      * intros [H|[H1 H2]]; [tauto|]. split; [lia|].
        replace (i - off) with (S (i - S off)) by lia. exact H2.
      * intros [H1 H2]. right. split; [lia|].
        replace (i - off) with (S (i - S off)) in H2 by lia. exact H2.
Qed.

Lemma elem_of_mask seg u i : i ∈ nonzero (eq_mask seg u) <-> seg !! i = Some u.
Proof.
  unfold nonzero, eq_mask. rewrite elem_of_nonzero_from, Nat.sub_0_r.
  rewrite list_lookup_fmap. destruct (seg !! i) as [x|]; simpl.
  - destruct (Z.eqb_spec x u) as [->|]; split; try tauto; try (intros [_ H]; congruence).
    + intros _. split; [lia | reflexivity].
    + intros H. congruence.
  - split; [intros [_ H]; discriminate | discriminate].
Qed.

Section PutAt.
Context {V : Type}.
Implicit Types (a : list V) (idx : list nat).

Lemma length_put_at a idx c : length (put_at a idx c) = length a.
Proof.
  unfold put_at. induction idx as [|i idx IH]; simpl; [reflexivity|].
  rewrite length_insert. exact IH.
Qed.

Lemma lookup_put_at a idx c i :
  i < length a ->
  put_at a idx c !! i = if decide (i ∈ idx) then Some c else a !! i.
Proof.
  intros Hi. induction idx as [|j idx IH].
  - destruct (decide (i ∈ [])) as [H|]; [|reflexivity].
    apply elem_of_nil in H. destruct H.
  - change (put_at a (j :: idx) c) with (<[j := c]> (put_at a idx c)).
    destruct (decide (j = i)) as [->|Hne].
    + rewrite list_lookup_insert_eq by (rewrite length_put_at; exact Hi).
      destruct (decide (i ∈ i :: idx)) as [|H]; [reflexivity|].
      exfalso. apply H, list_elem_of_here.
    + rewrite list_lookup_insert_ne by exact Hne. rewrite IH.
      destruct (decide (i ∈ idx)) as [H|H], (decide (i ∈ j :: idx)) as [H'|H'];
        try reflexivity.
      * exfalso. apply H', list_elem_of_further, H.
      * exfalso. apply elem_of_cons in H' as [->|H']; tauto.
Qed.

Lemma mapM_cons_step {X} (f : nat -> option X) i l :
  mapM f (i :: l)
  = match f i with
    | Some x => match mapM f l with Some k => Some (x :: k) | None => None end
    | None => None
    end.
Proof. simpl. destruct (f i); [|reflexivity]. simpl. destruct (mapM f l); reflexivity. Qed.

Lemma mapM_mask_from off seg (im : list V) u :
  length seg <= length (drop off im) ->
  mapM (fun i => im !! i) (nonzero_from off (eq_mask seg u))
  = Some (segment seg (drop off im) u).
Proof.
  revert off. induction seg as [|x seg IH]; intros off Hlen; [reflexivity|].
  destruct (drop off im) as [|v rest] eqn:Hd; [simpl in Hlen; lia|].
  assert (im !! off = Some v) as Hv.
  { rewrite <- (Nat.add_0_r off), <- lookup_drop, Hd. reflexivity. }
  assert (drop (S off) im = rest) as Hrest.
  { rewrite <- (Nat.add_1_r off), <- drop_drop, Hd. reflexivity. }
  simpl in Hlen. specialize (IH (S off)). rewrite Hrest in IH.
  specialize (IH ltac:(lia)).
  change (nonzero_from off (eq_mask (x :: seg) u))
    with ((if (x =? u)%Z then [off] else []) ++ nonzero_from (S off) (eq_mask seg u)).
  change (segment (x :: seg) (v :: rest) u)
    with (snd <$> filter (fun p : Z * V => fst p = u) ((x, v) :: zip seg rest)).
  rewrite filter_cons. simpl fst.
  destruct (Z.eqb_spec x u) as [->|Hne].
  - rewrite decide_True by reflexivity.
    change ([off] ++ nonzero_from (S off) (eq_mask seg u))
      with (off :: nonzero_from (S off) (eq_mask seg u)).
    rewrite mapM_cons_step, Hv, IH. reflexivity.
  - rewrite decide_False by exact Hne. exact IH.
Qed.

Lemma take_at_mask seg (im : list V) u :
  length seg <= length im ->
  take_at im (nonzero (eq_mask seg u)) = Ok (segment seg im u).
Proof.
  intros H. unfold take_at, nonzero.
  rewrite (mapM_mask_from 0 seg im u) by (rewrite drop_0; exact H).
  rewrite drop_0. reflexivity.
Qed.
End PutAt.

(** ** [draw_seg] *)

Lemma existsb_zero seg : existsb (fun x => (x =? 0)%Z) seg = true <-> 0%Z ∈ seg.
Proof.
  induction seg as [|x seg IH]; simpl.
  - rewrite elem_of_nil. split; [discriminate | tauto].
  - rewrite orb_true_iff, IH, elem_of_cons, Z.eqb_eq. split; intros [H|H]; auto.
Qed.

(** The least label comes first in [unique], and the rest are the other
    labels. *)
Lemma unique_least seg m :
  m ∈ seg -> Forall (fun x => (m <= x)%Z) seg ->
  exists rest, unique seg = m :: rest /\
               forall u, u ∈ rest <-> u ∈ seg /\ u <> m.
Proof.
  intros Hm Hle. pose proof (unique_sorted seg) as Hs.
  destruct (unique seg) as [|m' rest] eqn:E.
  - apply elem_of_unique in Hm. rewrite E in Hm. apply elem_of_nil in Hm. destruct Hm.
  - apply StronglySorted_inv in Hs as [Hs Hrest]. rewrite Forall_forall in Hrest, Hle.
    assert (m' ∈ seg) as Hm' by (apply elem_of_unique; rewrite E; apply list_elem_of_here).
    assert (m' = m) as ->.
    { apply elem_of_unique in Hm. rewrite E in Hm.
      apply elem_of_cons in Hm as [->|Hm]; [reflexivity|].
      specialize (Hrest _ Hm). specialize (Hle _ Hm'). lia. }
    exists rest. split; [reflexivity|]. intros u. split.
    + intros Hu. split.
      * apply elem_of_unique. rewrite E. apply list_elem_of_further, Hu.
      * specialize (Hrest _ Hu). lia.
    + intros [Hu Hne]. apply elem_of_unique in Hu. rewrite E in Hu.
      apply elem_of_cons in Hu as [->|Hu]; [congruence | exact Hu].
Qed.

Lemma coloured_labels_NoDup seg : NoDup (coloured_labels seg).
Proof.
  unfold coloured_labels. pose proof (sorted_NoDup _ (unique_sorted seg)) as H.
  destruct (existsb _ seg); [|exact H].
  destruct (unique seg); [exact H|]. apply NoDup_cons in H as [_ H]. exact H.
Qed.

Section DrawSegFacts.
Context {V : Type} (zero : V) (mean : list V -> V).

Lemma draw_fold seg (im : list V) L :
  length seg = length im -> NoDup L ->
  forall done out,
    length out = length im ->
    (forall u, u ∈ L -> u ∉ done) ->
    (forall i u, seg !! i = Some u ->
       out !! i = Some (if decide (u ∈ done) then mean (segment seg im u) else zero)) ->
    exists out',
      fold_left (draw_step mean seg im) L (Ok out) = Ok out' /\
      length out' = length im /\
      forall i u, seg !! i = Some u ->
        out' !! i
        = Some (if decide (u ∈ done ++ L) then mean (segment seg im u) else zero).
Proof.
  intros Hlen. induction L as [|v L IH]; intros HL done out Hout Hfresh Hinv.
  - exists out. rewrite app_nil_r. auto.
  - apply NoDup_cons in HL as [Hv HL]. simpl.
    rewrite take_at_mask by lia.
    set (out1 := put_at out (nonzero (eq_mask seg v)) (mean (segment seg im v))).
    destruct (IH HL (done ++ [v]) out1) as (out' & Hfold & Hlen' & Hcells).
    + unfold out1. rewrite length_put_at. exact Hout.
    + intros u Hu Hin. apply elem_of_app in Hin as [Hin|Hin].
      * apply (Hfresh u); [apply list_elem_of_further, Hu | exact Hin].
      * apply list_elem_of_singleton in Hin as ->. tauto.
    + intros i u Hi. unfold out1.
      rewrite lookup_put_at by (apply lookup_lt_Some in Hi; lia).
      destruct (decide (i ∈ nonzero (eq_mask seg v))) as [Hm|Hm].
      * apply elem_of_mask in Hm. assert (u = v) as -> by congruence.
        rewrite decide_True; [reflexivity|].
        apply elem_of_app. right. apply list_elem_of_here.
      * rewrite (Hinv i u Hi). f_equal.
        assert (u <> v) as Hne by (intros ->; apply Hm, elem_of_mask, Hi).
        destruct (decide (u ∈ done)) as [H|H], (decide (u ∈ done ++ [v])) as [H'|H'];
          try reflexivity.
        -- exfalso. apply H', elem_of_app. left. exact H.
        -- exfalso. apply elem_of_app in H' as [H'|H']; [tauto|].
           apply list_elem_of_singleton in H'. tauto.
    + exists out'. split; [exact Hfold|]. split; [exact Hlen'|].
      intros i u Hi. rewrite (Hcells i u Hi), <- app_assoc. reflexivity.
Qed.

(** Every cell of the result, whatever the labels are. *)
Lemma draw_seg_cells seg (im : list V) :
  length seg = length im ->
  exists out,
    draw_seg zero mean seg im = Ok out /\
    length out = length im /\
    forall i u, seg !! i = Some u ->
      out !! i
      = Some (if decide (u ∈ coloured_labels seg) then mean (segment seg im u)
              else zero).
Proof.
  intros Hlen.
  destruct (draw_fold seg im (coloured_labels seg) Hlen (coloured_labels_NoDup seg)
              [] (replicate (length im) zero)) as (out & Hfold & Hl & Hcells).
  - apply length_replicate.
  - intros u _. apply not_elem_of_nil.
  - intros i u Hi. rewrite lookup_replicate_2 by (apply lookup_lt_Some in Hi; lia).
    rewrite decide_False by apply not_elem_of_nil. reflexivity.
  - exists out. split; [exact Hfold|]. split; [exact Hl|]. exact Hcells.
Qed.
End DrawSegFacts.

Section DrawSegProperties.
Context {V : Type} (zero : V) (mean : list V -> V).

(** X8.  A segmentation with no negative label, over an image of its
    shape: [draw_seg] returns an image of that shape in which the cells
    labelled 0 are zero and every other cell holds the mean of the image
    over the cells that carry its label. *)
Theorem draw_seg_colours_segments (seg : list Z) (im : list V) :
  length seg = length im ->
  Forall (fun x => (0 <= x)%Z) seg ->
  exists out,
    draw_seg zero mean seg im = Ok out /\
    length out = length im /\
    forall i u, seg !! i = Some u ->
      out !! i = Some (if decide (u = 0%Z) then zero else mean (segment seg im u)).
Proof.
  intros Hlen Hpos.
  destruct (draw_seg_cells zero mean seg im Hlen) as (out & Hrun & Hl & Hcells).
  exists out. split; [exact Hrun|]. split; [exact Hl|].
  intros i u Hi. rewrite (Hcells i u Hi). f_equal.
  assert (u ∈ seg) as Hu by (eapply list_elem_of_lookup_2, Hi).
  assert (u ∈ coloured_labels seg <-> u <> 0%Z) as Hiff.
  { unfold coloured_labels. destruct (existsb _ seg) eqn:E.
    - apply existsb_zero in E.
      destruct (unique_least seg 0%Z E Hpos) as (rest & -> & Hrest).
      simpl. rewrite Hrest. tauto.
    - rewrite elem_of_unique. split; [|tauto]. intros _ ->.
      apply existsb_zero in Hu. congruence. }
  destruct (decide (u ∈ coloured_labels seg)), (decide (u = 0%Z)); tauto.
Qed.

(** X9.  Cells with one label get one colour, whatever the labels are:
    the result is uniform on every segment. *)
Theorem draw_seg_uniform_on_segments (seg : list Z) (im : list V) :
  length seg = length im ->
  exists out,
    draw_seg zero mean seg im = Ok out /\
    forall i j u, seg !! i = Some u -> seg !! j = Some u -> out !! i = out !! j.
Proof.
  intros Hlen.
  destruct (draw_seg_cells zero mean seg im Hlen) as (out & Hrun & _ & Hcells).
  exists out. split; [exact Hrun|].
  intros i j u Hi Hj. rewrite (Hcells i u Hi), (Hcells j u Hj). reflexivity.
Qed.

(** X10.  The label that line 149 drops is the least one, not zero: when
    some cell is labelled 0 and the least label [m] is negative, the
    cells labelled [m] are left zero and the cells labelled 0 are given
    the mean of the image over them. *)
Theorem draw_seg_drops_the_least_label (seg : list Z) (im : list V) (m : Z) :
  length seg = length im ->
  0%Z ∈ seg -> m ∈ seg -> (m < 0)%Z ->
  Forall (fun x => (m <= x)%Z) seg ->
  exists out,
    draw_seg zero mean seg im = Ok out /\
    (forall i, seg !! i = Some m -> out !! i = Some zero) /\
    (forall i, seg !! i = Some 0%Z -> out !! i = Some (mean (segment seg im 0%Z))).
Proof.
  intros Hlen H0 Hm Hneg Hle.
  destruct (draw_seg_cells zero mean seg im Hlen) as (out & Hrun & _ & Hcells).
  exists out. split; [exact Hrun|].
  assert (forall u, u ∈ coloured_labels seg <-> u ∈ seg /\ u <> m) as Hiff.
  { intros u. unfold coloured_labels.
    rewrite (proj2 (existsb_zero seg) H0).
    destruct (unique_least seg m Hm Hle) as (rest & -> & Hrest). simpl. apply Hrest. }
  split; intros i Hi; rewrite (Hcells i _ Hi).
  - rewrite decide_False; [reflexivity|]. rewrite Hiff. tauto.
  - rewrite decide_True; [reflexivity|]. rewrite Hiff. split; [exact H0 | lia].
Qed.
End DrawSegProperties.

Lemma draw_seg_colours_segments_witness :
  exists out,
    draw_seg 0%Z int_mean [1; 1; 2; 2; 1; 2; 2; 3; 2; 2; 3; 0]%Z
             [50; 20; 100; 90; 20; 80; 90; 60; 90; 90; 40; 50]%Z = Ok out /\
    out !! 7 = Some 50%Z /\ out !! 11 = Some 0%Z.
Proof.
  destruct (draw_seg_colours_segments
              0%Z int_mean [1; 1; 2; 2; 1; 2; 2; 3; 2; 2; 3; 0]%Z
              [50; 20; 100; 90; 20; 80; 90; 60; 90; 90; 40; 50]%Z
              ltac:(reflexivity) ltac:(repeat constructor; discriminate))
    as (out & Hrun & _ & Hcells).
  exists out. split; [exact Hrun|]. split.
  - rewrite (Hcells 7 3%Z) by reflexivity. vm_compute. reflexivity.
  - rewrite (Hcells 11 0%Z) by reflexivity. vm_compute. reflexivity.
Defined.

Lemma draw_seg_uniform_on_segments_witness :
  exists out,
    draw_seg 0%Z int_mean [0; 4; 4; 0; 7]%Z [10; 20; 40; 30; 70]%Z = Ok out /\
    out !! 1 = out !! 2.
Proof.
  destruct (draw_seg_uniform_on_segments
              0%Z int_mean [0; 4; 4; 0; 7]%Z [10; 20; 40; 30; 70]%Z
              ltac:(reflexivity)) as (out & Hrun & Hsame).
  exists out. split; [exact Hrun|].
  apply (Hsame 1 2 4%Z); reflexivity.
Defined.

Lemma draw_seg_drops_the_least_label_witness :
  exists out,
    draw_seg 0%Z int_mean [0; -1; 2; 2; 0]%Z [50; 20; 100; 90; 20]%Z = Ok out /\
    out !! 1 = Some 0%Z /\ out !! 4 = Some 35%Z.
Proof.
  destruct (draw_seg_drops_the_least_label
              0%Z int_mean [0; -1; 2; 2; 0]%Z [50; 20; 100; 90; 20]%Z (-1)%Z
              ltac:(reflexivity)
              ltac:(apply list_elem_of_here)
              ltac:(apply list_elem_of_further, list_elem_of_here)
              ltac:(reflexivity)
              ltac:(repeat constructor; discriminate))
    as (out & Hrun & Hm & H0).
  exists out. split; [exact Hrun|]. split.
  - apply (Hm 1). reflexivity.
  - rewrite (H0 4) by reflexivity. vm_compute. reflexivity.
Defined.

(** ** Drawing *)

Section Drawing.
Context {I A : Type}.

Lemma bind_Ok {R S} (m : drawing I A R) (k : R -> drawing I A S) calls x :
  m = (calls, Ok x) -> Viz.bind m k = (calls ++ (k x).1, (k x).2).
Proof. intros ->. simpl. destruct (k x). reflexivity. Qed.

Lemma bind_Err {R S} (m : drawing I A R) (k : R -> drawing I A S) calls e :
  m = (calls, Err e) -> Viz.bind m k = (calls, Err e).
Proof. intros ->. reflexivity. Qed.

End Drawing.

(** ** [display_3d_segmentations] *)

(** The candidate arrangements, in the order of line 187. *)
Lemma candidate_plot_arrangements :
  combinations_with_replacement (seq 1 4)
  = [(1, 1); (1, 2); (1, 3); (1, 4); (2, 2); (2, 3); (2, 4); (3, 3); (3, 4); (4, 4)].
Proof. reflexivity. Qed.

Lemma plot_arrangement_none numplots :
  16 < numplots ->
  plot_arrangement numplots = Err (IndexError "list index out of range").
Proof.
  intros H. unfold plot_arrangement. rewrite candidate_plot_arrangements.
  assert (forall l : list (nat * nat),
            Forall (fun p => p.1 * p.2 <= 16) l ->
            filter (fun p => numplots <= p.1 * p.2) l = []) as Hnil.
  { intros l Hl. induction Hl as [|p l Hp _ IH]; [reflexivity|].
    rewrite filter_cons_False by lia. exact IH. }
  rewrite Hnil; [reflexivity|]. repeat constructor; simpl; lia.
Qed.

Lemma arrangements_checked : forallb arrangement_checked (seq 0 17) = true.
Proof. vm_compute. reflexivity. Qed.

Lemma plot_arrangement_some numplots :
  numplots <= 16 ->
  exists rows cols,
    plot_arrangement numplots = Ok (rows, cols) /\
    numplots <= rows * cols /\ 1 <= rows <= cols /\ cols <= 4 /\
    forall p, p ∈ combinations_with_replacement (seq 1 4) ->
              numplots <= p.1 * p.2 -> rows * cols <= p.1 * p.2.
Proof.
  intros H. pose proof arrangements_checked as Hall.
  rewrite forallb_forall in Hall.
  specialize (Hall numplots). unfold arrangement_checked in Hall.
  destruct (plot_arrangement numplots) as [[rows cols]|e].
  - exists rows, cols. split; [reflexivity|].
    assert (In numplots (seq 0 17)) as Hin by (apply in_seq; lia).
    apply Hall in Hin. rewrite !andb_true_iff in Hin.
    destruct Hin as ((((H1 & H2) & H3) & H4) & H5).
    apply Nat.leb_le in H1, H2, H3, H4. repeat split; try assumption.
    intros p Hp Hroom. rewrite forallb_forall in H5.
    apply list_elem_of_In in Hp. apply H5 in Hp.
    apply orb_true_iff in Hp as [Hp|Hp].
    + apply Nat.ltb_lt in Hp. lia.
    + apply Nat.leb_le in Hp. exact Hp.
  - assert (In numplots (seq 0 17)) as Hin by (apply in_seq; lia).
    apply Hall in Hin. discriminate.
Qed.

Lemma combinations_with_replacement_spec l i j :
  (i, j) ∈ combinations_with_replacement l
  <-> exists a b, a <= b /\ l !! a = Some i /\ l !! b = Some j.
Proof.
  revert i j. induction l as [|x l IH]; intros i j.
  - simpl. rewrite elem_of_nil. split; [tauto|]. intros (a & b & _ & H & _). discriminate.
  - change (combinations_with_replacement (x :: l))
      with ((pair x <$> (x :: l)) ++ combinations_with_replacement l).
    rewrite elem_of_app, list_elem_of_fmap, IH. split.
    + intros [(y & Heq & Hy)|(a & b & Hab & Ha & Hb)].
      * injection Heq as -> ->. apply list_elem_of_lookup in Hy as [b Hb].
        exists 0, b. split; [lia|]. split; [reflexivity | exact Hb].
      * exists (S a), (S b). split; [lia|]. split; assumption.
    + intros (a & b & Hab & Ha & Hb). destruct a as [|a].
      * left. injection Ha as ->. exists j. split; [reflexivity|].
        eapply list_elem_of_lookup_2, Hb.
      * right. destruct b as [|b]; [lia|]. exists a, b.
        split; [lia|]. split; assumption.
Qed.

Section Display.
Context {I A : Type}
        (ceil_max : I -> res Z)
        (roll_slice : I -> Z -> option Z -> res I).

Lemma show_segmentations_calls rows cols axis z (sl : I -> I) (n : I -> Z) rest :
  Forall (fun a => roll_slice a axis z = Ok (sl a)) rest ->
  Forall (fun a => ceil_max (sl a) = Ok (n a) /\ (0 <= n a)%Z) rest ->
  forall pre j,
    show_segmentations (A:=A) ceil_max roll_slice rows cols (pre ++ rest) axis z
                       (length pre) (seq j (length rest))
    = (mjoin (zip_with (plot_calls rows cols) (seq j (length rest))
                       ((fun a => ImshowRandom Fresh (n a) (sl a)) <$> rest)),
       Ok tt).
Proof.
  intros Hroll Hmax. induction rest as [|a rest IH]; intros pre j; [reflexivity|].
  apply Forall_cons in Hroll as [Ha Hroll]. apply Forall_cons in Hmax as [[Hn Hpos] Hmax].
  simpl. rewrite lookup_app_r by lia. rewrite Nat.sub_diag. simpl.
  rewrite Ha. simpl. unfold imshow_rand. simpl. rewrite Hn. simpl.
  destruct (n a <? 0)%Z eqn:E; [apply Z.ltb_lt in E; lia|]. simpl.
  specialize (IH Hroll Hmax (pre ++ [a]) (S j)).
  rewrite <- app_assoc, length_app in IH. simpl in IH.
  rewrite Nat.add_1_r in IH. rewrite IH. reflexivity.
Qed.

End Display.

(** X11.  The arrangement line 191 picks for up to sixteen plots has
    room for them, is one of the candidates (at most four rows, at most
    four columns, no more rows than columns), and no candidate with
    room has fewer cells. *)
Theorem plot_arrangement_is_least (numplots : nat) :
  numplots <= 16 ->
  exists rows cols,
    plot_arrangement numplots = Ok (rows, cols) /\
    numplots <= rows * cols /\ 1 <= rows <= cols /\ cols <= 4 /\
    forall rows' cols',
      1 <= rows' <= cols' -> cols' <= 4 -> numplots <= rows' * cols' ->
      rows * cols <= rows' * cols'.
Proof.
  intros H.
  destruct (plot_arrangement_some numplots H) as (rows & cols & Hp & Hroom & Hr & Hc & Hleast).
  exists rows, cols. repeat split; try assumption; try lia.
  intros rows' cols' Hr' Hc' Hroom'.
  apply (Hleast (rows', cols')); [|exact Hroom'].
  apply combinations_with_replacement_spec.
  exists (rows' - 1), (cols' - 1). split; [lia|].
  split; apply lookup_seq; lia.
Qed.

Lemma plot_arrangement_is_least_witness :
  exists rows cols,
    plot_arrangement 5 = Ok (rows, cols) /\ rows * cols = 6.
Proof.
  destruct (plot_arrangement_is_least 5 ltac:(lia))
    as (rows & cols & Hp & Hroom & Hr & Hc & Hleast).
  exists rows, cols. split; [exact Hp|].
  pose proof (Hleast 2 3 ltac:(lia) ltac:(lia) ltac:(simpl; lia)) as H.
  simpl in H. assert (rows * cols <> 5) as Hne; [|lia].
  destruct Hr as [Hr1 Hr2].
  assert (cols = 1 \/ cols = 2 \/ cols = 3 \/ cols = 4) as Hcs by lia.
  assert (rows = 1 \/ rows = 2 \/ rows = 3 \/ rows = 4) as Hrs by lia.
  destruct Hcs as [-> | [-> | [-> | ->]]], Hrs as [-> | [-> | [-> | ->]]]; simpl; lia.
Defined.

Section DisplayProperties.
Context {I A : Type}
        (ceil_max : I -> res Z)
        (roll_slice : I -> Z -> option Z -> res I).

(** X12.  More than sixteen plots (the segmentations, the image and the
    probability map) fit none of the candidate arrangements:
    [display_3d_segmentations] raises [IndexError] at line 192, before
    it makes a figure. *)
Theorem display_3d_too_many_plots (segs : list I) (image probability_map : option I)
        (axis : Z) (z : option Z) (fignum : option Z) :
  16 < length segs + length (option_list image) + length (option_list probability_map) ->
  display_3d_segmentations (A:=A) ceil_max roll_slice segs image probability_map
                           axis z fignum
  = ([], Err (IndexError "list index out of range")).
Proof.
  intros H. unfold display_3d_segmentations.
  rewrite plot_arrangement_none; [reflexivity|].
  destruct image, probability_map; simpl in *; lia.
Qed.

(** X13.  An integer [z] and up to sixteen plots whose slices at [z]
    can be taken, the segmentations' with a largest label that is not
    negative: [display_3d_segmentations] asks for the subplots 1, 2, ...
    of one arrangement, in the order image, probability map,
    segmentations, and all of them lie in that arrangement; but each
    image is shown on the axes of a figure that [imshow_grey],
    [imshow_magma] or [imshow_rand] opens for it, not on the subplot. *)
Theorem display_3d_plots_in_order (segs : list I) (image probability_map : option I)
        (axis : Z) (k : Z) (fignum : option Z) (sl : I -> I) (n : I -> Z) :
  let shown :=
    ((fun a => Imshow Fresh (Some "gray") (sl a)) <$> option_list image)
      ++ ((fun a => Imshow Fresh (Some "magma") (sl a)) <$> option_list probability_map)
      ++ ((fun a => ImshowRandom Fresh (n a) (sl a)) <$> segs) in
  length shown <= 16 ->
  Forall (fun a => roll_slice a axis (Some k) = Ok (sl a))
         (option_list image ++ option_list probability_map ++ segs) ->
  Forall (fun a => ceil_max (sl a) = Ok (n a) /\ (0 <= n a)%Z) segs ->
  exists rows cols,
    plot_arrangement (length shown) = Ok (rows, cols) /\
    length shown <= rows * cols /\
    display_3d_segmentations (A:=A) ceil_max roll_slice segs image probability_map
                             axis (Some k) fignum
    = (Figure fignum
         :: mjoin (zip_with (plot_calls rows cols) (seq 1 (length shown)) shown),
       Ok tt).
Proof.
  intros shown Hn Hroll Hmax. remember (Some k) as z eqn:Hz. clear Hz.
  destruct (plot_arrangement_some (length shown) Hn)
    as (rows & cols & Hp & Hroom & _).
  exists rows, cols. split; [exact Hp|]. split; [exact Hroom|].
  pose proof (show_segmentations_calls (A:=A) ceil_max roll_slice rows cols axis z sl n segs)
    as Hsegs.
  unfold display_3d_segmentations. subst shown.
  rewrite !length_app, !length_fmap in Hp.
  assert (Forall (fun a => roll_slice a axis z = Ok (sl a)) segs) as Hroll'.
  { apply Forall_app in Hroll as [_ Hroll]. apply Forall_app in Hroll as [_ Hroll].
    exact Hroll. }
  assert (forall j m, m = length segs ->
            show_segmentations (A:=A) ceil_max roll_slice rows cols segs axis z 0 (seq j m)
            = (mjoin (zip_with (plot_calls rows cols) (seq j (length segs))
                               ((fun a => ImshowRandom Fresh (n a) (sl a)) <$> segs)),
               Ok tt)) as Hs.
  { intros j m ->. apply (Hsegs Hroll' Hmax [] j). }
  rewrite !length_app, !length_fmap.
  destruct image as [im|], probability_map as [pm|]; simpl in Hp, Hroll |- *.
  - apply Forall_cons in Hroll as [Him Hroll]. apply Forall_cons in Hroll as [Hpm _].
    replace (length segs + 1 + 1) with (S (S (length segs))) by lia.
    rewrite Hp. simpl. rewrite Him. simpl. rewrite Hpm. simpl.
    rewrite Hs by lia. reflexivity.
  - apply Forall_cons in Hroll as [Him _].
    replace (length segs + 1) with (S (length segs)) by lia.
    rewrite Hp. simpl. rewrite Him. simpl.
    rewrite Hs by lia. reflexivity.
  - apply Forall_cons in Hroll as [Hpm _].
    replace (length segs + 1) with (S (length segs)) by lia.
    rewrite Hp. simpl. rewrite Hpm. simpl.
    rewrite Hs by lia. reflexivity.
  - rewrite Hp. simpl.
    rewrite Hs by lia. reflexivity.
Qed.

End DisplayProperties.

Lemma display_3d_too_many_plots_witness :
  display_3d_segmentations (A:=unit) (fun a : Z => Ok a)
                           (fun (a : Z) (_ : Z) (_ : option Z) => Ok a)
                           (replicate 15 1%Z) (Some 2%Z) (Some 3%Z) 0 None None
  = ([], Err (IndexError "list index out of range")).
Proof.
  apply (display_3d_too_many_plots
           (fun a : Z => Ok a) (fun (a : Z) (_ : Z) (_ : option Z) => Ok a)
           (replicate 15 1%Z) (Some 2%Z) (Some 3%Z) 0 None None).
  simpl. lia.
Defined.

Lemma display_3d_plots_in_order_witness :
  display_3d_segmentations (A:=unit) (fun a : Z => Ok (a - 100)%Z)
                           (fun (a : Z) (_ : Z) (z : option Z) =>
                              match z with
                              | Some k => Ok (a + 100 + k)%Z
                              | None => Err (IndexError "no slice")
                              end)
                           [1; 2; 3]%Z (Some 7%Z) None 0 (Some 0%Z) (Some 4%Z)
  = ([Figure (Some 4%Z);
      Subplot 1 4 1; Subplots; Imshow Fresh (Some "gray") 107%Z;
      Subplot 1 4 2; Subplots; ImshowRandom Fresh 1 101%Z;
      Subplot 1 4 3; Subplots; ImshowRandom Fresh 2 102%Z;
      Subplot 1 4 4; Subplots; ImshowRandom Fresh 3 103%Z], Ok tt).
Proof.
  destruct (display_3d_plots_in_order
              (A:=unit) (fun a : Z => Ok (a - 100)%Z)
              (fun (a : Z) (_ : Z) (z : option Z) =>
                 match z with
                 | Some k => Ok (a + 100 + k)%Z
                 | None => Err (IndexError "no slice")
                 end)
              [1; 2; 3]%Z (Some 7%Z) None 0 0 (Some 4%Z)
              (fun a => (a + 100)%Z) (fun a => a)
              ltac:(simpl; lia)
              ltac:(repeat constructor; simpl; f_equal; lia)
              ltac:(repeat constructor; simpl; try lia; f_equal; lia))
    as (rows & cols & Hp & _ & Hrun).
  vm_compute in Hp. injection Hp as <- <-. exact Hrun.
Defined.

(** ** [show_multiple_images] *)

Section ShowFacts.
Context {I A : Type} (ceil_max : I -> res Z).

Lemma show_one_shown number_of_im axes_given image_type i (im : I) (ax : axes A) made :
  image_type ∈ ["grey"; "gray"; "magma"; "raw"] ->
  match axes_given with
  | None => made = [AddSubplot 1 number_of_im (i + 1)] /\ ax = Added 1 number_of_im (i + 1)
  | Some given => made = [] /\ exists a, given !! i = Some a /\ ax = Passed a
  end ->
  show_one ceil_max number_of_im axes_given image_type i im
  = (made ++ shown_calls ax image_type i im, Ok (Some ax)).
Proof.
  intros Ht Hax. unfold show_one.
  assert ((match axes_given with
           | None =>
               Viz.bind (do (AddSubplot 1 number_of_im (i + 1)))
                        (fun _ => Viz.ret (Added 1 number_of_im (i + 1)))
           | Some given =>
               match given !! i with
               | Some a => Viz.ret (Passed a)
               | None => Viz.raise (IndexError "list index out of range")
               end
           end : drawing I A (axes A)) = (made, Ok ax)) as ->.
  { destruct axes_given as [given|].
    - destruct Hax as (-> & a & -> & ->). reflexivity.
    - destruct Hax as (-> & ->). reflexivity. }
  rewrite !elem_of_cons, elem_of_nil in Ht.
  destruct Ht as [-> | [-> | [-> | [-> | []]]]]; reflexivity.
Qed.

Lemma show_one_invalid number_of_im image_type i (im : I) :
  image_type ∉ ["grey"; "gray"; "magma"; "rand"; "raw"] ->
  show_one (A:=A) ceil_max number_of_im None image_type i im
  = ([AddSubplot 1 number_of_im (i + 1); Printed "not a valid image type."], Ok None).
Proof.
  intros Ht. rewrite !not_elem_of_cons in Ht.
  destruct Ht as (H1 & H2 & H3 & H4 & H5 & _).
  unfold show_one.
  rewrite (bool_decide_eq_false_2 _ H1), (bool_decide_eq_false_2 _ H2),
    (bool_decide_eq_false_2 _ H3), (bool_decide_eq_false_2 _ H4),
    (bool_decide_eq_false_2 _ H5).
  reflexivity.
Qed.

(** The loop with a subplot added for each image. *)
Lemma show_loop_added number_of_im image_type (images : list I) :
  image_type ∈ ["grey"; "gray"; "magma"; "raw"] ->
  forall i (ax : axes A),
    show_loop ceil_max number_of_im None image_type i images (Some ax)
    = (mjoin (imap (fun k im =>
                      AddSubplot 1 number_of_im (i + k + 1)
                        :: shown_calls (Added 1 number_of_im (i + k + 1))
                                       image_type (i + k) im) images),
       Ok (Some (match images with
                 | [] => ax
                 | _ => Added 1 number_of_im (i + length images)
                 end))).
Proof.
  intros Ht. induction images as [|im rest IH]; intros i ax; [reflexivity|].
  cbn [show_loop].
  rewrite (show_one_shown number_of_im None image_type i im
             (Added 1 number_of_im (i + 1)) [AddSubplot 1 number_of_im (i + 1)] Ht)
    by (split; reflexivity).
  cbn [Viz.bind]. rewrite IH. rewrite imap_cons. cbn [mjoin list_join].
  rewrite Nat.add_0_r. f_equal.
  - cbn [app]. f_equal. f_equal. f_equal. apply imap_ext. intros k x _. simpl.
    replace (i + S k) with (S (i + k)) by lia. reflexivity.
  - destruct rest; simpl; repeat f_equal; lia.
Qed.

(** The loop on axes that were passed in, fewer than the images left. *)
Lemma show_loop_passed number_of_im image_type (images : list I) :
  image_type ∈ ["grey"; "gray"; "magma"; "raw"] ->
  forall (pre rest : list A) ax,
    length rest < length images ->
    show_loop ceil_max number_of_im (Some (pre ++ rest)) image_type (length pre) images ax
    = (mjoin (imap (fun k p => shown_calls (Passed p.1) image_type (length pre + k) p.2)
                   (zip rest images)),
       Err (IndexError "list index out of range")).
Proof.
  intros Ht. induction images as [|im images IH]; intros pre rest ax Hlen;
    [simpl in Hlen; lia|].
  cbn [show_loop]. destruct rest as [|a rest].
  - unfold show_one. rewrite app_nil_r, lookup_ge_None_2 by lia. reflexivity.
  - rewrite (show_one_shown number_of_im (Some (pre ++ a :: rest)) image_type
               (length pre) im (Passed a) [] Ht).
    2:{ split; [reflexivity|]. exists a. split; [|reflexivity].
        rewrite lookup_app_r by lia. rewrite Nat.sub_diag. reflexivity. }
    cbn [Viz.bind].
    specialize (IH (pre ++ [a]) rest (Some (Passed a))).
    rewrite <- app_assoc, length_app in IH. simpl in IH.
    rewrite Nat.add_1_r in IH. rewrite IH by (simpl in Hlen; lia).
    cbn [zip zip_with]. rewrite imap_cons. cbn [mjoin list_join]. rewrite Nat.add_0_r.
    cbn [app fst snd]. f_equal. f_equal. f_equal. apply imap_ext. intros k x _. simpl.
    replace (length pre + S k) with (S (length pre + k)) by lia. reflexivity.
Qed.

End ShowFacts.

Section ShowProperties.
Context {I A : Type} (ceil_max : I -> res Z).

(** X14.  Called with no image, [show_multiple_images] makes a figure
    and then raises [UnboundLocalError] at its [return ax], whatever the
    axes and the image type. *)
Theorem show_multiple_images_no_image (axes_given : option (list A))
        (image_type : string) :
  show_multiple_images (I:=I) ceil_max [] axes_given image_type
  = ([Figure None], Err (UnboundLocalError "ax")).
Proof. reflexivity. Qed.

(** X15.  An image type that is none of grey, gray, magma, rand and raw:
    with images to show and no axes passed, [show_multiple_images] makes
    the figure and the first subplot, prints its complaint and returns
    [None]; it shows nothing and looks at no further image. *)
Theorem show_multiple_images_invalid_type (im : I) (images : list I)
        (image_type : string) :
  image_type ∉ ["grey"; "gray"; "magma"; "rand"; "raw"] ->
  show_multiple_images (A:=A) ceil_max (im :: images) None image_type
  = ([Figure None; AddSubplot 1 (S (length images)) 1;
      Printed "not a valid image type."], Ok None).
Proof.
  intros Ht. unfold show_multiple_images. cbn [show_loop length].
  rewrite (show_one_invalid ceil_max _ _ _ _ Ht). reflexivity.
Qed.

(** X16.  Images of a type grey, gray, magma or raw and no axes passed:
    [show_multiple_images] adds the subplots 1 to n of one row of n, shows
    each image on its subplot with the colour map of the type, titles it
    with its number, and returns the last subplot. *)
Theorem show_multiple_images_returns_last_axis (im : I) (images : list I)
        (image_type : string) :
  image_type ∈ ["grey"; "gray"; "magma"; "raw"] ->
  let n := S (length images) in
  show_multiple_images (A:=A) ceil_max (im :: images) None image_type
  = (Figure None
       :: mjoin (imap (fun i im =>
                         AddSubplot 1 n (i + 1)
                           :: shown_calls (Added 1 n (i + 1)) image_type i im)
                      (im :: images)),
     Ok (Some (Added 1 n n))).
Proof.
  intros Ht n. unfold show_multiple_images.
  change (length (im :: images)) with n.
  cbn [show_loop].
  rewrite (show_one_shown ceil_max n None image_type 0 im
             (Added 1 n 1) [AddSubplot 1 n 1] Ht) by (split; reflexivity).
  cbn [Viz.bind]. rewrite (show_loop_added ceil_max n image_type images Ht 1).
  rewrite imap_cons. cbn [mjoin list_join]. simpl. f_equal.
  subst n. destruct images; reflexivity.
Qed.

(** X17.  Fewer axes passed than images, of a type grey, gray, magma or
    raw: [show_multiple_images] shows an image on each of the axes and
    then raises [IndexError] at line 102. *)
Theorem show_multiple_images_too_few_axes (images : list I) (given : list A)
        (image_type : string) :
  image_type ∈ ["grey"; "gray"; "magma"; "raw"] ->
  length given < length images ->
  show_multiple_images ceil_max images (Some given) image_type
  = (Figure None
       :: mjoin (imap (fun i p => shown_calls (Passed p.1) image_type i p.2)
                      (zip given images)),
     Err (IndexError "list index out of range")).
Proof.
  intros Ht Hlen. unfold show_multiple_images.
  pose proof (show_loop_passed ceil_max (length images) image_type images Ht
                [] given None Hlen) as H.
  simpl in H. cbn [Viz.bind do]. rewrite H. reflexivity.
Qed.

End ShowProperties.

Lemma show_multiple_images_invalid_type_witness :
  show_multiple_images (A:=unit) (fun a : Z => Ok a) [5; 6; 7]%Z None "viridis"
  = ([Figure None; AddSubplot 1 3 1; Printed "not a valid image type."], Ok None).
Proof.
  apply (show_multiple_images_invalid_type (A:=unit) (fun a : Z => Ok a)
           5%Z [6; 7]%Z "viridis").
  rewrite !not_elem_of_cons. repeat split; try discriminate. apply not_elem_of_nil.
Defined.

Lemma show_multiple_images_returns_last_axis_witness :
  show_multiple_images (A:=unit) (fun a : Z => Ok a) [5; 6]%Z None "grey"
  = ([Figure None;
      AddSubplot 1 2 1; Imshow (Added 1 2 1) (Some "gray") 5%Z;
      SetTitle (Added 1 2 1) "Image number 1 with a grey colormap.";
      AddSubplot 1 2 2; Imshow (Added 1 2 2) (Some "gray") 6%Z;
      SetTitle (Added 1 2 2) "Image number 2 with a grey colormap."],
     Ok (Some (Added 1 2 2))).
Proof.
  etransitivity;
    [exact (show_multiple_images_returns_last_axis (A:=unit) (fun a : Z => Ok a)
              5%Z [6]%Z "grey" ltac:(apply list_elem_of_here))|].
  vm_compute. reflexivity.
Defined.

Lemma show_multiple_images_too_few_axes_witness :
  show_multiple_images (fun a : Z => Ok a) [5; 6; 7]%Z (Some [true; false]) "raw"
  = ([Figure None;
      Imshow (Passed true) None 5%Z;
      SetTitle (Passed true) "Image number 1 with a raw colormap.";
      Imshow (Passed false) None 6%Z;
      SetTitle (Passed false) "Image number 2 with a raw colormap."],
     Err (IndexError "list index out of range")).
Proof.
  etransitivity;
    [exact (show_multiple_images_too_few_axes (fun a : Z => Ok a)
              [5; 6; 7]%Z [true; false] "raw"
              ltac:(do 3 apply list_elem_of_further; apply list_elem_of_here)
              ltac:(simpl; lia))|].
  vm_compute. reflexivity.
Defined.

(** ** [plot_vi] *)

Lemma length_unique (l : list Z) : length (unique l) = size (labels l).
Proof.
  unfold labels.
  rewrite <- (size_list_to_set (C:=gset Z) (unique l))
    by apply sorted_NoDup, unique_sorted.
  f_equal. apply set_eq. intros x. rewrite !elem_of_list_to_set. apply elem_of_unique.
Qed.

Lemma elem_of_relabel seg a b x :
  x ∈ relabel seg a b <-> (x ∈ seg /\ x <> b) \/ (x = a /\ b ∈ seg).
Proof.
  unfold relabel. rewrite list_elem_of_fmap. split.
  - intros (y & -> & Hy). destruct (y =? b)%Z eqn:E.
    + apply Z.eqb_eq in E. subst y. right. split; [reflexivity | exact Hy].
    + apply Z.eqb_neq in E. left. split; assumption.
  - intros [[Hx Hne] | [-> Hb]].
    + exists x. split; [|exact Hx]. apply Z.eqb_neq in Hne. rewrite Hne. reflexivity.
    + exists b. split; [|exact Hb]. rewrite Z.eqb_refl. reflexivity.
Qed.

Lemma labels_relabel seg a b :
  labels (relabel seg a b)
  = if decide (b ∈ seg) then {[a]} ∪ labels seg ∖ {[b]} else labels seg.
Proof.
  apply set_eq. intros x. unfold labels at 1. rewrite elem_of_list_to_set, elem_of_relabel.
  destruct (decide (b ∈ seg)) as [Hb|Hb].
  - rewrite elem_of_union, elem_of_difference, !elem_of_singleton.
    unfold labels. rewrite elem_of_list_to_set. tauto.
  - unfold labels. rewrite elem_of_list_to_set. split; [|intros Hx].
    + intros [[Hx _]|[_ H]]; [exact Hx | tauto].
    + left. split; [exact Hx | intros ->; tauto].
Qed.

(** A merge takes at most one label away and adds none to the count. *)
Lemma size_labels_relabel seg a b :
  size (labels (relabel seg a b)) <= size (labels seg)
  /\ size (labels seg) <= size (labels (relabel seg a b)) + 1.
Proof.
  rewrite labels_relabel. destruct (decide (b ∈ seg)) as [Hb|Hb]; [|lia].
  assert (size (labels seg ∖ {[b]}) + 1 = size (labels seg)) as Hsize.
  { rewrite size_difference.
    - rewrite size_singleton.
      assert (size (labels seg) <> 0); [|lia].
      apply size_non_empty_iff. intros He.
      assert (b ∈ labels seg) as Hin by (unfold labels; apply elem_of_list_to_set, Hb).
      rewrite He in Hin. apply elem_of_empty in Hin. exact Hin.
    - apply singleton_subseteq_l. unfold labels. apply elem_of_list_to_set, Hb. }
  split.
  - rewrite size_union_alt, size_singleton.
    assert (size (labels seg ∖ {[b]} ∖ {[a]}) <= size (labels seg ∖ {[b]})); [|lia].
    apply subseteq_size, subseteq_difference_l. reflexivity.
  - assert (size (labels seg ∖ {[b]}) <= size ({[a]} ∪ labels seg ∖ {[b]})); [|lia].
    apply subseteq_size, union_subseteq_r.
Qed.

Lemma merged_snoc seg history i :
  merged seg (history ++ [i]) = relabel (merged seg history) i.1 i.2.
Proof. unfold merged. rewrite fold_left_app. reflexivity. Qed.

Section PlotViFacts.
Context {G : Type} (vi : list Z -> G -> float).

Lemma plot_vi_fold gt history :
  forall seg v n,
    fold_left (plot_vi_step vi gt) history (seg, v, n)
    = (merged seg history,
       v ++ ((fun k => vi (merged seg (take (S k) history)) gt)
               <$> seq 0 (length history)),
       n ++ ((fun k => size (labels (merged seg (take (S k) history))))
               <$> seq 0 (length history))).
Proof.
  induction history as [|i history IH]; intros seg v n.
  - simpl. rewrite !app_nil_r. reflexivity.
  - cbn [fold_left plot_vi_step]. rewrite IH. cbn [length seq fmap list_fmap].
    rewrite <- !app_assoc. cbn [app].
    rewrite length_fmap, length_unique.
    rewrite <- !fmap_S_seq, <- !list_fmap_compose.
    reflexivity.
Qed.

End PlotViFacts.

Section PlotViProperties.
Context {G : Type} (vi : list Z -> G -> float) {I A : Type}.

(** X18.  What [plot_vi] plots against the VI after each merge is the
    number of distinct labels of the segmentation at that point, the
    background among them: line 236 takes one off each label, not off
    their number.  The segmentation it was given is left as the merges
    made it. *)
Theorem plot_vi_plots_the_label_counts (seg : list Z) (history : list (Z * Z))
        (gt : G) (fig : bool) :
  exists n v,
    plot_vi (I:=I) (A:=A) vi seg history gt fig
    = ((if fig then [] else [Figure None])
         ++ [Plot n v; Xlabel "Number of segments"; Ylabel "vi"],
       Ok (merged seg history)) /\
    length n = length history /\ length v = length history /\
    forall k, k < length history ->
      n !! k = Some (size (labels (merged seg (take (S k) history)))) /\
      v !! k = Some (vi (merged seg (take (S k) history)) gt).
Proof.
  exists ((fun k => size (labels (merged seg (take (S k) history))))
            <$> seq 0 (length history)),
         ((fun k => vi (merged seg (take (S k) history)) gt)
            <$> seq 0 (length history)).
  split.
  - unfold plot_vi. rewrite plot_vi_fold. destruct fig; reflexivity.
  - rewrite !length_fmap, !length_seq. split; [reflexivity|]. split; [reflexivity|].
    intros k Hk. rewrite !list_lookup_fmap, lookup_seq_lt by exact Hk.
    split; reflexivity.
Qed.

(** X19.  Along the merges the number plotted never goes up, and goes
    down by one at most at each merge. *)
Theorem plot_vi_counts_never_increase (seg : list Z) (history : list (Z * Z))
        (gt : G) (fig : bool) (n : list nat) (v : list float) (k a b : nat) :
  Plot n v ∈ (plot_vi (I:=I) (A:=A) vi seg history gt fig).1 ->
  n !! k = Some a -> n !! S k = Some b ->
  b <= a <= b + 1.
Proof.
  intros Hin Ha Hb.
  destruct (plot_vi_plots_the_label_counts seg history gt fig)
    as (n' & v' & Hrun & Hn & _ & Hcounts).
  rewrite Hrun in Hin. simpl in Hin.
  assert (n = n') as ->.
  { destruct fig; simpl in Hin; rewrite ?elem_of_cons, elem_of_nil in Hin;
      repeat destruct Hin as [Hin|Hin]; try discriminate; try tauto;
      injection Hin as -> _; reflexivity. }
  assert (S k < length history) as Hk by (apply lookup_lt_Some in Hb; lia).
  destruct (Hcounts k ltac:(lia)) as [Ha' _]. destruct (Hcounts (S k) Hk) as [Hb' _].
  rewrite Ha in Ha'. rewrite Hb in Hb'. injection Ha' as ->. injection Hb' as ->.
  destruct (lookup_lt_is_Some_2 history (S k) Hk) as [i Hi].
  rewrite (take_S_r history (S k) i Hi).
  rewrite merged_snoc.
  pose proof (size_labels_relabel (merged seg (take (S k) history)) i.1 i.2). lia.
Qed.

End PlotViProperties.

Lemma plot_vi_counts_never_increase_witness :
  Plot [4; 3; 3; 2] [1; 1; 1; 1]%float
    ∈ (plot_vi (I:=unit) (A:=unit) (fun _ (_ : unit) => 1%float)
               [1; 2; 3; 3; 0; 5]%Z [(1, 2); (1, 3); (7, 8); (0, 1)]%Z tt false).1
  /\ 2 <= 3 <= 2 + 1.
Proof.
  assert (Plot [4; 3; 3; 2] [1; 1; 1; 1]%float
            ∈ (plot_vi (I:=unit) (A:=unit) (fun _ (_ : unit) => 1%float)
                       [1; 2; 3; 3; 0; 5]%Z [(1, 2); (1, 3); (7, 8); (0, 1)]%Z tt false).1)
    as Hin by (vm_compute; apply list_elem_of_further, list_elem_of_here).
  split; [exact Hin|].
  exact (plot_vi_counts_never_increase
           (fun _ (_ : unit) => 1%float)
           [1; 2; 3; 3; 0; 5]%Z [(1, 2); (1, 3); (7, 8); (0, 1)]%Z tt false
           [4; 3; 3; 2] [1; 1; 1; 1]%float 2 3 2 Hin
           ltac:(reflexivity) ltac:(reflexivity)).
Defined.

(** ** [add_nats_to_plot] *)

Lemma last_nonzero_from off m k :
  last (nonzero_from off m) = Some k ->
  off <= k /\ m !! (k - off) = Some true /\
  forall k', k < k' -> m !! (k' - off) <> Some true.
Proof.
  revert off. induction m as [|b m IH]; intros off; [discriminate|].
  cbn [nonzero_from]. rewrite last_app.
  destruct (last (nonzero_from (S off) m)) as [k2|] eqn:E.
  - intros [= ->]. destruct (IH _ E) as (H1 & H2 & H3).
    split; [lia|]. split.
    + replace (k - off) with (S (k - S off)) by lia. exact H2.
    + intros k' Hk'. replace (k' - off) with (S (k' - S off)) by lia.
      apply H3. exact Hk'.
  - apply last_None in E. destruct b; [|discriminate]. intros [= <-].
    split; [lia|]. split; [rewrite Nat.sub_diag; reflexivity|].
    intros k' Hk' Hm. replace (k' - off) with (S (k' - S off)) in Hm by lia.
    assert (k' ∈ nonzero_from (S off) m) as Hin
        by (apply elem_of_nonzero_from; split; [lia | exact Hm]).
    rewrite E in Hin. apply elem_of_nil in Hin. exact Hin.
Qed.

(** The last index below the stop. *)
Lemma last_below ts stop k :
  last (below ts stop) = Some k ->
  (exists t, ts !! k = Some t /\ PrimFloat.ltb t stop = true) /\
  forall k' t', k < k' -> ts !! k' = Some t' -> PrimFloat.ltb t' stop = false.
Proof.
  unfold below, nonzero. intros H.
  apply last_nonzero_from in H as (_ & H & Hlast).
  rewrite Nat.sub_0_r, list_lookup_fmap in H. split.
  - destruct (ts !! k) as [t|]; [|discriminate]. exists t. split; [reflexivity|].
    injection H as H. exact H.
  - intros k' t' Hk' Ht'. specialize (Hlast k' Hk').
    rewrite Nat.sub_0_r, list_lookup_fmap, Ht' in Hlast. simpl in Hlast.
    destruct (PrimFloat.ltb t' stop); [congruence | reflexivity].
Qed.

Lemma lookup_cycle {C} n (l : list C) i c :
  cycle n l !! i = Some c -> l !! (i mod length l) = Some c.
Proof.
  unfold cycle. intros H. apply lookup_take_Some in H as [H _].
  apply (join_lookup_Some_same_length (length l)) in H
      as (j & l' & i' & Hj & Hi' & ->).
  - apply lookup_replicate in Hj as [-> _].
    pose proof (lookup_lt_Some _ _ _ Hi') as Hlt.
    rewrite Nat.add_comm, Nat.Div0.mod_add, Nat.mod_small by lia. exact Hi'.
  - apply Forall_replicate. reflexivity.
Qed.

Lemma lookup_cycled {C} n (l : list C) i c :
  cycled n l !! i = Some c -> l !! (i mod length l) = Some c.
Proof.
  unfold cycled. destruct (length l <? n).
  - apply lookup_cycle.
  - intros H. pose proof (lookup_lt_Some _ _ _ H).
    rewrite Nat.mod_small by lia. exact H.
Qed.

Lemma length_cycled {C} n (l : list C) :
  l <> [] -> n <= length (cycled n l).
Proof.
  intros Hl. unfold cycled. destruct (Nat.ltb_spec (length l) n) as [H|H]; [|exact H].
  unfold cycle. rewrite length_take, length_join, fmap_replicate, sum_list_replicate.
  destruct l; [congruence|]. simpl. nia.
Qed.

Lemma cycled_nil {C} n : cycled n (@nil C) = [].
Proof.
  unfold cycled, cycle. destruct (length [] <? n); [|reflexivity].
  assert (mjoin (replicate n (@nil C)) = []) as ->; [|apply take_nil].
  induction n as [|n IH]; [reflexivity | exact IH].
Qed.

Section AddNatsFacts.
Context {C M : Type}.

Lemma natural_point_Ok ar ts stop (colour : C) (m : M) p :
  natural_point ar ts stop colour m = Ok p ->
  c p = colour /\ marker p = m /\
  exists k t row0 row1,
    ts !! k = Some t /\ PrimFloat.ltb t stop = true /\
    (forall k' t', k < k' -> ts !! k' = Some t' -> PrimFloat.ltb t' stop = false) /\
    ar !! 0 = Some row0 /\ ar !! 1 = Some row1 /\
    row0 !! k = Some (x p) /\ row1 !! k = Some (y p).
Proof.
  unfold natural_point. destruct (last (below ts stop)) as [k|] eqn:Ek; [|discriminate].
  destruct (mapM _ ar) as [nat|] eqn:En; [|discriminate].
  destruct (nat !! 0) as [x0|] eqn:E0; [|discriminate].
  destruct (nat !! 1) as [y0|] eqn:E1; [|discriminate].
  intros [= <-]. simpl. split; [reflexivity|]. split; [reflexivity|].
  apply last_below in Ek as [(t & Ht & Hlt) Hlast].
  apply mapM_Some in En.
  destruct (Forall2_lookup_r _ _ _ _ _ En E0) as (row0 & Hr0 & Hx).
  destruct (Forall2_lookup_r _ _ _ _ _ En E1) as (row1 & Hr1 & Hy).
  exists k, t, row0, row1. repeat split; assumption.
Qed.

Lemma scatter_all_lookup items :
  forall points e i (p : point C M),
    scatter_all items = (points, e) -> points !! i = Some p ->
    exists ar ts stop colour m,
      items !! i = Some (ar, ts, stop, colour, m) /\
      natural_point ar ts stop colour m = Ok p.
Proof.
  induction items as [|[[[[ar ts] stop] colour] m] items IH]; intros points e i p.
  - intros [= <- <-]. discriminate.
  - cbn [scatter_all]. destruct (natural_point ar ts stop colour m) as [q|err] eqn:Eq.
    + destruct (scatter_all items) as [points' e'] eqn:Es. intros [= <- <-].
      destruct i as [|i]; simpl.
      * intros [= <-]. exists ar, ts, stop, colour, m. split; [reflexivity | exact Eq].
      * intros Hp. apply (IH points' e' i p eq_refl Hp).
    + intros [= <- <-]. discriminate.
Qed.

Lemma scatter_all_length items :
  forall (points : list (point C M)),
    scatter_all items = (points, None) -> length points = length items.
Proof.
  induction items as [|[[[[ar ts] stop] colour] m] items IH]; intros points.
  - intros [= <-]. reflexivity.
  - cbn [scatter_all]. destruct (natural_point ar ts stop colour m) as [q|err];
      [|discriminate].
    destruct (scatter_all items) as [points' e'] eqn:Es. intros [= <- ->].
    simpl. f_equal. apply IH. reflexivity.
Qed.

End AddNatsFacts.

Section AddNatsProperties.
Context {C M : Type}.

(** X20.  Every point [add_nats_to_plot] scatters belongs to the curve
    of its position: it is the column of the curve at the last threshold
    below the stop, with the stop, the colour and the marker of its
    position taken round the lists given. *)
Theorem add_nats_to_plot_points (ars : list (list (list float)))
        (tss : list (list float)) (stops : one_or_many float)
        (colors : one_or_many C) (markers : one_or_many M)
        (i : nat) (p : point C M) :
  (add_nats_to_plot ars tss stops colors markers).1 !! i = Some p ->
  exists ar ts stop k t row0 row1,
    ars !! i = Some ar /\ tss !! i = Some ts /\
    as_list stops !! (i mod length (as_list stops)) = Some stop /\
    as_list colors !! (i mod length (as_list colors)) = Some (c p) /\
    as_list markers !! (i mod length (as_list markers)) = Some (marker p) /\
    ts !! k = Some t /\ PrimFloat.ltb t stop = true /\
    (forall k' t', k < k' -> ts !! k' = Some t' -> PrimFloat.ltb t' stop = false) /\
    ar !! 0 = Some row0 /\ ar !! 1 = Some row1 /\
    row0 !! k = Some (x p) /\ row1 !! k = Some (y p).
Proof.
  unfold add_nats_to_plot. intros Hp.
  destruct (scatter_all _) as [points e] eqn:Es. simpl in Hp.
  destruct (scatter_all_lookup _ _ _ _ _ Es Hp)
    as (ar & ts & stop & colour & m & Hitem & Hnat).
  apply lookup_zip_Some in Hitem as [Hitem Hm]. simpl in Hitem, Hm.
  apply lookup_zip_Some in Hitem as [Hitem Hc]. simpl in Hitem, Hc.
  apply lookup_zip_Some in Hitem as [Hitem Hs]. simpl in Hitem, Hs.
  apply lookup_zip_Some in Hitem as [Har Hts]. simpl in Har, Hts.
  apply natural_point_Ok in Hnat
      as (<- & <- & k & t & row0 & row1 & H1 & H2 & H3 & H4 & H5 & H6 & H7).
  exists ar, ts, stop, k, t, row0, row1.
  repeat split; try assumption; apply (lookup_cycled (length ars)); assumption.
Qed.

(** X21.  With an empty list of stops, of colours or of markers,
    [add_nats_to_plot] scatters nothing and returns no point, whatever
    the curves are: there is nothing to cycle. *)
Theorem add_nats_to_plot_nothing_to_cycle (ars : list (list (list float)))
        (tss : list (list float)) (stops : one_or_many float)
        (colors : one_or_many C) (markers : one_or_many M) :
  as_list stops = [] \/ as_list colors = [] \/ as_list markers = [] ->
  add_nats_to_plot ars tss stops colors markers = ([], None).
Proof.
  unfold add_nats_to_plot. intros [H | [H | H]]; rewrite H, cycled_nil.
  - assert (zip (zip ars tss) (@nil float) = []) as -> by (destruct (zip ars tss); reflexivity).
    reflexivity.
  - assert (forall l : list (list (list float) * list float * float),
              zip l (@nil C) = []) as -> by (intros []; reflexivity).
    reflexivity.
  - assert (forall l : list (list (list float) * list float * float * C),
              zip l (@nil M) = []) as -> by (intros []; reflexivity).
    reflexivity.
Qed.

(** X22.  When no exception ends it and stops, colours and markers are
    there, [add_nats_to_plot] returns a point for each curve that has
    its thresholds: the curves past the end of [tss] are left out in
    silence. *)
Theorem add_nats_to_plot_count (ars : list (list (list float)))
        (tss : list (list float)) (stops : one_or_many float)
        (colors : one_or_many C) (markers : one_or_many M) :
  as_list stops <> [] -> as_list colors <> [] -> as_list markers <> [] ->
  (add_nats_to_plot ars tss stops colors markers).2 = None ->
  length (add_nats_to_plot ars tss stops colors markers).1
  = length ars `min` length tss.
Proof.
  unfold add_nats_to_plot. intros Hs Hc Hm He.
  destruct (scatter_all _) as [points e] eqn:Es. simpl in He. subst e. simpl.
  rewrite (scatter_all_length _ _ Es), !length_zip.
  pose proof (length_cycled (length ars) _ Hs).
  pose proof (length_cycled (length ars) _ Hc).
  pose proof (length_cycled (length ars) _ Hm). lia.
Qed.

End AddNatsProperties.

Lemma add_nats_to_plot_points_witness :
  exists p : point string string,
    (add_nats_to_plot [[[1; 2; 3]; [4; 5; 6]]; [[1; 2; 3]; [4; 5; 6]];
                       [[1; 2; 3]; [4; 5; 6]]]%float
                      [[0.25; 0.75; 0.25]; [0.25; 0.25; 1]; [0.75; 0.75; 0.25]]%float
                      (One 0.5%float) (Many ["r"; "g"]) (One "o")).1 !! 2 = Some p
    /\ c p = "r".
Proof.
  eexists. split; [vm_compute; reflexivity|].
  destruct (add_nats_to_plot_points
              [[[1; 2; 3]; [4; 5; 6]]; [[1; 2; 3]; [4; 5; 6]];
               [[1; 2; 3]; [4; 5; 6]]]%float
              [[0.25; 0.75; 0.25]; [0.25; 0.25; 1]; [0.75; 0.75; 0.25]]%float
              (One 0.5%float) (Many ["r"; "g"]) (One "o") 2
              {| x := 3%float; y := 6%float; c := "r"; marker := "o" |}
              ltac:(vm_compute; reflexivity))
    as (_ & _ & _ & _ & _ & _ & _ & _ & _ & _ & Hc & _).
  reflexivity.
Defined.

Lemma add_nats_to_plot_nothing_to_cycle_witness :
  add_nats_to_plot [[[1; 2; 3]; [4; 5; 6]]]%float [[1; 1; 1]]%float
                   (One 0.5%float) (Many (@nil string)) (One "o")
  = ([], None).
Proof.
  apply (add_nats_to_plot_nothing_to_cycle
           [[[1; 2; 3]; [4; 5; 6]]]%float [[1; 1; 1]]%float
           (One 0.5%float) (Many (@nil string)) (One "o")).
  right. left. reflexivity.
Defined.

Lemma add_nats_to_plot_count_witness :
  length (add_nats_to_plot [[[1; 2; 3]; [4; 5; 6]]; [[1; 2; 3]; [4; 5; 6]];
                            [[1; 2; 3]; [4; 5; 6]]]%float
                           [[0.25; 0.75; 0.25]; [0.25; 0.25; 1]]%float
                           (One 0.5%float) (One "k") (One "o")).1 = 2.
Proof.
  apply (add_nats_to_plot_count
           [[[1; 2; 3]; [4; 5; 6]]; [[1; 2; 3]; [4; 5; 6]]; [[1; 2; 3]; [4; 5; 6]]]%float
           [[0.25; 0.75; 0.25]; [0.25; 0.25; 1]]%float
           (One 0.5%float) (One "k") (One "o")); try discriminate.
  vm_compute. reflexivity.
Defined.
